(** * devtools-debugger-mcp: the Node.js debug session engine of src/index.ts

    A shallow embedding of the tool handlers registered in [src/index.ts]
    and of the module-level session variables they share.

    Conventions of the embedding.
    - The module-level [let] variables form the record [state]; a handler
      is a function from the state before the call, the call's parameters
      and the answers of the outside world (the debug target, the child
      process) to the state after the call and the response.
    - Everything a handler does to the outside world (CDP commands sent,
      the child spawned or killed, the client closed) and every pause id it
      mints is appended to the field [trace] of the state.  The program
      never reads [trace]: it is a history variable.
    - JavaScript numbers that hold counters, lines, columns and indices are
      modelled by [nat] and [Z]: exact as long as they stay below 2^53 and
      the caller passes integers.
    - JavaScript strings are modelled by [string]; only ASCII characters
      are told apart by the code.
    - A JavaScript object used as a dictionary ([pauseMap]) is a [gmap];
      keys are assumed not to be names inherited from [Object.prototype].
    - Messages of exceptions raised by the JavaScript engine itself are the
      ones V8 prints. *)

From stdpp Require Import base option list strings gmap pretty.
From Stdlib Require Import Ascii ZArith Lia.

Local Open Scope string_scope.
Local Open Scope nat_scope.
Local Open Scope list_scope.

(** ** JavaScript strings *)

Module JsString.

(** [s.startsWith(p)] *)
Definition startsWith (s p : string) : bool := String.prefix p s.

(** A string is truthy when it is not empty. *)
Definition truthy (s : string) : bool :=
  match s with "" => false | _ => true end.

(** An optional string parameter is truthy when it is given and not empty. *)
Definition truthy_opt (o : option string) : bool :=
  match o with Some s => truthy s | None => false end.

(** [Array.prototype.join(sep)] on strings. *)
Fixpoint join (sep : string) (l : list string) : string :=
  match l with
  | [] => ""
  | [x] => x
  | x :: r => x +:+ sep +:+ join sep r
  end.

(** Membership of a character in a string. *)
Fixpoint occurs (c : ascii) (s : string) : Prop :=
  match s with
  | "" => False
  | String d r => c = d ∨ occurs c r
  end.

End JsString.

(** ** add_logpoint: the condition built from the message (index.ts 243-247) *)

Module Logpoint.

Definition backtick : ascii := "`"%char.
Definition backslash : ascii := "\"%char.
Definition lbrace : ascii := "{"%char.
Definition rbrace : ascii := "}"%char.
Definition dollar : ascii := "$"%char.

(** [msg.replace(/`/g, '\\`')]: every backtick gets a backslash in front. *)
Fixpoint escapeBackticks (s : string) : string :=
  match s with
  | "" => ""
  | String c r =>
      if Ascii.eqb c backtick
      then String backslash (String backtick (escapeBackticks r))
      else String c (escapeBackticks r)
  end.

(** The capture group of [/\{([^}]+)\}/] tried right after an opening
    brace: the characters up to the next closing brace. [groupLength r]
    is the length of the group when [r] holds a closing brace. *)
Fixpoint groupLength (r : string) : option nat :=
  match r with
  | "" => None
  | String c r' =>
      if Ascii.eqb c rbrace then Some 0
      else S <$> groupLength r'
  end.

(** The regular expression matches at an opening brace followed by [r]
    when the group is not empty ([+] needs one character). *)
Definition matchesAt (r : string) : option nat :=
  match groupLength r with
  | Some (S n) => Some (S n)
  | _ => None
  end.

(** [.replace(/\{([^}]+)\}/g, '${$1}')]: a left-to-right scan; matches do
    not overlap, and each match [{e}] is replaced by [${e}], that is by
    itself with a dollar sign in front.  [skip] counts the characters of
    the current match that are still to be copied. *)
Fixpoint replaceFrom (skip : nat) (s : string) : string :=
  match s with
  | "" => ""
  | String c r =>
      match skip with
      | S k => String c (replaceFrom k r)
      | 0 =>
          if Ascii.eqb c lbrace then
            match matchesAt r with
            | Some n => String dollar (String c (replaceFrom (S n) r))
            | None => String c (replaceFrom 0 r)
            end
          else String c (replaceFrom 0 r)
      end
  end.

Definition replaceExprs (s : string) : string := replaceFrom 0 s.

(** [toCondition] of the handler. *)
Definition toCondition (msg : string) : string :=
  let tpl := "`" +:+ replaceExprs (escapeBackticks msg) +:+ "`" in
  "console.log(" +:+ tpl +:+ "); false".

(** What the specification asks of the template, in its own words and
    without the functions above: a backtick of the message is escaped
    ([Escaped]); a segment [{expr}], with a non-empty [expr] that holds no
    closing brace, becomes [${expr}]; every other character stays. *)
Inductive Escaped : string → string → Prop :=
| E_end : Escaped "" ""
| E_backtick s t :
    Escaped s t →
    Escaped (String backtick s) (String backslash (String backtick t))
| E_char c s t :
    c ≠ backtick → Escaped s t → Escaped (String c s) (String c t).

Definition isExpr (e : string) : Prop :=
  e ≠ "" ∧ ¬ JsString.occurs rbrace e.

Definition startsWithSegment (s : string) : Prop :=
  ∃ e rest, isExpr e ∧ s = "{" +:+ e +:+ "}" +:+ rest.

Inductive Template : string → string → Prop :=
| T_end : Template "" ""
| T_expr e e' s t :
    isExpr e → Escaped e e' →
    Template s t →
    Template ("{" +:+ e +:+ "}" +:+ s) ("${" +:+ e' +:+ "}" +:+ t)
| T_backtick s t :
    Template s t →
    Template (String backtick s) (String backslash (String backtick t))
| T_char c s t :
    c ≠ backtick →
    ¬ startsWithSegment (String c s) →
    Template s t →
    Template (String c s) (String c t).

End Logpoint.


(** ** Values and events of the debug target (Chrome DevTools Protocol) *)

(** A JSON value carried by [RemoteObject.value]. An object or array is kept
    opaque, with the text [String(v)] gives for it. *)
Inductive json :=
| JNull
| JBool (b : bool)
| JNum (n : Z)
| JStr (s : string)
| JObject (shown : string).

Record RemoteObject := {
  type : string;
  value : option json;
  description : option string;
  className : option string;
  objectId : option string
}.

Record PropertyDescriptor := {
  name : string;
  prop_value : option RemoteObject
}.

Record Scope := {
  scope_type : string;
  object : option RemoteObject
}.

Record Location := {
  scriptId : string;
  lineNumber : Z;
  columnNumber : option Z
}.

Record CallFrame := {
  callFrameId : string;
  functionName : string;
  url : string;
  location : Location;
  scopeChain : list Scope;
  this : option RemoteObject
}.

Record PausedEvent := {
  callFrames : list CallFrame;
  reason : string
}.

Record ExceptionDetails := {
  text : string;
  exception : option RemoteObject
}.

Record EvaluateResponse := {
  result : RemoteObject;
  exceptionDetails : option ExceptionDetails
}.

Record BreakpointResult := {
  breakpointId : string;
  locations : list Location
}.

(** The answer to a command or to any awaited promise. *)
Inductive reply (A : Type) :=
| Fulfilled (a : A)
| Rejected (message : string).
Arguments Fulfilled {A} a.
Arguments Rejected {A} message.

(** Events the client may deliver to its listeners. *)
Inductive IntakeEvent :=
| ScriptParsed (scriptId url : string)
| ConsoleAPICalled (type : string) (args : list RemoteObject).

Inductive TargetEvent :=
| Intake (e : IntakeEvent)
| Paused (ev : PausedEvent).

(** Commands sent to the target, with the parameters the handlers pass. *)
Inductive command :=
| DebuggerEnable
| RuntimeEnable
| RunIfWaitingForDebugger
| SetBreakpointByUrl (url urlRegex : option string)
    (lineNumber columnNumber : Z) (condition : option string)
| SetPauseOnExceptions (state : string)
| SetBlackboxPatterns (patterns : list string)
| GetScriptSource (scriptId : string)
| Resume
| StepOver
| StepInto
| StepOut
| ContinueToLocation (scriptId : string) (lineNumber columnNumber : Z)
| RestartFrame (callFrameId : string)
| EvaluateOnCallFrame (callFrameId expression : string) (returnByValue : bool)
| GetProperties (objectId : string).

(** What a handler does to the outside world, and the pause ids it mints. *)
Inductive effect :=
| Spawned (scriptPath : string)
| Killed
| Closed
| Sent (c : command)
| Minted (pauseId : string).

(** ** Session state (index.ts 16-24) *)

(** A [Debugger.paused] listener is one of two closures: the one
    [start_node_debug] registers (it records the event), and the one every
    execution-control handler registers (it records the event and mints a
    pause id for it). No handler ever unsubscribes one. *)
Inductive listener :=
| RecordPause
| MintPause.

Record Client := {
  pausedListeners : list listener;
  intakeListeners : bool
}.

Record ChildProcess := {
  script : string
}.

Record state := {
  nodeDebugClient : option Client;
  nodeProcess : option ChildProcess;
  scriptIdToUrl : list (string * string);
  consoleMessages : list string;
  lastPausedParams : option PausedEvent;
  pauseCounter : nat;
  pauseMap : gmap string PausedEvent;
  currentPauseId : option string;
  trace : list effect
}.

Definition initial : state := {|
  nodeDebugClient := None;
  nodeProcess := None;
  scriptIdToUrl := [];
  consoleMessages := [];
  lastPausedParams := None;
  pauseCounter := 0;
  pauseMap := ∅;
  currentPauseId := None;
  trace := []
|}.

Definition set_nodeDebugClient (v : option Client) (s : state) : state :=
  {| nodeDebugClient := v; nodeProcess := nodeProcess s;
     scriptIdToUrl := scriptIdToUrl s; consoleMessages := consoleMessages s;
     lastPausedParams := lastPausedParams s; pauseCounter := pauseCounter s;
     pauseMap := pauseMap s; currentPauseId := currentPauseId s;
     trace := trace s |}.

Definition set_nodeProcess (v : option ChildProcess) (s : state) : state :=
  {| nodeDebugClient := nodeDebugClient s; nodeProcess := v;
     scriptIdToUrl := scriptIdToUrl s; consoleMessages := consoleMessages s;
     lastPausedParams := lastPausedParams s; pauseCounter := pauseCounter s;
     pauseMap := pauseMap s; currentPauseId := currentPauseId s;
     trace := trace s |}.

Definition set_scriptIdToUrl (v : list (string * string)) (s : state) : state :=
  {| nodeDebugClient := nodeDebugClient s; nodeProcess := nodeProcess s;
     scriptIdToUrl := v; consoleMessages := consoleMessages s;
     lastPausedParams := lastPausedParams s; pauseCounter := pauseCounter s;
     pauseMap := pauseMap s; currentPauseId := currentPauseId s;
     trace := trace s |}.

Definition set_consoleMessages (v : list string) (s : state) : state :=
  {| nodeDebugClient := nodeDebugClient s; nodeProcess := nodeProcess s;
     scriptIdToUrl := scriptIdToUrl s; consoleMessages := v;
     lastPausedParams := lastPausedParams s; pauseCounter := pauseCounter s;
     pauseMap := pauseMap s; currentPauseId := currentPauseId s;
     trace := trace s |}.

Definition set_lastPausedParams (v : option PausedEvent) (s : state) : state :=
  {| nodeDebugClient := nodeDebugClient s; nodeProcess := nodeProcess s;
     scriptIdToUrl := scriptIdToUrl s; consoleMessages := consoleMessages s;
     lastPausedParams := v; pauseCounter := pauseCounter s;
     pauseMap := pauseMap s; currentPauseId := currentPauseId s;
     trace := trace s |}.

Definition set_pauseCounter (v : nat) (s : state) : state :=
  {| nodeDebugClient := nodeDebugClient s; nodeProcess := nodeProcess s;
     scriptIdToUrl := scriptIdToUrl s; consoleMessages := consoleMessages s;
     lastPausedParams := lastPausedParams s; pauseCounter := v;
     pauseMap := pauseMap s; currentPauseId := currentPauseId s;
     trace := trace s |}.

Definition set_pauseMap (v : gmap string PausedEvent) (s : state) : state :=
  {| nodeDebugClient := nodeDebugClient s; nodeProcess := nodeProcess s;
     scriptIdToUrl := scriptIdToUrl s; consoleMessages := consoleMessages s;
     lastPausedParams := lastPausedParams s; pauseCounter := pauseCounter s;
     pauseMap := v; currentPauseId := currentPauseId s;
     trace := trace s |}.

Definition set_currentPauseId (v : option string) (s : state) : state :=
  {| nodeDebugClient := nodeDebugClient s; nodeProcess := nodeProcess s;
     scriptIdToUrl := scriptIdToUrl s; consoleMessages := consoleMessages s;
     lastPausedParams := lastPausedParams s; pauseCounter := pauseCounter s;
     pauseMap := pauseMap s; currentPauseId := v;
     trace := trace s |}.

(** Appends to the history of effects. *)
Definition log (e : effect) (s : state) : state :=
  {| nodeDebugClient := nodeDebugClient s; nodeProcess := nodeProcess s;
     scriptIdToUrl := scriptIdToUrl s; consoleMessages := consoleMessages s;
     lastPausedParams := lastPausedParams s; pauseCounter := pauseCounter s;
     pauseMap := pauseMap s; currentPauseId := currentPauseId s;
     trace := trace s ++ [e] |}.

(** ** Responses *)

Record FrameSummary := {
  fs_functionName : option string;
  fs_url : string;
  fs_line : Z;
  fs_column : Z
}.

(** A variable as the execution-control tools and [get_object_properties]
    list it. *)
Record ScopeVariable := {
  sv_name : string;
  sv_type : option string;
  sv_value : option json;
  sv_objectId : option string
}.

(** What [summarizeValue] of [inspect_scopes] returns; [inspect_scopes]
    lists a variable as its name with this summary. *)
Record ValueSummary := {
  vs_type : string;
  vs_value : option json;
  vs_description : option string;
  vs_className : option string;
  vs_objectId : option string
}.

(** One entry of a [scopes] array; [truncated] is [None] when the entry has
    no such field. *)
Record ScopeEntry (V : Type) := {
  se_type : string;
  variables : list V;
  truncated : option bool
}.
Arguments se_type {V} _.
Arguments variables {V} _.
Arguments truncated {V} _.

Record ThisSummary := {
  this_summary : ValueSummary;
  preview : option (list (string * ValueSummary))
}.

Record StackFrame := {
  sf_frame : FrameSummary;
  thisType : option string
}.

(** The object handed to [mcpContent]. The [format] parameter of the tools
    only chooses the indentation of its JSON text and is left out. *)
Inductive payload :=
| StartPayload (status : string) (pauseId : option string)
    (frame : FrameSummary)
| PausePayload (status : string) (pauseId : option string)
    (frame : FrameSummary) (consoleOutput : option (list string))
    (stack : option (list FrameSummary))
    (scopes : option (list (ScopeEntry ScopeVariable)))
| StatusPayload (status : string)
| BreakpointPayload (breakpointId : string) (locations : list Location)
    (kind : option string)
| ExceptionStatePayload (state : string)
| BlackboxPayload (patterns : list string)
| ScriptsPayload (scripts : list (string * string))
| SourcePayload (scriptId : string) (url : option string) (source : string)
| PropertiesPayload (properties : list ScopeVariable)
| ConsolePayload (consoleOutput : list string)
| EvalPayload (result : json) (consoleOutput : list string)
| ScopesPayload (frame : FrameSummary) (this : option ThisSummary)
    (scopes : list (ScopeEntry (string * ValueSummary)))
| StackPayload (frames : list StackFrame) (pauseId : option string)
| PauseInfoPayload (reason : string) (pauseId : option string)
    (location : FrameSummary) (scopeTypes : list string).

Inductive response :=
| Content (p : payload)       (* { content: mcpContent(p) } *)
| Plain (text : string)       (* { content: [{ type: 'text', text }] } *)
| Failure (text : string)     (* the same with isError: true *)
| Thrown (message : string).  (* the handler throws; nothing catches it *)

Definition isError (r : response) : bool :=
  match r with
  | Content _ | Plain _ => false
  | Failure _ | Thrown _ => true
  end.

(** The texts of the error responses. *)
Definition NO_SESSION := "Error: No active debug session.".
Definition NO_PAUSE := "Error: No active pause state.".
Definition SESSION_ACTIVE := "Error: A debug session is already active.".
Definition INVALID_PAUSE := "Error: Invalid pauseId.".
Definition INVALID_FRAME := "Error: Invalid frame index.".
Definition MISSING_LOCATOR := "Error: Provide filePath or urlRegex.".
Definition START_FAILED := "Error: Failed to start debug session - ".
Definition LAUNCHER_EXITED := "Node process exited before debugger attached".

(** The message of the [TypeError] V8 raises for [undefined.prop]. *)
Definition cannotRead (prop : string) : string :=
  "Cannot read properties of undefined (reading '" +:+ prop +:+ "')".

(** ** Helpers shared by the handlers *)

(** ['p' + n] *)
Definition pause_id (n : nat) : string := "p" +:+ pretty n.

(** [a || b] on strings. *)
Definition or_else (a b : string) : string :=
  if JsString.truthy a then a else b.

(** [p.startsWith('file://') ? p : 'file://' + p] *)
Definition toFileUrl (filePath : string) : string :=
  if JsString.startsWith filePath "file://" then filePath
  else "file://" +:+ filePath.

(** The script catalog is an object used as a map. It is kept as the list
    of its own properties in the order [Object.keys] and [Object.entries]
    list them: the keys that are array indices first, in ascending numeric
    order, then the other keys in the order they were created. *)

(** The value of a decimal digit. *)
Definition digitValue (c : ascii) : option N :=
  let n := N_of_ascii c in
  if (48 <=? n)%N && (n <=? 57)%N then Some (n - 48)%N else None.

(** The number a text of decimal digits stands for, read after [acc]. *)
Fixpoint decimalValue (acc : N) (k : string) : option N :=
  match k with
  | EmptyString => Some acc
  | String c r =>
      match digitValue c with
      | Some d => decimalValue (acc * 10 + d) r
      | None => None
      end
  end.

(** A property key is an array index when it is the canonical decimal text
    (no sign, no leading zero) of an integer below 2^32 - 1. *)
Definition arrayIndex (k : string) : option N :=
  match k with
  | EmptyString => None
  | String c r =>
      if Ascii.eqb c "0" && negb (String.eqb r "") then None
      else
        match decimalValue 0 k with
        | Some n => if (n <? 4294967295)%N then Some n else None
        | None => None
        end
  end.

(** A new key [k] is listed before the key [k'] that is there already. *)
Definition keyBefore (k k' : string) : bool :=
  match arrayIndex k, arrayIndex k' with
  | Some n, Some n' => (n <? n')%N
  | Some _, None => true
  | None, _ => false
  end.

(** [scriptIdToUrl[k]] *)
Fixpoint catalog_get (m : list (string * string)) (k : string) : option string :=
  match m with
  | [] => None
  | (k', v) :: r => if decide (k' = k) then Some v else catalog_get r k
  end.

(** [scriptIdToUrl[k] = v] for a key the catalog has: the value changes,
    the place does not. *)
Fixpoint catalog_update (m : list (string * string)) (k v : string)
  : list (string * string) :=
  match m with
  | [] => []
  | (k', v') :: r =>
      if decide (k' = k) then (k, v) :: r else (k', v') :: catalog_update r k v
  end.

(** [scriptIdToUrl[k] = v] for a key the catalog does not have. *)
Fixpoint catalog_add (m : list (string * string)) (k v : string)
  : list (string * string) :=
  match m with
  | [] => [(k, v)]
  | (k', v') :: r =>
      if keyBefore k k' then (k, v) :: (k', v') :: r
      else (k', v') :: catalog_add r k v
  end.

(** [scriptIdToUrl[k] = v] *)
Definition catalog_set (m : list (string * string)) (k v : string)
  : list (string * string) :=
  match catalog_get m k with
  | Some _ => catalog_update m k v
  | None => catalog_add m k v
  end.

(** [Object.keys(scriptIdToUrl).find((k) => scriptIdToUrl[k] === url)] *)
Definition findScriptId (m : list (string * string)) (u : string)
  : option string :=
  fst <$> List.find (λ kv, bool_decide (kv.2 = u)) m.

(** [frame.url || scriptIdToUrl[frame.location.scriptId] || '<unknown>'] *)
Definition frameUrl (s : state) (frame : CallFrame) : string :=
  or_else (url frame)
    (or_else (default "" (catalog_get (scriptIdToUrl s) (scriptId (location frame))))
       "<unknown>").

Definition summarizeFrame (s : state) (frame : CallFrame) : FrameSummary :=
  {| fs_functionName :=
       if JsString.truthy (functionName frame) then Some (functionName frame)
       else None;
     fs_url := frameUrl s frame;
     fs_line := (lineNumber (location frame) + 1)%Z;
     fs_column := (default 0%Z (columnNumber (location frame)) + 1)%Z |}.

(** [String(v)] as [Array.prototype.join] applies it to an element. *)
Definition json_joined (v : json) : string :=
  match v with
  | JNull => ""
  | JBool true => "true"
  | JBool false => "false"
  | JNum n => pretty n
  | JStr s => s
  | JObject shown => shown
  end.

(** [a ?? b] on an optional JSON value: [null] counts as missing. *)
Definition nullish_else (a b : option json) : option json :=
  match a with
  | None | Some JNull => b
  | Some _ => a
  end.

(** The entry the execution-control tools and [get_object_properties] build
    from a property descriptor. *)
Definition scopeVariable (p : PropertyDescriptor) : ScopeVariable :=
  {| sv_name := name p;
     sv_type := type <$> prop_value p;
     sv_value :=
       nullish_else (prop_value p ≫= value)
                    (JStr <$> (prop_value p ≫= description));
     sv_objectId := prop_value p ≫= objectId |}.

(** [arr.slice(0, n)] *)
Definition slice0 {A} (n : nat) (l : list A) : list A := take n l.
Arguments slice0 : simpl never.

(** ** Event intake *)

Definition onScriptParsed (scriptId url : string) (s : state) : state :=
  if JsString.truthy url
  then set_scriptIdToUrl (catalog_set (scriptIdToUrl s) scriptId url) s
  else s.

Definition consoleArg (arg : RemoteObject) : string :=
  match value arg with
  | Some v => json_joined v
  | None => default "" (description arg)
  end.

Definition onConsoleAPICalled (type : string) (args : list RemoteObject)
    (s : state) : state :=
  let text := JsString.join " " (consoleArg <$> args) in
  set_consoleMessages (consoleMessages s ++ ["[" +:+ type +:+ "] " +:+ text]) s.

Definition onIntake (e : IntakeEvent) (s : state) : state :=
  match e with
  | ScriptParsed scriptId url => onScriptParsed scriptId url s
  | ConsoleAPICalled type args => onConsoleAPICalled type args s
  end.

(** [currentPauseId = 'p' + ++pauseCounter; pauseMap[currentPauseId] = ev] *)
Definition mintPause (ev : PausedEvent) (s : state) : state :=
  let n := S (pauseCounter s) in
  let id := pause_id n in
  log (Minted id)
    (set_pauseMap (<[id := ev]> (pauseMap s))
       (set_currentPauseId (Some id) (set_pauseCounter n s))).

(** One listener run on a [Debugger.paused] event. *)
Definition runListener (ev : PausedEvent) (s : state) (l : listener) : state :=
  match l with
  | RecordPause => set_lastPausedParams (Some ev) s
  | MintPause => mintPause ev (set_lastPausedParams (Some ev) s)
  end.

(** The client runs its listeners in the order they were registered. *)
Definition onPaused (ev : PausedEvent) (s : state) : state :=
  match nodeDebugClient s with
  | Some c => foldl (runListener ev) s (pausedListeners c)
  | None => s
  end.

(** An event of the target reaches the handlers only through a client. *)
Definition deliver (e : TargetEvent) (s : state) : state :=
  match nodeDebugClient s with
  | None => s
  | Some c =>
      match e with
      | Intake i => if intakeListeners c then onIntake i s else s
      | Paused ev => onPaused ev s
      end
  end.

(** [nodeDebugClient.Debugger.paused(l)] *)
Definition addPausedListener (l : listener) (s : state) : state :=
  match nodeDebugClient s with
  | Some c =>
      set_nodeDebugClient
        (Some {| pausedListeners := pausedListeners c ++ [l];
                 intakeListeners := intakeListeners c |}) s
  | None => s
  end.

(** ** start_node_debug (index.ts 54-150) *)

(** How far the attach sequence gets. A run in which an awaited promise
    never settles (the child exits after printing the inspector URL and
    before the first pause) returns no response and is not listed. *)
Inductive StartWorld :=
| LauncherExited
| ConnectRejected (message : string)
| DebuggerEnableRejected (message : string)
| RuntimeEnableRejected (message : string)
| Attached (intake : list IntakeEvent) (pausedEvent : PausedEvent).

Definition startFailed (cause : string) : response :=
  Failure (START_FAILED +:+ cause).

(** [nodeDebugClient = await CDP(...)] followed by the registration of the
    listener that records the event of every later pause. *)
Definition connect (s : state) : state :=
  set_nodeDebugClient
    (Some {| pausedListeners := [RecordPause]; intakeListeners := false |}) s.

(** [Debugger.scriptParsed(...)] and [Runtime.consoleAPICalled(...)] *)
Definition installIntake (s : state) : state :=
  match nodeDebugClient s with
  | Some c =>
      set_nodeDebugClient
        (Some {| pausedListeners := pausedListeners c;
                 intakeListeners := true |}) s
  | None => s
  end.

Definition start_node_debug (scriptPath : string) (w : StartWorld) (s : state)
  : state * response :=
  match nodeDebugClient s with
  | Some _ => (s, Failure SESSION_ACTIVE)
  | None =>
      let s := log (Spawned scriptPath)
                 (set_nodeProcess (Some {| script := scriptPath |}) s) in
      match w with
      | LauncherExited => (s, startFailed LAUNCHER_EXITED)
      | ConnectRejected m => (s, startFailed m)
      | DebuggerEnableRejected m =>
          (log (Sent DebuggerEnable) (connect s), startFailed m)
      | RuntimeEnableRejected m =>
          (log (Sent RuntimeEnable) (log (Sent DebuggerEnable) (connect s)),
           startFailed m)
      | Attached intake pausedEvent =>
          let s := log (Sent RuntimeEnable)
                     (log (Sent DebuggerEnable) (connect s)) in
          let s := log (Sent RunIfWaitingForDebugger) s in
          let s := set_consoleMessages [] (set_scriptIdToUrl [] s) in
          let s := installIntake s in
          let s := foldl (λ s e, onIntake e s) s intake in
          let s := onPaused pausedEvent s in
          match callFrames pausedEvent with
          | [] => (s, startFailed (cannotRead "location"))
          | callFrame :: _ =>
              let fileUrl :=
                or_else
                  (default ""
                     (catalog_get (scriptIdToUrl s)
                        (scriptId (location callFrame))))
                  (or_else (url callFrame) "<unknown>") in
              let line := (lineNumber (location callFrame) + 1)%Z in
              let s := set_consoleMessages [] s in
              let s := mintPause pausedEvent
                         (set_lastPausedParams (Some pausedEvent) s) in
              (s, Content
                    (StartPayload
                       ("Debugger attached. Paused at " +:+ fileUrl
                          +:+ ":" +:+ pretty line +:+ " (reason: "
                          +:+ reason pausedEvent +:+ ").")
                       (currentPauseId s)
                       (summarizeFrame s callFrame)))
          end
      end
  end.

(** ** Breakpoint tools (index.ts 152-294) *)

Definition set_breakpoint (filePath : string) (line : Z)
    (w : reply BreakpointResult) (s : state) : state * response :=
  match nodeDebugClient s with
  | None => (s, Failure NO_SESSION)
  | Some _ =>
      let fileUrl := toFileUrl filePath in
      let lineNumber := (line - 1)%Z in
      let s := log (Sent (SetBreakpointByUrl (Some fileUrl) None lineNumber 0%Z None)) s in
      match w with
      | Fulfilled r =>
          (s, Plain ("Breakpoint set at " +:+ filePath +:+ ":" +:+ pretty line
                       +:+ " (ID: " +:+ breakpointId r +:+ ")."))
      | Rejected m => (s, Failure ("Error: Failed to set breakpoint - " +:+ m))
      end
  end.

(** The body shared, word for word, by [set_breakpoint_condition] and
    [add_logpoint] once the condition is known: the locator is chosen by an
    if / else-if / else chain that looks at [urlRegex] first. *)
Definition setByLocator (filePath urlRegex : option string) (line : Z)
    (column : option Z) (condition : string) (kind : option string)
    (failed : string) (w : reply BreakpointResult) (s : state)
  : state * response :=
  let lineNumber := (line - 1)%Z in
  let column := default 0%Z column in
  let finish s :=
    match w with
    | Fulfilled r =>
        (s, Content (BreakpointPayload (breakpointId r) (locations r) kind))
    | Rejected m => (s, Failure (failed +:+ m))
    end in
  if JsString.truthy_opt urlRegex then
    finish (log (Sent (SetBreakpointByUrl None urlRegex lineNumber column
                         (Some condition))) s)
  else if JsString.truthy_opt filePath then
    finish (log (Sent (SetBreakpointByUrl (toFileUrl <$> filePath) None
                         lineNumber column (Some condition))) s)
  else (s, Failure MISSING_LOCATOR).

Definition set_breakpoint_condition (filePath urlRegex : option string)
    (line : Z) (column : option Z) (condition : string)
    (w : reply BreakpointResult) (s : state) : state * response :=
  match nodeDebugClient s with
  | None => (s, Failure NO_SESSION)
  | Some _ =>
      setByLocator filePath urlRegex line column condition None
        "Error: Failed to set conditional breakpoint - " w s
  end.

Definition add_logpoint (filePath urlRegex : option string)
    (line : Z) (column : option Z) (message : string)
    (w : reply BreakpointResult) (s : state) : state * response :=
  match nodeDebugClient s with
  | None => (s, Failure NO_SESSION)
  | Some _ =>
      let condition := Logpoint.toCondition message in
      setByLocator filePath urlRegex line column condition (Some "logpoint")
        "Error: Failed to add logpoint - " w s
  end.

Definition set_exception_breakpoints (st : string) (w : reply unit)
    (s : state) : state * response :=
  match nodeDebugClient s with
  | None => (s, Failure NO_SESSION)
  | Some _ =>
      let s := log (Sent (SetPauseOnExceptions st)) s in
      match w with
      | Fulfilled _ => (s, Content (ExceptionStatePayload st))
      | Rejected m =>
          (s, Failure ("Error: Failed to set exception breakpoints - " +:+ m))
      end
  end.

Definition blackbox_scripts (patterns : list string) (w : reply unit)
    (s : state) : state * response :=
  match nodeDebugClient s with
  | None => (s, Failure NO_SESSION)
  | Some _ =>
      let s := log (Sent (SetBlackboxPatterns patterns)) s in
      match w with
      | Fulfilled _ => (s, Content (BlackboxPayload patterns))
      | Rejected m =>
          (s, Failure ("Error: Failed to set blackbox patterns - " +:+ m))
      end
  end.

(** ** Catalog tools (index.ts 296-322, 387-410) *)

Definition list_scripts (s : state) : state * response :=
  (s, Content (ScriptsPayload (scriptIdToUrl s))).

Definition get_script_source (scriptId url : option string)
    (w : reply string) (s : state) : state * response :=
  match nodeDebugClient s with
  | None => (s, Failure NO_SESSION)
  | Some _ =>
      let sid :=
        if negb (JsString.truthy_opt scriptId) && JsString.truthy_opt url
        then findScriptId (scriptIdToUrl s) (default "" url)
        else scriptId in
      match sid with
      | Some sid' =>
          if JsString.truthy sid' then
            let s := log (Sent (GetScriptSource sid')) s in
            match w with
            | Fulfilled source =>
                let known := catalog_get (scriptIdToUrl s) sid' in
                (s, Content (SourcePayload sid' known source))
            | Rejected m =>
                (s, Failure ("Error: Failed to get script source - " +:+ m))
            end
          else (s, Failure "Error: Provide scriptId or url.")
      | None => (s, Failure "Error: Provide scriptId or url.")
      end
  end.

Definition get_object_properties (objectId : string) (maxProps : option nat)
    (w : reply (list PropertyDescriptor)) (s : state) : state * response :=
  match nodeDebugClient s with
  | None => (s, Failure NO_SESSION)
  | Some _ =>
      let s := log (Sent (GetProperties objectId)) s in
      match w with
      | Fulfilled result =>
          let items := scopeVariable <$> slice0 (default 50 maxProps) result in
          (s, Content (PropertiesPayload items))
      | Rejected m =>
          (s, Failure ("Error: Failed to get object properties - " +:+ m))
      end
  end.

Definition read_console (s : state) : state * response :=
  let out := consoleMessages s in
  (set_consoleMessages [] s, Content (ConsolePayload out)).

(** ** Execution-control tools (index.ts 324-385, 414-781) *)

Record ControlOptions := {
  includeScopes : option bool;
  includeStack : option bool;
  includeConsole : option bool
}.

(** Who wins [Promise.race([pausePromise, exitPromise])]. *)
Inductive RaceResult :=
| PauseWins (ev : PausedEvent)
| ExitWins (exitCode : option Z).

(** The answers of the outside world during one execution-control call. *)
Record ControlWorld := {
  commandReply : reply unit;
  race : RaceResult;
  getProperties : string → reply (list PropertyDescriptor)
}.

(** The four handlers with the same options are four copies of one text;
    they differ where the functions below differ. *)
Inductive ControlTool :=
| ResumeExecution
| StepOverTool
| StepIntoTool
| StepOutTool.

Definition controlCommand (t : ControlTool) : command :=
  match t with
  | ResumeExecution => Resume
  | StepOverTool => StepOver
  | StepIntoTool => StepInto
  | StepOutTool => StepOut
  end.

Definition controlFailed (t : ControlTool) : string :=
  match t with
  | ResumeExecution => "Error: Resume failed - "
  | StepOverTool => "Error: Step over failed - "
  | StepIntoTool => "Error: Step into failed - "
  | StepOutTool => "Error: Step out failed - "
  end.

(** Only [resume_execution] has the two assignments [pauseMap = {}] and
    [currentPauseId = null] in its exit branch (index.ts 485-486). *)
Definition clearsPauses (t : ControlTool) : bool :=
  match t with
  | ResumeExecution => true
  | _ => false
  end.

(** The scopes loop of the four handlers (index.ts 460-475): a scope without
    object id is skipped, the properties of the others are asked for, cut to
    15 and pushed under the type of the scope. A rejected request ends the
    loop with the message. *)
Fixpoint controlScopes (getProps : string → reply (list PropertyDescriptor))
    (chain : list Scope) (s : state)
  : state * reply (list (ScopeEntry ScopeVariable)) :=
  match chain with
  | [] => (s, Fulfilled [])
  | sc :: rest =>
      match object sc ≫= objectId with
      | Some oid =>
          if JsString.truthy oid then
            let s := log (Sent (GetProperties oid)) s in
            match getProps oid with
            | Rejected m => (s, Rejected m)
            | Fulfilled props =>
                let variables := scopeVariable <$> slice0 15 props in
                let entry := {| se_type := scope_type sc;
                                variables := variables;
                                truncated := None |} in
                match controlScopes getProps rest s with
                | (s, Fulfilled scopes) => (s, Fulfilled (entry :: scopes))
                | (s, Rejected m) => (s, Rejected m)
                end
            end
          else controlScopes getProps rest s
      | None => controlScopes getProps rest s
      end
  end.

(** ['${exitCode}'] for [nodeProcess?.exitCode] *)
Definition exitCodeText (p : option ChildProcess) (exitCode : option Z)
  : string :=
  match p, exitCode with
  | None, _ => "undefined"
  | Some _, None => "null"
  | Some _, Some c => pretty c
  end.

(** The exit branch of the four handlers. *)
Definition exitBranch (t : ControlTool) (exitCode : option Z) (s : state)
  : state * response :=
  let shown := exitCodeText (nodeProcess s) exitCode in
  let s := log Closed s in
  let s := set_nodeDebugClient None s in
  let s := set_nodeProcess None s in
  let s := set_scriptIdToUrl [] s in
  let s := set_lastPausedParams None s in
  let s := set_consoleMessages [] s in
  let s := if clearsPauses t
           then set_currentPauseId None (set_pauseMap ∅ s) else s in
  let status := "Execution resumed until completion. Process exited with code "
                  +:+ shown +:+ "." in
  (s, if clearsPauses t then Content (StatusPayload status) else Plain status).

Definition isTrue (o : option bool) : bool := default false o.

(** The pause branch of the four handlers. *)
Definition pauseBranch (t : ControlTool) (options : ControlOptions)
    (w : ControlWorld) (ev : PausedEvent) (s : state) : state * response :=
  match callFrames ev with
  | [] => (s, Failure (controlFailed t +:+ cannotRead "url"))
  | topFrame :: _ =>
      let fileUrl := frameUrl s topFrame in
      let line := (lineNumber (location topFrame) + 1)%Z in
      let output := consoleMessages s in
      let status := "Paused at " +:+ fileUrl +:+ ":" +:+ pretty line
                      +:+ " (reason: " +:+ reason ev +:+ ")" in
      let pauseId := currentPauseId s in
      let frame := summarizeFrame s topFrame in
      let s := set_consoleMessages [] s in
      let consoleOutput :=
        if isTrue (includeConsole options) then Some output else None in
      let stack :=
        if isTrue (includeStack options)
        then Some (summarizeFrame s <$> callFrames ev) else None in
      if isTrue (includeScopes options) then
        match controlScopes (getProperties w) (scopeChain topFrame) s with
        | (s, Fulfilled scopes) =>
            (s, Content (PausePayload status pauseId frame consoleOutput stack
                           (Some scopes)))
        | (s, Rejected m) => (s, Failure (controlFailed t +:+ m))
        end
      else
        (s, Content (PausePayload status pauseId frame consoleOutput stack None))
  end.

Definition control (t : ControlTool) (options : ControlOptions)
    (w : ControlWorld) (s : state) : state * response :=
  match nodeDebugClient s with
  | None => (s, Failure NO_SESSION)
  | Some _ =>
      let s := addPausedListener MintPause s in
      let s := log (Sent (controlCommand t)) s in
      match commandReply w with
      | Rejected m => (s, Failure (controlFailed t +:+ m))
      | Fulfilled _ =>
          match race w with
          | PauseWins ev => pauseBranch t options w ev (onPaused ev s)
          | ExitWins exitCode => exitBranch t exitCode s
          end
      end
  end.

Definition resume_execution := control ResumeExecution.
Definition step_over := control StepOverTool.
Definition step_into := control StepIntoTool.
Definition step_out := control StepOutTool.

Definition continue_to_location (filePath : string) (line : Z)
    (column : option Z) (w : ControlWorld) (s : state) : state * response :=
  match nodeDebugClient s with
  | None => (s, Failure NO_SESSION)
  | Some _ =>
      let url := toFileUrl filePath in
      match findScriptId (scriptIdToUrl s) url with
      | None => (s, Failure ("Error: Script not found for " +:+ url))
      | Some scriptId =>
          if negb (JsString.truthy scriptId)
          then (s, Failure ("Error: Script not found for " +:+ url))
          else
            let lineNumber := (line - 1)%Z in
            let columnNumber := (default 1%Z column - 1)%Z in
            let s := addPausedListener MintPause s in
            let s := log (Sent (ContinueToLocation scriptId lineNumber
                                  columnNumber)) s in
            match commandReply w with
            | Rejected m =>
                (s, Failure ("Error: Failed to continue to location - " +:+ m))
            | Fulfilled _ =>
                match race w with
                | PauseWins ev =>
                    let s := onPaused ev s in
                    match callFrames ev with
                    | [] =>
                        (s, Failure ("Error: Failed to continue to location - "
                                       +:+ cannotRead "url"))
                    | top :: _ =>
                        let f := summarizeFrame s top in
                        (s, Content
                              (PausePayload
                                 ("Paused at " +:+ fs_url f +:+ ":"
                                    +:+ pretty (fs_line f))
                                 (currentPauseId s) f None None None))
                    end
                | ExitWins _ =>
                    (s, Content (StatusPayload "Execution completed."))
                end
            end
      end
  end.

(** [params.pauseId ? pauseMap[params.pauseId] : lastPausedParams], as
    far as it gives a paused event: the entry the catalog holds under the
    id, or the last pause. *)
Definition selectPause (pauseId : option string) (s : state)
  : option PausedEvent :=
  match pauseId with
  | Some id => if JsString.truthy id then pauseMap s !! id
               else lastPausedParams s
  | None => lastPausedParams s
  end.

(** [pauseMap] is an object literal: for a name it has no entry under,
    [pauseMap[name]] still finds what every object inherits from
    [Object.prototype]. These are the inherited names; what is found under
    them (a function, the prototype itself under [__proto__]) is truthy
    and has no [callFrames]. The keys of the catalog, ['p' + n], are none
    of them. *)
Definition objectPrototypeNames : list string :=
  ["constructor"; "__defineGetter__"; "__defineSetter__"; "hasOwnProperty";
   "__lookupGetter__"; "__lookupSetter__"; "isPrototypeOf";
   "propertyIsEnumerable"; "toString"; "valueOf"; "__proto__";
   "toLocaleString"].

(** The pause id is such a name: where [selectPause] finds no paused
    event, [pause] is then not [undefined] but an inherited member. *)
Definition inheritedMember (pauseId : option string) : bool :=
  match pauseId with
  | Some id => bool_decide (id ∈ objectPrototypeNames)
  | None => false
  end.

(** [!nodeDebugClient || !lastPausedParams] *)
Definition noPauseState (s : state) : bool :=
  match nodeDebugClient s, lastPausedParams s with
  | Some _, Some _ => false
  | _, _ => true
  end.

(** [restart_frame] waits for the next pause only; a call during which the
    target exits instead never returns. *)
Definition restart_frame (frameIndex : nat) (pauseId : option string)
    (commandReply : reply unit) (next : PausedEvent) (s : state)
  : state * response :=
  if noPauseState s then (s, Failure NO_PAUSE)
  else
    match selectPause pauseId s with
    | None =>
        if inheritedMember pauseId
        then (s, Failure ("Error: Failed to restart frame - "
                            +:+ cannotRead (pretty frameIndex)))
        else (s, Failure INVALID_PAUSE)
    | Some pause =>
        match callFrames pause !! frameIndex with
        | None => (s, Failure INVALID_FRAME)
        | Some frame =>
            let s := addPausedListener MintPause s in
            let s := log (Sent (RestartFrame (callFrameId frame))) s in
            match commandReply with
            | Rejected m =>
                (s, Failure ("Error: Failed to restart frame - " +:+ m))
            | Fulfilled _ =>
                let s := onPaused next s in
                match callFrames next with
                | [] => (s, Failure ("Error: Failed to restart frame - "
                                       +:+ cannotRead "url"))
                | top :: _ =>
                    let f := summarizeFrame s top in
                    (s, Content
                          (PausePayload
                             ("Restarted frame; now at " +:+ fs_url f +:+ ":"
                                +:+ pretty (fs_line f))
                             (currentPauseId s) f None None None))
                end
            end
        end
    end.

(** ** Inspection tools (index.ts 783-990) *)

Definition evaluate_expression (expr : string) (pauseId : option string)
    (frameIndex : option nat) (returnByValue : option bool)
    (w : reply EvaluateResponse) (s : state) : state * response :=
  if noPauseState s then (s, Failure NO_PAUSE)
  else
    match selectPause pauseId s with
    | None =>
        if inheritedMember pauseId
        then (s, Failure ("Error: Evaluation failed - "
                            +:+ cannotRead (pretty (default 0 frameIndex))))
        else (s, Failure INVALID_PAUSE)
    | Some pause =>
        let idx := default 0 frameIndex in
        match callFrameId <$> callFrames pause !! idx with
        | None => (s, Failure INVALID_FRAME)
        | Some id =>
            if negb (JsString.truthy id) then (s, Failure INVALID_FRAME)
            else
              let s := log (Sent (EvaluateOnCallFrame id expr
                                    (default true returnByValue))) s in
              match w with
              | Rejected m =>
                  (s, Failure ("Error: Evaluation failed - " +:+ m))
              | Fulfilled evalResponse =>
                  match exceptionDetails evalResponse with
                  | Some details =>
                      let shown :=
                        or_else
                          (default "" (exception details ≫= description))
                          (text details) in
                      (s, Failure ("Error: " +:+ shown))
                  | None =>
                      let resultObj := result evalResponse in
                      let output :=
                        match value resultObj with
                        | Some v => v
                        | None =>
                            JStr (or_else (default "" (description resultObj))
                                    (type resultObj))
                        end in
                      let outputLogs := consoleMessages s in
                      (set_consoleMessages [] s,
                       Content (EvalPayload output outputLogs))
                  end
              end
        end
    end.

(** [typeof v] for a JSON value *)
Definition typeof (v : json) : string :=
  match v with
  | JNull | JObject _ => "object"
  | JBool _ => "boolean"
  | JNum _ => "number"
  | JStr _ => "string"
  end.

(** [summarizeValue] of [inspect_scopes] (index.ts 872-876) *)
Definition summarizeValue (v : option RemoteObject) : ValueSummary :=
  match v with
  | None =>
      {| vs_type := "undefined"; vs_value := None; vs_description := None;
         vs_className := None; vs_objectId := None |}
  | Some o =>
      match value o with
      | Some x =>
          {| vs_type := typeof x; vs_value := Some x; vs_description := None;
             vs_className := None; vs_objectId := None |}
      | None =>
          {| vs_type := type o; vs_value := None;
             vs_description := description o; vs_className := className o;
             vs_objectId := objectId o |}
      end
  end.

(** What [listProps] of [inspect_scopes] makes of a fulfilled request
    (index.ts 879). *)
Definition listProps (maxProps : nat) (result : list PropertyDescriptor)
  : list (string * ValueSummary) :=
  (λ p, (name p, summarizeValue (prop_value p))) <$> slice0 maxProps result.

(** The scopes loop of [inspect_scopes] (index.ts 882-892). *)
Fixpoint inspectScopes (maxProps : nat)
    (getProps : string → reply (list PropertyDescriptor))
    (chain : list Scope) (s : state)
  : state * reply (list (ScopeEntry (string * ValueSummary))) :=
  match chain with
  | [] => (s, Fulfilled [])
  | sc :: rest =>
      match object sc ≫= objectId with
      | Some oid =>
          if JsString.truthy oid then
            let s := log (Sent (GetProperties oid)) s in
            match getProps oid with
            | Rejected m => (s, Rejected m)
            | Fulfilled result =>
                let props := listProps maxProps result in
                let entry :=
                  if decide (scope_type sc = "global")
                  then {| se_type := scope_type sc;
                          variables := slice0 5 props;
                          truncated := Some true |}
                  else {| se_type := scope_type sc;
                          variables := props;
                          truncated := None |} in
                match inspectScopes maxProps getProps rest s with
                | (s, Fulfilled scopes) => (s, Fulfilled (entry :: scopes))
                | (s, Rejected m) => (s, Rejected m)
                end
            end
          else inspectScopes maxProps getProps rest s
      | None => inspectScopes maxProps getProps rest s
      end
  end.

(** The handler has no [try]: what it throws leaves it as it is. *)
Definition inspect_scopes (maxProps : option nat) (pauseId : option string)
    (frameIndex : option nat) (includeThisPreview : option bool)
    (getProps : string → reply (list PropertyDescriptor)) (s : state)
  : state * response :=
  if noPauseState s then (s, Failure NO_PAUSE)
  else
    let maxProps := default 15 maxProps in
    match selectPause pauseId s with
    | None =>
        if inheritedMember pauseId
        then (s, Thrown (cannotRead (pretty (default 0 frameIndex))))
        else (s, Failure INVALID_PAUSE)
    | Some pause =>
        let idx := default 0 frameIndex in
        match callFrames pause !! idx with
        | None => (s, Thrown (cannotRead "url"))
        | Some frame =>
            let fileUrl := frameUrl s frame in
            match inspectScopes maxProps getProps (scopeChain frame) s with
            | (s, Rejected m) => (s, Thrown m)
            | (s, Fulfilled scopes) =>
                let includeThis := default true includeThisPreview in
                let summary :=
                  {| fs_functionName :=
                       if JsString.truthy (functionName frame)
                       then Some (functionName frame) else None;
                     fs_url := fileUrl;
                     fs_line := (lineNumber (location frame) + 1)%Z;
                     fs_column :=
                       (default 0%Z (columnNumber (location frame)) + 1)%Z |} in
                match this frame with
                | Some t =>
                    if includeThis && JsString.truthy (type t) then
                      match objectId t with
                      | Some oid =>
                          if JsString.truthy oid then
                            let s := log (Sent (GetProperties oid)) s in
                            match getProps oid with
                            | Rejected m => (s, Thrown m)
                            | Fulfilled result =>
                                (s, Content
                                      (ScopesPayload summary
                                         (Some {| this_summary := summarizeValue (Some t);
                                                  preview := Some (listProps maxProps result) |})
                                         scopes))
                            end
                          else
                            (s, Content
                                  (ScopesPayload summary
                                     (Some {| this_summary := summarizeValue (Some t);
                                              preview := None |})
                                     scopes))
                      | None =>
                          (s, Content
                                (ScopesPayload summary
                                   (Some {| this_summary := summarizeValue (Some t);
                                            preview := None |})
                                   scopes))
                      end
                    else (s, Content (ScopesPayload summary None scopes))
                | None => (s, Content (ScopesPayload summary None scopes))
                end
            end
        end
    end.

Definition list_call_stack (depth : option nat) (pauseId : option string)
    (includeThis : option bool) (s : state) : state * response :=
  if noPauseState s then (s, Failure NO_PAUSE)
  else
    match selectPause pauseId s with
    | None =>
        if inheritedMember pauseId
        then (s, Content (StackPayload [] pauseId))
        else (s, Failure INVALID_PAUSE)
    | Some pause =>
        let depth := default 10 depth in
        let frames :=
          (λ f, {| sf_frame := summarizeFrame s f;
                   thisType :=
                     if isTrue includeThis then type <$> this f else None |})
            <$> slice0 depth (callFrames pause) in
        let shownId :=
          if JsString.truthy_opt pauseId then pauseId else currentPauseId s in
        (s, Content (StackPayload frames shownId))
    end.

(** The one handler that goes on to [pause.callFrames] without looking
    whether the pause was found (index.ts 960-961); the [TypeError] is
    caught by its own [try]. *)
Definition get_pause_info (pauseId : option string) (s : state)
  : state * response :=
  match lastPausedParams s with
  | None => (s, Failure NO_PAUSE)
  | Some _ =>
      let failed := "Error: Failed to get pause info - " in
      match selectPause pauseId s with
      | None =>
          if inheritedMember pauseId
          then (s, Failure (failed +:+ cannotRead "0"))
          else (s, Failure (failed +:+ cannotRead "callFrames"))
      | Some pause =>
          match callFrames pause with
          | [] => (s, Failure (failed +:+ cannotRead "url"))
          | top :: _ =>
              let shownId :=
                if JsString.truthy_opt pauseId then pauseId
                else currentPauseId s in
              (s, Content
                    (PauseInfoPayload (reason pause) shownId
                       (summarizeFrame s top)
                       (scope_type <$> scopeChain top)))
          end
      end
  end.

(** ** stop_debug_session (index.ts 992-1028) *)

Definition stop_debug_session (s : state) : state * response :=
  let s := match nodeProcess s with
           | Some _ => set_nodeProcess None (log Killed s)
           | None => s
           end in
  let s := match nodeDebugClient s with
           | Some _ => set_nodeDebugClient None (log Closed s)
           | None => s
           end in
  let s := set_scriptIdToUrl [] s in
  let s := set_consoleMessages [] s in
  let s := set_lastPausedParams None s in
  let s := set_pauseMap ∅ s in
  let s := set_currentPauseId None s in
  let s := set_pauseCounter 0 s in
  (s, Plain "Debug session terminated.").

(** ** The server as a transition system *)

(** A tool call with its parameters and the answers of the outside world
    during the call. *)
Inductive call :=
| StartNodeDebug (scriptPath : string) (w : StartWorld)
| SetBreakpoint (filePath : string) (line : Z) (w : reply BreakpointResult)
| SetBreakpointCondition (filePath urlRegex : option string) (line : Z)
    (column : option Z) (condition : string) (w : reply BreakpointResult)
| AddLogpoint (filePath urlRegex : option string) (line : Z)
    (column : option Z) (message : string) (w : reply BreakpointResult)
| SetExceptionBreakpoints (st : string) (w : reply unit)
| BlackboxScripts (patterns : list string) (w : reply unit)
| ListScripts
| GetScriptSourceCall (scriptId url : option string) (w : reply string)
| ContinueToLocationCall (filePath : string) (line : Z) (column : option Z)
    (w : ControlWorld)
| RestartFrameCall (frameIndex : nat) (pauseId : option string)
    (commandReply : reply unit) (next : PausedEvent)
| GetObjectProperties (objectId : string) (maxProps : option nat)
    (w : reply (list PropertyDescriptor))
| ReadConsole
| Control (t : ControlTool) (options : ControlOptions) (w : ControlWorld)
| EvaluateExpression (expr : string) (pauseId : option string)
    (frameIndex : option nat) (returnByValue : option bool)
    (w : reply EvaluateResponse)
| InspectScopes (maxProps : option nat) (pauseId : option string)
    (frameIndex : option nat) (includeThisPreview : option bool)
    (getProps : string → reply (list PropertyDescriptor))
| ListCallStack (depth : option nat) (pauseId : option string)
    (includeThis : option bool)
| GetPauseInfo (pauseId : option string)
| StopDebugSession.

(** The tool dispatcher. *)
Definition handle (c : call) (s : state) : state * response :=
  match c with
  | StartNodeDebug scriptPath w => start_node_debug scriptPath w s
  | SetBreakpoint filePath line w => set_breakpoint filePath line w s
  | SetBreakpointCondition filePath urlRegex line column condition w =>
      set_breakpoint_condition filePath urlRegex line column condition w s
  | AddLogpoint filePath urlRegex line column message w =>
      add_logpoint filePath urlRegex line column message w s
  | SetExceptionBreakpoints st w => set_exception_breakpoints st w s
  | BlackboxScripts patterns w => blackbox_scripts patterns w s
  | ListScripts => list_scripts s
  | GetScriptSourceCall scriptId url w => get_script_source scriptId url w s
  | ContinueToLocationCall filePath line column w =>
      continue_to_location filePath line column w s
  | RestartFrameCall frameIndex pauseId commandReply next =>
      restart_frame frameIndex pauseId commandReply next s
  | GetObjectProperties objectId maxProps w =>
      get_object_properties objectId maxProps w s
  | ReadConsole => read_console s
  | Control t options w => control t options w s
  | EvaluateExpression expr pauseId frameIndex returnByValue w =>
      evaluate_expression expr pauseId frameIndex returnByValue w s
  | InspectScopes maxProps pauseId frameIndex includeThisPreview getProps =>
      inspect_scopes maxProps pauseId frameIndex includeThisPreview getProps s
  | ListCallStack depth pauseId includeThis =>
      list_call_stack depth pauseId includeThis s
  | GetPauseInfo pauseId => get_pause_info pauseId s
  | StopDebugSession => stop_debug_session s
  end.

(** What happens to the server: a tool call, handled to its end (calls are
    dispatched one at a time), or an event of the target between two calls. *)
Inductive input :=
| ToolCall (c : call)
| Event (e : TargetEvent).

Definition step (s : state) (i : input) : state :=
  match i with
  | ToolCall c => (handle c s).1
  | Event e => deliver e s
  end.

Definition run (s : state) (tr : list input) : state := foldl step s tr.

Definition isStop (i : input) : bool :=
  match i with
  | ToolCall StopDebugSession => true
  | _ => false
  end.


(** The pause ids among a list of effects, in the order they were minted. *)
Definition mintedIds (t : list effect) : list string :=
  omap (λ e, match e with Minted id => Some id | _ => None end) t.


(** The frame summaries a response holds. *)
Definition responseFrames (r : response) : list FrameSummary :=
  match r with
  | Content (StartPayload _ _ f) => [f]
  | Content (PausePayload _ _ f _ stack _) => f :: default [] stack
  | Content (ScopesPayload f _ _) => [f]
  | Content (StackPayload frames _) => sf_frame <$> frames
  | Content (PauseInfoPayload _ _ f _) => [f]
  | _ => []
  end.

(** The paused event the outside world delivers during a call, if any. *)
Definition callEvent (c : call) : option PausedEvent :=
  match c with
  | StartNodeDebug _ (Attached _ ev) => Some ev
  | Control _ _ w | ContinueToLocationCall _ _ _ w =>
      match race w with
      | PauseWins ev => Some ev
      | ExitWins _ => None
      end
  | RestartFrameCall _ _ _ next => Some next
  | _ => None
  end.

(** The paused events a response to [c] in the state [s] can speak of: the
    last one, those of the pause catalog, and the one of the call. *)
Definition knownEvent (c : call) (s : state) (ev : PausedEvent) : Prop :=
  lastPausedParams s = Some ev ∨
  (∃ id, pauseMap s !! id = Some ev) ∨
  callEvent c = Some ev.

(** [f] shows the place of the call frame [frame] with the line and the
    column of the target raised by one. *)
Definition oneBasedOf (frame : CallFrame) (f : FrameSummary) : Prop :=
  fs_line f = (lineNumber (location frame) + 1)%Z ∧
  fs_column f = (default 0%Z (columnNumber (location frame)) + 1)%Z.

(** [s'] comes after [s]: the history of [s] was extended, the counter did
    not go down, and the pause ids minted on the way are those of the
    counter values passed, in their order. *)
Definition follows (s s' : state) : Prop :=
  ∃ τ, trace s' = trace s ++ τ ∧
       pauseCounter s ≤ pauseCounter s' ∧
       mintedIds τ =
         pause_id <$> seq (S (pauseCounter s)) (pauseCounter s' - pauseCounter s).

(** The number of minting listeners among the listeners of a client. *)
Fixpoint mints (ls : list listener) : nat :=
  match ls with
  | [] => 0
  | MintPause :: r => S (mints r)
  | RecordPause :: r => mints r
  end.

(** The call is an execution-control call that gets to the line on which
    its handler registers the [Debugger.paused] listener: a session is
    there and the guards before that line let the call through. *)
Definition registers (c : call) (s : state) : bool :=
  match c with
  | Control _ _ _ => bool_decide (is_Some (nodeDebugClient s))
  | ContinueToLocationCall filePath _ _ _ =>
      bool_decide (is_Some (nodeDebugClient s))
      && JsString.truthy_opt (findScriptId (scriptIdToUrl s) (toFileUrl filePath))
  | RestartFrameCall frameIndex pauseId _ _ =>
      negb (noPauseState s)
      && match selectPause pauseId s with
         | Some pause => bool_decide (is_Some (callFrames pause !! frameIndex))
         | None => false
         end
  | _ => false
  end.

(** The number of inputs of [tr], run from [s], that are such calls. *)
Fixpoint registrations (s : state) (tr : list input) : nat :=
  match tr with
  | [] => 0
  | i :: r =>
      match i with
      | ToolCall c => if registers c s then 1 else 0
      | Event _ => 0
      end + registrations (step s i) r
  end.

(** The session lasts through [tr]: a client is there after every input
    (no [stop_debug_session], no exit of the target that tears it down). *)
Fixpoint sessionLasts (s : state) (tr : list input) : bool :=
  match tr with
  | [] => true
  | i :: r =>
      bool_decide (is_Some (nodeDebugClient (step s i)))
      && sessionLasts (step s i) r
  end.

(** Values for examples. *)
Module Sample.

Definition frameAt (line : Z) : CallFrame :=
  {| callFrameId := "frame-0"; functionName := "add";
     url := "file:///app/sample.js";
     location := {| scriptId := "42"; lineNumber := line;
                    columnNumber := Some 2%Z |};
     scopeChain := []; this := None |}.

Definition pauseAt (line : Z) : PausedEvent :=
  {| callFrames := [frameAt line]; reason := "other" |}.

Definition noOptions : ControlOptions :=
  {| includeScopes := None; includeStack := None; includeConsole := None |}.

Definition world (r : RaceResult) : ControlWorld :=
  {| commandReply := Fulfilled ();
     race := r;
     getProperties := λ _, Fulfilled [] |}.

Definition start : input :=
  ToolCall (StartNodeDebug "/app/sample.js" (Attached [] (pauseAt 0))).

Definition resumeTo (line : Z) : input :=
  ToolCall (Control ResumeExecution noOptions (world (PauseWins (pauseAt line)))).

Definition stepOverTo (line : Z) : input :=
  ToolCall (Control StepOverTool noOptions (world (PauseWins (pauseAt line)))).

(** The state right after a successful [start_node_debug]. *)
Definition started : state := step initial start.

Definition prop (n : string) : PropertyDescriptor :=
  {| name := n;
     prop_value := Some {| type := "number"; value := Some (JNum 1);
                           description := Some "1"; className := None;
                           objectId := None |} |}.

Definition props (k : nat) : list PropertyDescriptor := replicate k (prop "x").

Definition scopeOf (ty oid : string) : Scope :=
  {| scope_type := ty;
     object := Some {| type := "object"; value := None;
                       description := Some "Object";
                       className := Some "Object";
                       objectId := Some oid |} |}.

Definition pauseWith (chain : list Scope) : PausedEvent :=
  {| callFrames :=
       [{| callFrameId := "frame-0"; functionName := "inc";
           url := "file:///app/advanced.js";
           location := {| scriptId := "43"; lineNumber := 7%Z;
                          columnNumber := Some 4%Z |};
           scopeChain := chain; this := None |}];
     reason := "other" |}.

Definition scopesOptions : ControlOptions :=
  {| includeScopes := Some true; includeStack := None;
     includeConsole := None |}.

(** A world in which every object has [k] own properties. *)
Definition worldProps (r : RaceResult) (k : nat) : ControlWorld :=
  {| commandReply := Fulfilled ();
     race := r;
     getProperties := λ _, Fulfilled (props k) |}.

(** The state after a start that pauses in a frame with the scopes
    [chain]. *)
Definition pausedIn (chain : list Scope) : state :=
  step initial
    (ToolCall (StartNodeDebug "/app/advanced.js" (Attached [] (pauseWith chain)))).

Definition breakpoint : BreakpointResult :=
  {| breakpointId := "1:2:0:file:///app/sample.js";
     locations := [{| scriptId := "42"; lineNumber := 2%Z;
                      columnNumber := Some 4%Z |}] |}.

End Sample.

(** The [scopes] of a response of an execution-control tool. *)
Definition controlScopesOf (r : response) : list (ScopeEntry ScopeVariable) :=
  match r with
  | Content (PausePayload _ _ _ _ _ (Some scopes)) => scopes
  | _ => []
  end.

(** The [scopes] of a response of [inspect_scopes]. *)
Definition inspectScopesOf (r : response)
  : list (ScopeEntry (string * ValueSummary)) :=
  match r with
  | Content (ScopesPayload _ _ scopes) => scopes
  | _ => []
  end.

(** The bound the specification states for a listed scope: at most 15
    properties, and for the global scope at most 5 with the flag
    [truncated: true]. *)
Definition withinStatedBounds {V} (e : ScopeEntry V) : Prop :=
  length (variables e) ≤ 15 ∧
  (se_type e = "global" →
   length (variables e) ≤ 5 ∧ truncated e = Some true).

(** The cause a failing attach sequence reports, [None] when the sequence
    succeeds. *)
Definition startCause (w : StartWorld) : option string :=
  match w with
  | LauncherExited => Some LAUNCHER_EXITED
  | ConnectRejected m | DebuggerEnableRejected m | RuntimeEnableRejected m =>
      Some m
  | Attached _ pausedEvent =>
      match callFrames pausedEvent with
      | [] => Some (cannotRead "location")
      | _ :: _ => None
      end
  end.

(** Whether the attach sequence got as far as opening the client. *)
Definition startConnected (w : StartWorld) : bool :=
  match w with
  | LauncherExited | ConnectRejected _ => false
  | _ => true
  end.

(** ** Notions for the properties of the whole server *)

(** The states the server can be in: those a sequence of tool calls and
    target events leads to from the initial values of the variables. *)
Definition reachable (s : state) : Prop := ∃ tr, s = run initial tr.

(** The effects added to the history on the way from [s] to [s']. *)
Definition effectsSince (s s' : state) : list effect :=
  drop (length (trace s)) (trace s').

(** The pause catalog holds entries under ids ['p' + k] of counter values
    already passed only, and the current pause id, when there is one, is
    the id of an entry. *)
Definition pausesWellFormed (s : state) : Prop :=
  (∀ id ev, pauseMap s !! id = Some ev →
            ∃ k, id = pause_id k ∧ 1 ≤ k ≤ pauseCounter s) ∧
  (∀ id, currentPauseId s = Some id → is_Some (pauseMap s !! id)).

(** From [s] to [s'] pauses were added and nothing else happened to the
    catalog: the counter did not go down, the entries under ids of counter
    values passed in [s] are kept, every other entry is new, under the id
    of a counter value passed since, and the current pause id is the one of
    [s] or the id of a new entry. *)
Definition pausesGrow (s s' : state) : Prop :=
  pauseCounter s ≤ pauseCounter s' ∧
  (∀ id ev, pauseMap s !! id = Some ev →
            (∀ k, pauseCounter s < k → id ≠ pause_id k) →
            pauseMap s' !! id = Some ev) ∧
  (∀ id ev, pauseMap s' !! id = Some ev →
            pauseMap s !! id = Some ev ∨
            ∃ k, pauseCounter s < k ≤ pauseCounter s' ∧ id = pause_id k) ∧
  (currentPauseId s' = currentPauseId s ∨
   ∃ k, pauseCounter s < k ≤ pauseCounter s' ∧
        currentPauseId s' = Some (pause_id k) ∧
        is_Some (pauseMap s' !! pause_id k)).

(** The script catalog lists every script id once, with a URL that is not
    empty. *)
Definition catalogWellFormed (m : list (string * string)) : Prop :=
  NoDup m.*1 ∧ Forall (λ kv, JsString.truthy kv.2 = true) m.

(** The effects of [τ] are all among those [allowed] lets through. *)
Definition onlyEffects (allowed : effect → bool) (s s' : state) : Prop :=
  ∃ τ, trace s' = trace s ++ τ ∧ forallb allowed τ = true.

Definition notKilled (e : effect) : bool :=
  match e with Killed => false | _ => true end.

Definition notSpawned (e : effect) : bool :=
  match e with Spawned _ => false | _ => true end.

Definition isStart (i : input) : bool :=
  match i with
  | ToolCall (StartNodeDebug _ _) => true
  | _ => false
  end.

(** * Properties *)

(** ** Pause ids *)

Lemma pause_id_inj n m : pause_id n = pause_id m → n = m.
Proof.
  unfold pause_id. intros H.
  apply (inj (String.app "p")) in H. by apply (inj pretty) in H.
Qed.

Lemma mintedIds_app t1 t2 : mintedIds (t1 ++ t2) = mintedIds t1 ++ mintedIds t2.
Proof. unfold mintedIds. apply omap_app. Qed.

Lemma follows_refl s : follows s s.
Proof.
  exists []. rewrite app_nil_r, Nat.sub_diag. done.
Qed.

Lemma follows_trans s1 s2 s3 : follows s1 s2 → follows s2 s3 → follows s1 s3.
Proof.
  intros (t1 & E1 & L1 & M1) (t2 & E2 & L2 & M2).
  exists (t1 ++ t2). split; [by rewrite E2, E1, app_assoc|].
  split; [lia|].
  rewrite mintedIds_app, M1, M2, <- fmap_app. f_equal.
  replace (pauseCounter s3 - pauseCounter s1)
    with ((pauseCounter s2 - pauseCounter s1) + (pauseCounter s3 - pauseCounter s2))
    by lia.
  rewrite seq_app. do 2 f_equal. lia.
Qed.

Lemma follows_same s s' :
  trace s' = trace s → pauseCounter s' = pauseCounter s → follows s s'.
Proof.
  intros Ht Hc. exists []. rewrite Ht, Hc, app_nil_r, Nat.sub_diag. done.
Qed.

Lemma follows_log e s : (∀ id, e ≠ Minted id) → follows s (log e s).
Proof.
  intros He. exists [e]. simpl. rewrite Nat.sub_diag.
  repeat split; [lia|]. destruct e; try done. by destruct (He pauseId).
Qed.

Lemma follows_mintPause ev s : follows s (mintPause ev s).
Proof.
  exists [Minted (pause_id (S (pauseCounter s)))]. simpl.
  repeat split; [lia|].
  replace (S (pauseCounter s) - pauseCounter s) with 1 by lia. done.
Qed.

Lemma follows_runListener ev s l : follows s (runListener ev s l).
Proof.
  destruct l; simpl.
  - by apply follows_same.
  - eapply follows_trans; [|apply follows_mintPause]. by apply follows_same.
Qed.

Lemma follows_foldl_runListener ev ls s : follows s (foldl (runListener ev) s ls).
Proof.
  revert s. induction ls as [|l ls IH]; intros s; simpl.
  - apply follows_refl.
  - eapply follows_trans; [apply follows_runListener|apply IH].
Qed.

Lemma follows_onPaused ev s : follows s (onPaused ev s).
Proof.
  unfold onPaused. destruct (nodeDebugClient s).
  - apply follows_foldl_runListener.
  - apply follows_refl.
Qed.

Lemma follows_onIntake e s : follows s (onIntake e s).
Proof.
  destruct e; simpl.
  - unfold onScriptParsed. case_match; [by apply follows_same|apply follows_refl].
  - by apply follows_same.
Qed.

Lemma follows_foldl_onIntake es s :
  follows s (foldl (λ s e, onIntake e s) s es).
Proof.
  revert s. induction es as [|e es IH]; intros s; simpl.
  - apply follows_refl.
  - eapply follows_trans; [apply follows_onIntake|apply IH].
Qed.


Lemma follows_addPausedListener l s : follows s (addPausedListener l s).
Proof.
  unfold addPausedListener. case_match; [by apply follows_same|apply follows_refl].
Qed.

Lemma follows_installIntake s : follows s (installIntake s).
Proof.
  unfold installIntake. case_match; [by apply follows_same|apply follows_refl].
Qed.

Lemma follows_controlScopes g chain s : follows s (controlScopes g chain s).1.
Proof.
  revert s. induction chain as [|sc rest IH]; intros s; simpl.
  - apply follows_refl.
  - destruct (object sc ≫= objectId) as [oid|]; [|apply IH].
    destruct (JsString.truthy oid); [|apply IH].
    destruct (g oid) as [props|m]; simpl.
    + specialize (IH (log (Sent (GetProperties oid)) s)).
      destruct (controlScopes g rest _) as [s' [scopes|m]]; simpl in *;
        (eapply follows_trans; [|apply IH]); by apply follows_log.
    + by apply follows_log.
Qed.

Lemma follows_inspectScopes n g chain s : follows s (inspectScopes n g chain s).1.
Proof.
  revert s. induction chain as [|sc rest IH]; intros s; simpl.
  - apply follows_refl.
  - destruct (object sc ≫= objectId) as [oid|]; [|apply IH].
    destruct (JsString.truthy oid); [|apply IH].
    destruct (g oid) as [props|m]; simpl.
    + specialize (IH (log (Sent (GetProperties oid)) s)).
      destruct (inspectScopes n g rest _) as [s' [scopes|m]]; simpl in *;
        (eapply follows_trans; [|apply IH]); by apply follows_log.
    + by apply follows_log.
Qed.

(** Peels the outermost operation off the state on the right. *)
Ltac follow_step :=
  lazymatch goal with
  | |- follows ?s ?s => apply follows_refl
  | |- follows ?s (log ?e ?x) =>
      apply (follows_trans s x); [|apply follows_log; intros ?; discriminate]
  | |- follows ?s (mintPause ?ev ?x) =>
      apply (follows_trans s x); [|apply follows_mintPause]
  | |- follows ?s (onPaused ?ev ?x) =>
      apply (follows_trans s x); [|apply follows_onPaused]
  | |- follows ?s (addPausedListener ?l ?x) =>
      apply (follows_trans s x); [|apply follows_addPausedListener]
  | |- follows ?s (installIntake ?x) =>
      apply (follows_trans s x); [|apply follows_installIntake]
  | |- follows ?s (foldl (λ a e, onIntake e a) ?x ?es) =>
      apply (follows_trans s x); [|apply follows_foldl_onIntake]
  | |- follows ?s (connect ?x) =>
      apply (follows_trans s x); [|by apply follows_same]
  | |- follows ?s (set_nodeDebugClient _ ?x) =>
      apply (follows_trans s x); [|by apply follows_same]
  | |- follows ?s (set_nodeProcess _ ?x) =>
      apply (follows_trans s x); [|by apply follows_same]
  | |- follows ?s (set_scriptIdToUrl _ ?x) =>
      apply (follows_trans s x); [|by apply follows_same]
  | |- follows ?s (set_consoleMessages _ ?x) =>
      apply (follows_trans s x); [|by apply follows_same]
  | |- follows ?s (set_lastPausedParams _ ?x) =>
      apply (follows_trans s x); [|by apply follows_same]
  | |- follows ?s (set_pauseMap _ ?x) =>
      apply (follows_trans s x); [|by apply follows_same]
  | |- follows ?s (set_currentPauseId _ ?x) =>
      apply (follows_trans s x); [|by apply follows_same]
  | |- follows ?s ?y =>
      lazymatch goal with
      | H : controlScopes ?g ?c ?x = (y, _) |- _ =>
          apply (follows_trans s x);
          [|let F := fresh in
            pose proof (follows_controlScopes g c x) as F;
            rewrite H in F; exact F]
      | H : inspectScopes ?n ?g ?c ?x = (y, _) |- _ =>
          apply (follows_trans s x);
          [|let F := fresh in
            pose proof (follows_inspectScopes n g c x) as F;
            rewrite H in F; exact F]
      end
  end.










(** ** Listeners of the client *)

Lemma client_foldl_runListener ev ls s :
  nodeDebugClient (foldl (runListener ev) s ls) = nodeDebugClient s.
Proof.
  revert s. induction ls as [|l ls IH]; intros s; simpl; [done|].
  rewrite IH. by destruct l.
Qed.

Lemma client_onPaused ev s : nodeDebugClient (onPaused ev s) = nodeDebugClient s.
Proof.
  unfold onPaused. destruct (nodeDebugClient s) eqn:E; [|done].
  by rewrite client_foldl_runListener.
Qed.

Lemma client_onIntake e s : nodeDebugClient (onIntake e s) = nodeDebugClient s.
Proof. destruct e; simpl; [unfold onScriptParsed; by case_match|done]. Qed.

Lemma client_deliver e s : nodeDebugClient (deliver e s) = nodeDebugClient s.
Proof.
  unfold deliver. destruct (nodeDebugClient s) eqn:E; [|done].
  destruct e; [case_match; [by rewrite client_onIntake|done]|].
  by rewrite client_onPaused.
Qed.

Lemma client_controlScopes g chain s :
  nodeDebugClient (controlScopes g chain s).1 = nodeDebugClient s.
Proof.
  revert s. induction chain as [|sc rest IH]; intros s; simpl; [done|].
  destruct (object sc ≫= objectId) as [oid|]; [|apply IH].
  destruct (JsString.truthy oid); [|apply IH].
  destruct (g oid) as [props|m]; simpl; [|done].
  specialize (IH (log (Sent (GetProperties oid)) s)).
  by destruct (controlScopes g rest _) as [s' [scopes|m]].
Qed.

Lemma client_inspectScopes n g chain s :
  nodeDebugClient (inspectScopes n g chain s).1 = nodeDebugClient s.
Proof.
  revert s. induction chain as [|sc rest IH]; intros s; simpl; [done|].
  destruct (object sc ≫= objectId) as [oid|]; [|apply IH].
  destruct (JsString.truthy oid); [|apply IH].
  destruct (g oid) as [props|m]; simpl; [|done].
  specialize (IH (log (Sent (GetProperties oid)) s)).
  by destruct (inspectScopes n g rest _) as [s' [scopes|m]].
Qed.

Lemma client_addPausedListener l s c :
  nodeDebugClient s = Some c →
  nodeDebugClient (addPausedListener l s) =
    Some {| pausedListeners := pausedListeners c ++ [l];
            intakeListeners := intakeListeners c |}.
Proof. intros H. unfold addPausedListener. by rewrite H. Qed.

Lemma client_setByLocator fp re line col cond kind failed w s :
  nodeDebugClient (setByLocator fp re line col cond kind failed w s).1
  = nodeDebugClient s.
Proof. unfold setByLocator. by repeat case_match. Qed.

(** Brings the client of a state built by the handlers back to the client
    of the state the call started from. *)
Ltac client_step :=
  match goal with
  | H : controlScopes ?g ?c ?x = (?y, _) |- context [nodeDebugClient ?y] =>
      let F := fresh in
      pose proof (client_controlScopes g c x) as F;
      rewrite H in F; cbn [fst] in F; rewrite F; clear F
  | H : inspectScopes ?n ?g ?c ?x = (?y, _) |- context [nodeDebugClient ?y] =>
      let F := fresh in
      pose proof (client_inspectScopes n g c x) as F;
      rewrite H in F; cbn [fst] in F; rewrite F; clear F
  | |- _ => rewrite client_onPaused
  | |- _ => erewrite client_addPausedListener by eassumption
  | |- _ => progress simpl
  end.

Lemma client_control t o w s c0 :
  nodeDebugClient s = Some c0 →
  nodeDebugClient (control t o w s).1 = None ∨
  nodeDebugClient (control t o w s).1 =
    Some {| pausedListeners := pausedListeners c0 ++ [MintPause];
            intakeListeners := intakeListeners c0 |}.
Proof.
  intros H. unfold control, pauseBranch, exitBranch. rewrite H. cbv zeta.
  repeat case_match; cbn [fst]; repeat client_step; auto.
Qed.

Lemma client_handle c s c0 :
  nodeDebugClient s = Some c0 →
  nodeDebugClient (handle c s).1 = None ∨
  nodeDebugClient (handle c s).1 =
    Some {| pausedListeners :=
              pausedListeners c0 ++ (if registers c s then [MintPause] else []);
            intakeListeners := intakeListeners c0 |}.
Proof.
  intros H.
  assert (Hsame : Some c0 = Some {| pausedListeners := pausedListeners c0 ++ [];
                                   intakeListeners := intakeListeners c0 |}).
  { rewrite app_nil_r. by destruct c0. }
  destruct c; simpl.
  - unfold start_node_debug. rewrite H. simpl. right. by rewrite H.
  - unfold set_breakpoint. rewrite H. right. by case_match; simpl; rewrite H.
  - unfold set_breakpoint_condition. rewrite H, client_setByLocator. right.
    by rewrite H.
  - unfold add_logpoint. rewrite H, client_setByLocator. right. by rewrite H.
  - unfold set_exception_breakpoints. rewrite H. right.
    by case_match; simpl; rewrite H.
  - unfold blackbox_scripts. rewrite H. right. by case_match; simpl; rewrite H.
  - right. by rewrite H.
  - unfold get_script_source. rewrite H. right.
    by repeat case_match; simpl; rewrite H.
  - unfold continue_to_location. rewrite H.
    rewrite bool_decide_true by eauto. simpl.
    destruct (findScriptId _ _) as [sid|]; simpl; [|right; by rewrite H].
    destruct (JsString.truthy sid); simpl; [|right; by rewrite H].
    right. repeat case_match; repeat client_step; done.
  - unfold restart_frame. destruct (noPauseState s); simpl; [right; by rewrite H|].
    destruct (selectPause pauseId s) as [pause|]; simpl;
      [|right; by case_match; simpl; rewrite H].
    destruct (callFrames pause !! frameIndex) as [frame|] eqn:Ef; simpl.
    + right. repeat case_match; repeat client_step; done.
    + right. by rewrite H.
  - unfold get_object_properties. rewrite H. right.
    by case_match; simpl; rewrite H.
  - right. simpl. by rewrite H.
  - rewrite bool_decide_true by eauto. by apply client_control.
  - unfold evaluate_expression. right.
    repeat case_match; simpl; by rewrite H.
  - unfold inspect_scopes. right. cbv zeta.
    repeat case_match; cbn [fst]; repeat client_step; by rewrite H.
  - unfold list_call_stack. right. repeat case_match; simpl; by rewrite H.
  - unfold get_pause_info. right. repeat case_match; simpl; by rewrite H.
  - left. unfold stop_debug_session. by repeat case_match.
Qed.

Lemma client_step_input i s c0 :
  nodeDebugClient s = Some c0 →
  is_Some (nodeDebugClient (step s i)) →
  nodeDebugClient (step s i) =
    Some {| pausedListeners :=
              pausedListeners c0
              ++ replicate (registrations s [i]) MintPause;
            intakeListeners := intakeListeners c0 |}.
Proof.
  intros H [c1 Hc1]. destruct i as [c|e]; simpl in *.
  - destruct (client_handle c s c0 H) as [E|E]; [congruence|].
    rewrite E. by destruct (registers c s).
  - rewrite client_deliver, H, app_nil_r. by destruct c0.
Qed.

Lemma registrations_cons s i tr :
  registrations s (i :: tr) = registrations s [i] + registrations (step s i) tr.
Proof. simpl. lia. Qed.

Lemma listeners_run tr s c0 :
  nodeDebugClient s = Some c0 →
  sessionLasts s tr = true →
  nodeDebugClient (run s tr) =
    Some {| pausedListeners :=
              pausedListeners c0 ++ replicate (registrations s tr) MintPause;
            intakeListeners := intakeListeners c0 |}.
Proof.
  revert s c0. induction tr as [|i tr IH]; intros s c0 H Hlast.
  - simpl. rewrite app_nil_r, H. by destruct c0.
  - cbn [sessionLasts] in Hlast. apply andb_prop in Hlast as [Hi Htr].
    apply bool_decide_eq_true in Hi.
    pose proof (client_step_input i s c0 H Hi) as E.
    change (run s (i :: tr)) with (run (step s i) tr).
    rewrite (IH _ _ E Htr). cbn [pausedListeners intakeListeners].
    rewrite (registrations_cons s i tr).
    by rewrite <- app_assoc, <- replicate_add.
Qed.

Lemma mints_replicate n : mints (replicate n MintPause) = n.
Proof. induction n; simpl; [done|by f_equal]. Qed.

(** What a [Debugger.paused] event does when the listeners [ls] run on it
    one after the other. *)
Lemma foldl_runListener_spec ev ls s :
  let s' := foldl (runListener ev) s ls in
  pauseCounter s' = pauseCounter s + mints ls ∧
  (∀ j, 1 ≤ j ≤ mints ls →
        pauseMap s' !! pause_id (pauseCounter s + j) = Some ev) ∧
  (∀ key, (∀ j, 1 ≤ j ≤ mints ls → key ≠ pause_id (pauseCounter s + j)) →
          pauseMap s' !! key = pauseMap s !! key) ∧
  (0 < mints ls →
   currentPauseId s' = Some (pause_id (pauseCounter s + mints ls))) ∧
  (ls ≠ [] → lastPausedParams s' = Some ev).
Proof.
  revert s. induction ls as [|l ls IH]; intros s; cbn zeta.
  - simpl. repeat split; try done; try lia; try (intros; lia).
  - cbn [foldl].
    destruct (IH (runListener ev s l)) as (Hc & Hin & Hout & Hcur & Hlast).
    assert (Hl : ls = [] → lastPausedParams (runListener ev s l) = Some ev)
      by (intros _; by destruct l).
    destruct l; cbn [mints].
    + simpl in Hc, Hin, Hout, Hcur.
      repeat split; try done.
      intros _. destruct ls; [by apply Hl|by apply Hlast].
    + assert (Ec : pauseCounter (runListener ev s MintPause) = S (pauseCounter s))
        by done.
      assert (Em : pauseMap (runListener ev s MintPause)
                   = <[pause_id (S (pauseCounter s)) := ev]> (pauseMap s))
        by done.
      assert (Ei : currentPauseId (runListener ev s MintPause)
                   = Some (pause_id (S (pauseCounter s))))
        by done.
      rewrite Ec in Hc, Hin, Hout, Hcur. rewrite Em in Hout.
      split; [lia|]. split; [|split; [|split]].
      * intros j Hj. destruct (decide (j = 1)) as [->|Hne].
        -- rewrite Hout.
           ++ replace (pauseCounter s + 1) with (S (pauseCounter s)) by lia.
              apply lookup_insert_eq.
           ++ intros k Hk Heq. apply pause_id_inj in Heq. lia.
        -- replace (pauseCounter s + j) with (S (pauseCounter s) + (j - 1)) by lia.
           apply Hin. lia.
      * intros key Hkey. rewrite Hout.
        -- apply lookup_insert_ne. intros <-. apply (Hkey 1); [lia|].
           f_equal. lia.
        -- intros k Hk Heq. apply (Hkey (S k)); [lia|].
           rewrite Heq. f_equal. lia.
      * intros _. destruct (mints ls) as [|k] eqn:Ek.
        -- assert (Hstay : ∀ ls0 s0, mints ls0 = 0 →
                     currentPauseId (foldl (runListener ev) s0 ls0)
                     = currentPauseId s0).
           { induction ls0 as [|[] ls0 IH0]; intros s0 H0; simpl; try done.
             rewrite IH0; done. }
           rewrite Hstay by done. rewrite Ei. do 2 f_equal. lia.
        -- rewrite Hcur by lia. do 2 f_equal. lia.
      * intros _. destruct ls; [by apply Hl|by apply Hlast].
Qed.

(** C10. In a session (a client is there, with the one recording listener
    [start_node_debug] gave it) that lasts through the inputs [tr], every
    execution-control call that gets to its registration line adds one
    minting listener and nothing removes one: after the [n] such calls of
    [tr] the client holds [n] of them behind the recording one. A paused
    event delivered then raises the pause counter by [n], stores the event
    under the [n] ids that follow the counter, which differ from each
    other, and leaves the last of these ids as the current pause id. *)
Theorem paused_listeners_accumulate (s : state) (c0 : Client)
    (tr : list input) (ev : PausedEvent) :
  nodeDebugClient s = Some c0 →
  pausedListeners c0 = [RecordPause] →
  sessionLasts s tr = true →
  let n := registrations s tr in
  let s1 := run s tr in
  let s2 := deliver (Paused ev) s1 in
  (∃ c1, nodeDebugClient s1 = Some c1 ∧
         pausedListeners c1 = RecordPause :: replicate n MintPause) ∧
  pauseCounter s2 = pauseCounter s1 + n ∧
  (∀ j, 1 ≤ j ≤ n → pauseMap s2 !! pause_id (pauseCounter s1 + j) = Some ev) ∧
  (∀ j k, j < k → pause_id (pauseCounter s1 + j) ≠ pause_id (pauseCounter s1 + k)) ∧
  (0 < n → currentPauseId s2 = Some (pause_id (pauseCounter s1 + n))).
Proof.
  intros H Hfresh Hlast n s1 s2.
  pose proof (listeners_run tr s c0 H Hlast) as E. fold n s1 in E.
  rewrite Hfresh in E. cbn [app] in E.
  assert (E2 : s2 = foldl (runListener ev) s1 (RecordPause :: replicate n MintPause)).
  { unfold s2, deliver, onPaused. by rewrite E. }
  destruct (foldl_runListener_spec ev (RecordPause :: replicate n MintPause) s1)
    as (Hc & Hin & _ & Hcur & _).
  rewrite <- E2 in Hc, Hin, Hcur. cbn [mints] in Hc, Hin, Hcur.
  rewrite mints_replicate in Hc, Hin, Hcur.
  split; [eexists; split; [exact E|done]|].
  repeat split; try done.
  intros j k Hjk Heq. apply pause_id_inj in Heq. lia.
Qed.

Lemma paused_listeners_accumulate_witness :
  let s1 := run Sample.started [Sample.resumeTo 2; Sample.stepOverTo 3] in
  let s2 := deliver (Paused (Sample.pauseAt 5)) s1 in
  pauseCounter s1 = 4 ∧ pauseCounter s2 = 6 ∧ currentPauseId s2 = Some "p6".
Proof.
  destruct (paused_listeners_accumulate Sample.started
              {| pausedListeners := [RecordPause]; intakeListeners := true |}
              [Sample.resumeTo 2; Sample.stepOverTo 3] (Sample.pauseAt 5)
              eq_refl eq_refl eq_refl) as (_ & Hc & _ & _ & Hcur).
  split; [reflexivity|]. split; [exact Hc|]. apply Hcur. vm_compute. lia.
Defined.

(** ** The condition of a logpoint *)

Section LogpointFacts.
Import Logpoint.

Lemma string_app_cons (x : ascii) (a b : string) :
  String x a +:+ b = String x (a +:+ b).
Proof. reflexivity. Qed.

Lemma string_app_nil (a : string) : "" +:+ a = a.
Proof. reflexivity. Qed.

Ltac push_app := rewrite ?string_app_cons, ?string_app_nil.

Lemma string_app_assoc (a b c : string) : (a +:+ b) +:+ c = a +:+ (b +:+ c).
Proof. induction a as [|x a IH]; push_app; [done|by rewrite IH]. Qed.

Lemma string_length_app (a b : string) :
  String.length (a +:+ b) = String.length a + String.length b.
Proof. induction a as [|x a IH]; push_app; simpl; [done|by rewrite IH]. Qed.

Lemma escapeBackticks_app (a b : string) :
  escapeBackticks (a +:+ b) = escapeBackticks a +:+ escapeBackticks b.
Proof.
  induction a as [|x a IH]; push_app; simpl; [done|].
  destruct (Ascii.eqb x backtick); push_app; by rewrite IH.
Qed.

Lemma escapeBackticks_Escaped (e : string) : Escaped e (escapeBackticks e).
Proof.
  induction e as [|x e IH]; simpl; [constructor|].
  destruct (Ascii.eqb_spec x backtick) as [->|Hne]; by constructor.
Qed.

Lemma escapeBackticks_occurs_rbrace (e : string) :
  JsString.occurs rbrace (escapeBackticks e) → JsString.occurs rbrace e.
Proof.
  induction e as [|x e IH]; simpl; [done|].
  destruct (Ascii.eqb_spec x backtick) as [->|Hne]; simpl.
  - intros [H|[H|H]]; [discriminate|discriminate|right; by apply IH].
  - intros [H|H]; [by left|right; by apply IH].
Qed.

(** The group ends at the first closing brace. *)
Lemma groupLength_segment (e rest : string) :
  ¬ JsString.occurs rbrace e →
  groupLength (e +:+ String rbrace rest) = Some (String.length e).
Proof.
  induction e as [|x e IH]; push_app; simpl; [done|]. intros Hno.
  destruct (Ascii.eqb_spec x rbrace) as [->|Hne]; [destruct Hno; by left|].
  rewrite IH; [done|]. intros H. apply Hno. by right.
Qed.

Lemma groupLength_Some (r : string) (n : nat) :
  groupLength r = Some n →
  ∃ e rest, r = e +:+ String rbrace rest ∧ String.length e = n ∧
            ¬ JsString.occurs rbrace e.
Proof.
  revert n. induction r as [|x r IH]; intros n; simpl; [done|].
  destruct (Ascii.eqb_spec x rbrace) as [->|Hne].
  - intros [= <-]. exists "", r.
    split; [reflexivity|]. split; [reflexivity|]. intros [].
  - destruct (groupLength r) as [k|]; [|done]. intros [= <-].
    destruct (IH k eq_refl) as (e & rest & -> & <- & Hno).
    exists (String x e), rest.
    split; [reflexivity|]. split; [reflexivity|].
    intros [H|H]; [congruence|done].
Qed.

Lemma segment_canonical (e rest : string) :
  "{" +:+ e +:+ "}" +:+ rest = String lbrace (e +:+ String rbrace rest).
Proof. reflexivity. Qed.

(** A segment starts at a character when it is an opening brace and the
    group after it is not empty. *)
Lemma startsWithSegment_inv (c : ascii) (s : string) :
  startsWithSegment (String c s) →
  c = lbrace ∧ ∃ k, groupLength s = Some (S k).
Proof.
  intros (e & rest & [Hne Hno] & E). rewrite segment_canonical in E.
  injection E as -> ->.
  split; [done|]. rewrite groupLength_segment by done.
  destruct e; [done|]. simpl. eauto.
Qed.

Lemma startsWithSegment_intro (s : string) (k : nat) :
  groupLength s = Some (S k) → startsWithSegment (String lbrace s).
Proof.
  intros E. apply groupLength_Some in E as (e & rest & -> & Hlen & Hno).
  exists e, rest. repeat split; [by destruct e|done].
Qed.

(** Whether a segment starts at a character can be told. *)
Lemma segment_or_not (c : ascii) (s : string) :
  startsWithSegment (String c s) ∨ ¬ startsWithSegment (String c s).
Proof.
  destruct (Ascii.eqb_spec c lbrace) as [->|Hne].
  - destruct (groupLength s) as [[|j]|] eqn:E.
    + right. intros H. apply startsWithSegment_inv in H as [_ [k Hk]]. congruence.
    + left. by eapply startsWithSegment_intro.
    + right. intros H. apply startsWithSegment_inv in H as [_ [k Hk]]. congruence.
  - right. intros H. by apply startsWithSegment_inv in H as [? _].
Qed.

(** The characters of a match are copied as they are. *)
Lemma replaceFrom_skip (a s : string) (k : nat) :
  replaceFrom (String.length a + k) (a +:+ s) = a +:+ replaceFrom k s.
Proof. induction a as [|x a IH]; push_app; simpl; [done|by rewrite IH]. Qed.

Lemma replaceFrom_segment (e rest : string) :
  e ≠ "" → ¬ JsString.occurs rbrace e →
  replaceFrom 0 (String lbrace (e +:+ String rbrace rest))
  = String dollar (String lbrace (e +:+ String rbrace (replaceFrom 0 rest))).
Proof.
  intros Hne Hno. simpl. unfold matchesAt.
  rewrite groupLength_segment by done.
  destruct e as [|x e]; [done|]. cbn [String.length]. do 2 f_equal.
  replace (S (S (String.length e))) with (String.length (String x e) + 1)
    by (simpl; lia).
  rewrite replaceFrom_skip. done.
Qed.

Lemma replaceFrom_other (c : ascii) (s : string) :
  ¬ startsWithSegment (String c s) →
  replaceFrom 0 (String c s) = String c (replaceFrom 0 s).
Proof.
  intros Hno. simpl.
  destruct (Ascii.eqb_spec c lbrace) as [->|Hne]; [|done].
  unfold matchesAt. destruct (groupLength s) as [[|k]|] eqn:E; [done| |done].
  destruct Hno. by eapply startsWithSegment_intro.
Qed.

Lemma groupLength_escape_None (s : string) :
  groupLength s = None → groupLength (escapeBackticks s) = None.
Proof.
  induction s as [|x s IH]; simpl; [done|].
  destruct (Ascii.eqb_spec x rbrace) as [->|Hne]; [done|].
  destruct (groupLength s) as [k|]; [done|]. intros _.
  destruct (Ascii.eqb_spec x backtick) as [->|Hnb]; simpl.
  - by rewrite IH.
  - destruct (Ascii.eqb_spec x rbrace); [done|]. by rewrite IH.
Qed.

Lemma groupLength_escape_0 (s : string) :
  groupLength s = Some 0 → groupLength (escapeBackticks s) = Some 0.
Proof.
  destruct s as [|x s]; simpl; [done|].
  destruct (Ascii.eqb_spec x rbrace) as [->|Hne]; [done|].
  by destruct (groupLength s).
Qed.

(** Escaping the backticks moves no brace: it makes no new segment. *)
Lemma escapeBackticks_segment (c : ascii) (s : string) :
  startsWithSegment (String c (escapeBackticks s)) →
  startsWithSegment (String c s).
Proof.
  intros H. apply startsWithSegment_inv in H as [-> [k Hk]].
  destruct (groupLength s) as [[|j]|] eqn:E.
  - apply groupLength_escape_0 in E. congruence.
  - by eapply startsWithSegment_intro.
  - apply groupLength_escape_None in E. congruence.
Qed.

Lemma template_of_message (n : nat) (msg : string) :
  String.length msg ≤ n →
  Template msg (replaceExprs (escapeBackticks msg)).
Proof.
  unfold replaceExprs. revert msg.
  induction n as [|n IH]; intros msg Hlen.
  { destruct msg; [constructor|simpl in Hlen; lia]. }
  destruct msg as [|c r]; [constructor|]. simpl in Hlen.
  destruct (Ascii.eqb_spec c backtick) as [->|Hnb].
  { simpl. apply T_backtick, IH. lia. }
  destruct (segment_or_not c r) as [(e & rest & [Hne Hno] & E)|Hnone].
  - rewrite E. rewrite segment_canonical in E. injection E as -> ->.
    rewrite segment_canonical. simpl (escapeBackticks (String lbrace _)).
    rewrite escapeBackticks_app.
    assert (Er : escapeBackticks (String rbrace rest)
                 = String rbrace (escapeBackticks rest)) by done.
    rewrite Er, replaceFrom_segment.
    + apply (T_expr e (escapeBackticks e) rest);
        [done|apply escapeBackticks_Escaped|].
      apply IH. rewrite string_length_app in Hlen. simpl in Hlen. lia.
    + destruct e as [|a e]; [done|]. simpl. by destruct (Ascii.eqb a backtick).
    + intros H. by apply Hno, escapeBackticks_occurs_rbrace.
  - assert (E : escapeBackticks (String c r) = String c (escapeBackticks r)).
    { simpl. by destruct (Ascii.eqb_spec c backtick). }
    rewrite E, replaceFrom_other.
    + apply T_char; [done|done|]. apply IH. lia.
    + intros H. by apply Hnone, escapeBackticks_segment.
Qed.

End LogpointFacts.

Example toCondition_plain :
  Logpoint.toCondition "x={x}" = "console.log(`x=${x}`); false".
Proof. reflexivity. Qed.

Example toCondition_backtick :
  Logpoint.toCondition "a`b {} {c}}" = "console.log(`a\`b {} ${c}}`); false".
Proof. reflexivity. Qed.

Example toCondition_nested :
  Logpoint.toCondition "{{a} {b" = "console.log(`${{a} {b`); false".
Proof. reflexivity. Qed.

(** The text [toCondition] builds is, for every message, of the shape
    [console.log(`...`); false], the part between the backticks being the
    message with a backslash put before every backtick and every segment
    [{expr}] turned into [${expr}]. The shape is one of text only: the
    escaping leaves the backslashes of the message alone. *)
Lemma logpoint_condition (msg : string) :
  ∃ body,
    Logpoint.toCondition msg = "console.log(`" +:+ body +:+ "`); false" ∧
    Logpoint.Template msg body.
Proof.
  exists (Logpoint.replaceExprs (Logpoint.escapeBackticks msg)). split.
  - unfold Logpoint.toCondition. by rewrite !string_app_assoc.
  - by apply (template_of_message (String.length msg)).
Qed.

(** C6. [add_logpoint] called with the message backslash, backtick,
    [); true //] installs the condition
    [console.log(`\\`); true //`); false]. The escaping of [toCondition]
    puts a backslash before the backtick of the message and leaves the
    backslash of the message alone, so that in the condition the two
    backslashes stand together before the backtick: the first escapes the
    second, the backtick ends the template literal after one character,
    and the rest of the message, [); true //], is code of the condition,
    whose value is then [true] and not [false]. *)
Theorem add_logpoint_backslash_before_backtick :
  let message := String Logpoint.backslash
                   (String Logpoint.backtick "); true //") in
  let answer := add_logpoint (Some "/app/sample.js") None 3%Z None message
                  (Fulfilled Sample.breakpoint) Sample.started in
  message = "\`); true //" ∧
  Logpoint.escapeBackticks message
  = String Logpoint.backslash
      (String Logpoint.backslash (String Logpoint.backtick "); true //")) ∧
  trace answer.1
  = trace Sample.started
    ++ [Sent (SetBreakpointByUrl (Some "file:///app/sample.js") None 2%Z 0%Z
                (Some "console.log(`\\`); true //`); false"))] ∧
  answer.2
  = Content (BreakpointPayload (breakpointId Sample.breakpoint)
               (locations Sample.breakpoint) (Some "logpoint")).
Proof. vm_compute. repeat split. Qed.

(** ** The end of a session *)

Lemma stop_debug_session_clears (s : state) :
  let s0 := (stop_debug_session s).1 in
  nodeDebugClient s0 = None ∧ nodeProcess s0 = None ∧
  scriptIdToUrl s0 = [] ∧ consoleMessages s0 = [] ∧
  lastPausedParams s0 = None ∧ pauseMap s0 = ∅ ∧
  currentPauseId s0 = None ∧ pauseCounter s0 = 0.
Proof.
  unfold stop_debug_session. cbn zeta.
  destruct (nodeProcess s) eqn:Ep; destruct (nodeDebugClient s) eqn:Ec;
    simpl; rewrite ?Ec; simpl; rewrite ?Ep, ?Ec; repeat split.
Qed.

(** The exit branch of [resume_execution] clears the whole session. *)
Lemma resume_exit_clears_session (o : ControlOptions) (w : ControlWorld)
    (s : state) (c : Client) (p : ChildProcess) (exitCode : Z) :
  nodeDebugClient s = Some c →
  nodeProcess s = Some p →
  commandReply w = Fulfilled () →
  race w = ExitWins (Some exitCode) →
  let '(s', r) := resume_execution o w s in
  r = Content (StatusPayload
                 ("Execution resumed until completion. Process exited with code "
                    +:+ pretty exitCode +:+ ".")) ∧
  trace s' = trace s ++ [Sent Resume; Closed] ∧
  nodeDebugClient s' = None ∧ nodeProcess s' = None ∧
  scriptIdToUrl s' = [] ∧ consoleMessages s' = [] ∧
  lastPausedParams s' = None ∧ pauseMap s' = ∅ ∧ currentPauseId s' = None.
Proof.
  intros Hc Hp Hr Hw. unfold resume_execution, control.
  rewrite Hc, Hr, Hw. unfold exitBranch, addPausedListener. rewrite Hc. simpl.
  rewrite Hp. simpl. by rewrite <- app_assoc.
Qed.

(** The exit branch of the three step handlers does the same but for the
    pause catalog and the current pause id, which it leaves as they are. *)
Lemma step_exit_keeps_pauses (t : ControlTool) (o : ControlOptions)
    (w : ControlWorld) (s : state) (c : Client) (p : ChildProcess)
    (exitCode : Z) :
  t ≠ ResumeExecution →
  nodeDebugClient s = Some c →
  nodeProcess s = Some p →
  commandReply w = Fulfilled () →
  race w = ExitWins (Some exitCode) →
  let '(s', r) := control t o w s in
  r = Plain ("Execution resumed until completion. Process exited with code "
               +:+ pretty exitCode +:+ ".") ∧
  trace s' = trace s ++ [Sent (controlCommand t); Closed] ∧
  nodeDebugClient s' = None ∧ nodeProcess s' = None ∧
  scriptIdToUrl s' = [] ∧ consoleMessages s' = [] ∧
  lastPausedParams s' = None ∧
  pauseMap s' = pauseMap s ∧ currentPauseId s' = currentPauseId s.
Proof.
  intros Ht Hc Hp Hr Hw. unfold control.
  rewrite Hc, Hr, Hw. unfold exitBranch, addPausedListener. rewrite Hc.
  destruct t; [done|..]; simpl; rewrite Hp; simpl; by rewrite <- app_assoc.
Qed.

(** C2. At the state a successful [start_node_debug] leaves, whose pause
    catalog holds the pause [p1], a [step_over], [step_into] or [step_out]
    that ends with the exit of the target answers with the completion
    text and drops the client, the process, the scripts and the console
    buffer, and still holds [p1] in the pause catalog and as the current
    pause id afterwards. *)
Theorem step_exit_leaves_pause_catalog :
  Forall
    (λ t,
       let '(s', r) :=
         control t Sample.noOptions (Sample.world (ExitWins (Some 0%Z)))
           Sample.started in
       r = Plain "Execution resumed until completion. Process exited with code 0." ∧
       trace s' = trace Sample.started ++ [Sent (controlCommand t); Closed] ∧
       nodeDebugClient s' = None ∧ nodeProcess s' = None ∧
       scriptIdToUrl s' = [] ∧ consoleMessages s' = [] ∧
       lastPausedParams s' = None ∧
       pauseMap s' !! "p1" = Some (Sample.pauseAt 0) ∧
       currentPauseId s' = Some "p1")
    [StepOverTool; StepIntoTool; StepOutTool].
Proof.
  do 3 (constructor; [vm_compute; repeat split|]). constructor.
Qed.

Example resume_exit_clears_pause_catalog :
  let '(s', r) :=
    resume_execution Sample.noOptions (Sample.world (ExitWins (Some 0%Z)))
      Sample.started in
  r = Content (StatusPayload
                 "Execution resumed until completion. Process exited with code 0.") ∧
  pauseMap s' = ∅ ∧ currentPauseId s' = None.
Proof. repeat split. Qed.

(** ** After stop_debug_session *)

(** C3 as stated fails: after [stop_debug_session], [list_scripts] answers
    with the empty list of scripts, which is no error. *)
Lemma after_stop_list_scripts_succeeds :
  let s0 := (stop_debug_session Sample.started).1 in
  (handle ListScripts s0).2 = Content (ScriptsPayload []) ∧
  isError (handle ListScripts s0).2 = false ∧
  (handle ListScripts s0).2 ≠ Failure NO_SESSION.
Proof. repeat split. discriminate. Qed.

(** C3, amended. After [stop_debug_session], [list_scripts] and
    [read_console] answer with an empty list, the five tools that need a
    pause answer with the no-pause error, and every other tool but
    [start_node_debug] and [stop_debug_session] answers with the no-session
    error. *)
Theorem after_stop_responses (s : state) (c : call) :
  let s0 := (stop_debug_session s).1 in
  match c with
  | StartNodeDebug _ _ | StopDebugSession => True
  | ListScripts => (handle c s0).2 = Content (ScriptsPayload [])
  | ReadConsole => (handle c s0).2 = Content (ConsolePayload [])
  | RestartFrameCall _ _ _ _ | EvaluateExpression _ _ _ _ _
  | InspectScopes _ _ _ _ _ | ListCallStack _ _ _ | GetPauseInfo _ =>
      (handle c s0).2 = Failure NO_PAUSE
  | _ => (handle c s0).2 = Failure NO_SESSION
  end.
Proof.
  intros s0.
  destruct (stop_debug_session_clears s)
    as (Hc & _ & Hs & Hm & Hl & _ & _ & _).
  fold s0 in Hc, Hs, Hm, Hl. clearbody s0.
  destruct c; simpl; try done.
  - unfold set_breakpoint. by rewrite Hc.
  - unfold set_breakpoint_condition. by rewrite Hc.
  - unfold add_logpoint. by rewrite Hc.
  - unfold set_exception_breakpoints. by rewrite Hc.
  - unfold blackbox_scripts. by rewrite Hc.
  - unfold list_scripts. simpl. by rewrite Hs.
  - unfold get_script_source. by rewrite Hc.
  - unfold continue_to_location. by rewrite Hc.
  - unfold restart_frame, noPauseState. by rewrite Hc.
  - unfold get_object_properties. by rewrite Hc.
  - unfold read_console. simpl. by rewrite Hm.
  - unfold control. by rewrite Hc.
  - unfold evaluate_expression, noPauseState. by rewrite Hc.
  - unfold inspect_scopes, noPauseState. by rewrite Hc.
  - unfold list_call_stack, noPauseState. by rewrite Hc.
  - unfold get_pause_info. by rewrite Hl.
Qed.

(** ** Listing scopes *)

Lemma controlScopes_bound g chain s s' scopes :
  controlScopes g chain s = (s', Fulfilled scopes) →
  Forall (λ e, length (variables e) ≤ 15 ∧ truncated e = None) scopes.
Proof.
  revert s s' scopes.
  induction chain as [|sc rest IH]; intros s s' scopes; cbn [controlScopes].
  - intros [= <- <-]. constructor.
  - destruct (object sc ≫= objectId) as [oid|]; [|apply IH].
    destruct (JsString.truthy oid); [|apply IH].
    destruct (g oid) as [props|m]; [|done].
    destruct (controlScopes g rest _) as [s1 [scopes1|m]] eqn:E; [|done].
    intros [= <- <-]. constructor; [|by eapply IH].
    cbn [variables truncated]. split; [|done]. unfold slice0.
    rewrite length_fmap, length_take. lia.
Qed.

Lemma inspectScopes_bound n g chain s s' scopes :
  inspectScopes n g chain s = (s', Fulfilled scopes) →
  Forall (λ e, length (variables e) ≤ n ∧
               (se_type e = "global" →
                length (variables e) ≤ 5 ∧ truncated e = Some true))
    scopes.
Proof.
  revert s s' scopes.
  induction chain as [|sc rest IH]; intros s s' scopes; cbn [inspectScopes].
  - intros [= <- <-]. constructor.
  - destruct (object sc ≫= objectId) as [oid|]; [|apply IH].
    destruct (JsString.truthy oid); [|apply IH].
    destruct (g oid) as [props|m]; [|done].
    destruct (inspectScopes n g rest _) as [s1 [scopes1|m]] eqn:E; [|done].
    intros [= <- <-]. constructor; [|by eapply IH].
    unfold listProps, slice0.
    destruct (decide (scope_type sc = "global"));
      cbn [variables truncated se_type].
    + rewrite !length_take, length_fmap, length_take. split; [lia|].
      intros _. split; [lia|done].
    + rewrite length_fmap, length_take. split; [lia|done].
Qed.

(** [resume_execution] with [includeScopes] lists the six properties of a
    global scope, all of them and without the flag. *)
Lemma resume_lists_global_scope_in_full :
  let r := (resume_execution Sample.scopesOptions
              (Sample.worldProps
                 (PauseWins (Sample.pauseWith [Sample.scopeOf "global" "g1"])) 6)
              Sample.started).2 in
  ∃ e, controlScopesOf r = [e] ∧ se_type e = "global" ∧
       length (variables e) = 6 ∧ truncated e = None ∧
       ¬ withinStatedBounds e.
Proof.
  eexists. repeat split. intros [_ H]. destruct (H eq_refl) as [H5 _].
  simpl in H5. lia.
Qed.

(** C4 as stated fails: [inspect_scopes] called with [maxProps] 20 lists
    the 16 properties of a local scope. *)
Lemma inspect_scopes_lists_max_props :
  let r := (inspect_scopes (Some 20) None None None
              (λ _, Fulfilled (Sample.props 16))
              (Sample.pausedIn [Sample.scopeOf "local" "l1"])).2 in
  ∃ e, inspectScopesOf r = [e] ∧ se_type e = "local" ∧
       length (variables e) = 16 ∧ ¬ withinStatedBounds e.
Proof.
  eexists. repeat split. intros [H _]. simpl in H. lia.
Qed.

(** C4, amended. The scopes in a response of [resume_execution],
    [step_over], [step_into] and [step_out] list at most 15 properties
    each. The scopes in a response of [inspect_scopes] list at most
    [maxProps] properties each, 15 when [maxProps] is not given, and a
    global scope at most 5, with the flag [truncated: true]. *)
Theorem scopes_listing_bounds :
  (∀ t o w s,
     Forall (λ e, length (variables e) ≤ 15)
       (controlScopesOf (control t o w s).2)) ∧
  (∀ maxProps pauseId frameIndex includeThisPreview getProps s,
     Forall (λ e, length (variables e) ≤ default 15 maxProps ∧
                  (se_type e = "global" →
                   length (variables e) ≤ 5 ∧ truncated e = Some true))
       (inspectScopesOf
          (inspect_scopes maxProps pauseId frameIndex includeThisPreview
             getProps s).2)).
Proof.
  split.
  - intros t o w s. unfold control, pauseBranch, exitBranch. cbv zeta.
    repeat case_match; simpl; try constructor;
      match goal with
      | H : controlScopes _ _ _ = (_, Fulfilled _) |- _ =>
          apply controlScopes_bound in H
      end;
      (eapply Forall_impl; [eassumption|]); by intros e [? _].
  - intros maxProps pauseId frameIndex includeThisPreview getProps s.
    unfold inspect_scopes. cbv zeta.
    repeat case_match; simpl; try constructor;
      match goal with
      | H : inspectScopes _ _ _ _ = (_, Fulfilled _) |- _ =>
          by apply inspectScopes_bound in H
      end.
Qed.

Example inspect_scopes_truncates_global :
  let r := (inspect_scopes None None None None
              (λ _, Fulfilled (Sample.props 30))
              (Sample.pausedIn [Sample.scopeOf "local" "l1";
                                Sample.scopeOf "global" "g1"])).2 in
  (λ e, (se_type e, length (variables e), truncated e)) <$> inspectScopesOf r
  = [("local", 15, None); ("global", 5, Some true)].
Proof. reflexivity. Qed.

(** ** A start that fails *)

(** C5 as stated fails: when [Debugger.enable] is rejected, the child is
    spawned and not killed, the client is opened and not closed, both
    handles stay set, and the next [start_node_debug] is refused. *)
Lemma failed_start_keeps_partial_session :
  let '(s', r) :=
    start_node_debug "/app/sample.js" (DebuggerEnableRejected "socket hang up")
      initial in
  r = Failure "Error: Failed to start debug session - socket hang up" ∧
  trace s' = [Spawned "/app/sample.js"; Sent DebuggerEnable] ∧
  nodeProcess s' = Some {| script := "/app/sample.js" |} ∧
  is_Some (nodeDebugClient s') ∧
  (start_node_debug "/app/sample.js" (Attached [] (Sample.pauseAt 0)) s').2
  = Failure SESSION_ACTIVE.
Proof. repeat split. by eexists. Qed.

Lemma foldl_onIntake_frame es s :
  let s' := foldl (λ s e, onIntake e s) s es in
  nodeDebugClient s' = nodeDebugClient s ∧ nodeProcess s' = nodeProcess s ∧
  trace s' = trace s ∧ pauseMap s' = pauseMap s ∧
  currentPauseId s' = currentPauseId s ∧ pauseCounter s' = pauseCounter s.
Proof.
  revert s. induction es as [|e es IH]; intros s; simpl; [done|].
  destruct (IH (onIntake e s)) as (-> & -> & -> & -> & -> & ->).
  destruct e; simpl; [|done]. unfold onScriptParsed. by case_match.
Qed.

(** C5, amended. A [start_node_debug] that fails answers with the
    start-failed error around the cause, and tears nothing down: the
    handle of the spawned child stays in [nodeProcess], the child is not
    killed, the client, when the attach sequence got as far as opening it,
    stays in [nodeDebugClient] and is not closed, and the pause catalog,
    the current pause id and the counter are left as they were. *)
Theorem start_failure_surfaced_without_teardown (s : state)
    (scriptPath : string) (w : StartWorld) (cause : string) :
  nodeDebugClient s = None →
  startCause w = Some cause →
  let '(s', r) := start_node_debug scriptPath w s in
  r = Failure ("Error: Failed to start debug session - " +:+ cause) ∧
  nodeProcess s' = Some {| script := scriptPath |} ∧
  (is_Some (nodeDebugClient s') ↔ startConnected w = true) ∧
  (∃ τ, trace s' = trace s ++ Spawned scriptPath :: τ ∧
        (Killed ∉ τ) ∧ (Closed ∉ τ)) ∧
  pauseMap s' = pauseMap s ∧ currentPauseId s' = currentPauseId s ∧
  pauseCounter s' = pauseCounter s.
Proof.
  intros Hc Hw. unfold start_node_debug. rewrite Hc.
  destruct w as [|m|m|m|intake ev]; simpl in Hw.
  - injection Hw as <-. simpl. rewrite Hc.
    repeat split; try done; try by intros [? ?].
    exists []. repeat split; by intros ?%elem_of_nil.
  - injection Hw as <-. simpl. rewrite Hc.
    repeat split; try done; try by intros [? ?].
    exists []. repeat split; by intros ?%elem_of_nil.
  - injection Hw as <-. simpl.
    repeat split; try done; try by eexists.
    exists [Sent DebuggerEnable]. rewrite <- app_assoc.
    repeat split; by intros [?|?%elem_of_nil]%elem_of_cons.
  - injection Hw as <-. simpl.
    repeat split; try done; try by eexists.
    exists [Sent DebuggerEnable; Sent RuntimeEnable]. rewrite <- !app_assoc.
    repeat split;
      by intros [?|[?|?%elem_of_nil]%elem_of_cons]%elem_of_cons.
  - destruct (callFrames ev) eqn:Ef; [|done]. injection Hw as <-.
    cbv zeta.
    match goal with
    | |- context [foldl (λ s e, onIntake e s) ?x intake] =>
        destruct (foldl_onIntake_frame intake x) as (Ec & Ep & Et & Em & Ei & En);
        set (s1 := foldl (λ s e, onIntake e s) x intake) in *
    end.
    simpl in Ec, Ep, Et, Em, Ei, En.
    unfold onPaused. rewrite Ec. simpl. rewrite Ec, Ep, Et, Em, Ei, En.
    repeat split; try done; try by eexists.
    exists [Sent DebuggerEnable; Sent RuntimeEnable; Sent RunIfWaitingForDebugger].
    rewrite <- !app_assoc.
    repeat split;
      by intros [?|[?|[?|?%elem_of_nil]%elem_of_cons]%elem_of_cons]%elem_of_cons.
Qed.

Lemma start_failure_surfaced_without_teardown_witness :
  let '(s', r) :=
    start_node_debug "/app/sample.js" (RuntimeEnableRejected "closed") initial in
  r = Failure "Error: Failed to start debug session - closed" ∧
  nodeProcess s' = Some {| script := "/app/sample.js" |} ∧
  is_Some (nodeDebugClient s').
Proof.
  pose proof (start_failure_surfaced_without_teardown initial "/app/sample.js"
                (RuntimeEnableRejected "closed") "closed" eq_refl eq_refl) as H.
  simpl in H. destruct H as (Hr & Hp & Hc & _).
  split; [exact Hr|]. split; [exact Hp|]. by apply Hc.
Defined.

(** ** The locator of a conditional breakpoint or logpoint *)

(** C7 as stated fails: with both [filePath] and [urlRegex] given, the
    breakpoint is set, by [urlRegex]. *)
Lemma both_locators_set_a_breakpoint :
  let '(s', r) :=
    set_breakpoint_condition (Some "/app/sample.js") (Some "sample\.js$")
      3%Z None "x > 0" (Fulfilled Sample.breakpoint) Sample.started in
  r = Content (BreakpointPayload (breakpointId Sample.breakpoint)
                 (locations Sample.breakpoint) None) ∧
  r ≠ Failure MISSING_LOCATOR ∧
  trace s' = trace Sample.started
             ++ [Sent (SetBreakpointByUrl None (Some "sample\.js$") 2%Z 0%Z
                         (Some "x > 0"))].
Proof. repeat split. discriminate. Qed.

Lemma setByLocator_choice fp re line col cond kind failed w s :
  let '(s', r) := setByLocator fp re line col cond kind failed w s in
  (JsString.truthy_opt fp = false → JsString.truthy_opt re = false →
   r = Failure MISSING_LOCATOR ∧ s' = s) ∧
  (JsString.truthy_opt re = true →
   trace s' = trace s ++ [Sent (SetBreakpointByUrl None re (line - 1)%Z
                                  (default 0%Z col) (Some cond))]) ∧
  (JsString.truthy_opt re = false → JsString.truthy_opt fp = true →
   trace s' = trace s ++ [Sent (SetBreakpointByUrl (toFileUrl <$> fp) None
                                  (line - 1)%Z (default 0%Z col) (Some cond))]).
Proof.
  unfold setByLocator.
  destruct (JsString.truthy_opt re), (JsString.truthy_opt fp), w; simpl;
    repeat split; done.
Qed.

(** C7, amended. In a session, [set_breakpoint_condition] and
    [add_logpoint] fail with the missing-locator error, and send nothing,
    when neither [filePath] nor [urlRegex] is given (an empty string counts
    as not given). When [urlRegex] is given the breakpoint is set by
    [urlRegex], whether [filePath] is given too or not; when only
    [filePath] is given it is set by the file URL. *)
Theorem locator_missing_only_when_neither (logpoint : bool) (s : state)
    (c : Client) (filePath urlRegex : option string) (line : Z)
    (column : option Z) (text : string) (w : reply BreakpointResult) :
  nodeDebugClient s = Some c →
  let condition := if logpoint then Logpoint.toCondition text else text in
  let '(s', r) :=
    if logpoint then add_logpoint filePath urlRegex line column text w s
    else set_breakpoint_condition filePath urlRegex line column text w s in
  (JsString.truthy_opt filePath = false →
   JsString.truthy_opt urlRegex = false →
   r = Failure MISSING_LOCATOR ∧ s' = s) ∧
  (JsString.truthy_opt urlRegex = true →
   trace s' = trace s ++ [Sent (SetBreakpointByUrl None urlRegex (line - 1)%Z
                                  (default 0%Z column) (Some condition))]) ∧
  (JsString.truthy_opt urlRegex = false →
   JsString.truthy_opt filePath = true →
   trace s' = trace s ++ [Sent (SetBreakpointByUrl (toFileUrl <$> filePath)
                                  None (line - 1)%Z (default 0%Z column)
                                  (Some condition))]).
Proof.
  intros Hc. destruct logpoint; cbv zeta.
  - unfold add_logpoint. rewrite Hc. apply setByLocator_choice.
  - unfold set_breakpoint_condition. rewrite Hc. apply setByLocator_choice.
Qed.

Lemma locator_missing_only_when_neither_witness :
  (add_logpoint None (Some "") 3%Z None "x={x}"
     (Fulfilled Sample.breakpoint) Sample.started).2
  = Failure MISSING_LOCATOR.
Proof.
  pose proof (locator_missing_only_when_neither true Sample.started
                {| pausedListeners := [RecordPause]; intakeListeners := true |}
                None (Some "") 3%Z None "x={x}" (Fulfilled Sample.breakpoint)
                eq_refl) as H.
  cbv zeta in H.
  destruct (add_logpoint _ _ _ _ _ _ _) as [s' r].
  destruct H as (H & _ & _). by destruct (H eq_refl eq_refl).
Defined.

(** ** Lines and columns *)

(** C8 as stated fails: [set_breakpoint_condition] called with the column
    5 sends the column 5 to the target, not 4. *)
Lemma conditional_breakpoint_column_sent_unchanged :
  ∃ sent,
    trace (set_breakpoint_condition (Some "/app/sample.js") None 3%Z
             (Some 5%Z) "x > 0" (Fulfilled Sample.breakpoint)
             Sample.started).1
    = trace Sample.started
      ++ [Sent (SetBreakpointByUrl (Some "file:///app/sample.js") None 2%Z
                  sent (Some "x > 0"))] ∧
    sent = 5%Z ∧ sent ≠ (5 - 1)%Z.
Proof. exists 5%Z. repeat split. lia. Qed.

Lemma summarizeFrame_oneBased s frame : oneBasedOf frame (summarizeFrame s frame).
Proof. done. Qed.

Lemma selectPause_known c pauseId s pause :
  selectPause pauseId s = Some pause → knownEvent c s pause.
Proof.
  unfold selectPause, knownEvent. destruct pauseId as [id|]; [|by left].
  destruct (JsString.truthy id); [|by left]. right. left. by exists id.
Qed.

Lemma head_known (l : list CallFrame) (x : CallFrame) (r : list CallFrame) :
  l = x :: r → x ∈ l.
Proof. intros ->. by left. Qed.

Ltac known_call :=
  right; right; simpl;
  try match goal with H : race _ = PauseWins _ |- _ => rewrite H end;
  done.

(** Every frame summary in a response comes from a call frame of a paused
    event, with the line and the column raised by one. *)
Lemma response_frames_one_based (c : call) (s : state) (f : FrameSummary) :
  f ∈ responseFrames (handle c s).2 →
  ∃ ev frame, knownEvent c s ev ∧ frame ∈ callFrames ev ∧ oneBasedOf frame f.
Proof.
  destruct c; simpl.
  - unfold start_node_debug. cbv zeta.
    repeat case_match; simpl; try by intros ?%elem_of_nil.
    intros ->%list_elem_of_singleton.
    eexists _, _. split; [known_call|]. split; [by eapply head_known|done].
  - unfold set_breakpoint. repeat case_match; simpl; by intros ?%elem_of_nil.
  - unfold set_breakpoint_condition, setByLocator.
    repeat case_match; simpl; by intros ?%elem_of_nil.
  - unfold add_logpoint, setByLocator.
    repeat case_match; simpl; by intros ?%elem_of_nil.
  - unfold set_exception_breakpoints.
    repeat case_match; simpl; by intros ?%elem_of_nil.
  - unfold blackbox_scripts. repeat case_match; simpl; by intros ?%elem_of_nil.
  - by intros ?%elem_of_nil.
  - unfold get_script_source. repeat case_match; simpl; by intros ?%elem_of_nil.
  - unfold continue_to_location. cbv zeta.
    repeat case_match; simpl; try by intros ?%elem_of_nil.
    intros ->%list_elem_of_singleton.
    eexists _, _. split; [known_call|].
    split; [by eapply head_known|done].
  - unfold restart_frame. cbv zeta.
    repeat case_match; simpl; try by intros ?%elem_of_nil.
    intros ->%list_elem_of_singleton.
    eexists _, _. split; [known_call|].
    split; [by eapply head_known|done].
  - unfold get_object_properties.
    repeat case_match; simpl; by intros ?%elem_of_nil.
  - by intros ?%elem_of_nil.
  - unfold control, pauseBranch, exitBranch. cbv zeta.
    destruct (race w) as [ev|code] eqn:Er;
      repeat case_match; simpl; try by intros ?%elem_of_nil.
    all: intros [->|Hin]%elem_of_cons;
      [eexists _, _; split; [known_call|];
       split; [by eapply head_known|done]|].
    all: try by apply elem_of_nil in Hin.
    all: match type of Hin with
         | _ ∈ ?g ?x :: list_fmap _ _ ?g ?l =>
             apply (proj1 (list_elem_of_fmap g (x :: l) _)) in Hin
                 as (frame & -> & Hin)
         end;
      eexists _, frame; split; [known_call|]; split; [|done];
      congruence.
  - unfold evaluate_expression.
    repeat case_match; simpl; by intros ?%elem_of_nil.
  - unfold inspect_scopes. cbv zeta.
    repeat case_match; simpl; try by intros ?%elem_of_nil.
    all: intros ->%list_elem_of_singleton;
      eexists _, _; (split; [by eapply selectPause_known|]);
      (split; [by eapply list_elem_of_lookup_2|done]).
  - unfold list_call_stack. cbv zeta.
    repeat case_match; simpl; try by intros ?%elem_of_nil.
    all: rewrite <- list_fmap_compose;
      intros (frame & -> & Hin)%list_elem_of_fmap;
      eexists _, frame; (split; [by eapply selectPause_known|]);
      (split; [|done]); unfold slice0 in Hin; by eapply subseteq_take.
  - unfold get_pause_info.
    repeat case_match; simpl; try by intros ?%elem_of_nil.
    all: intros ->%list_elem_of_singleton;
      eexists _, _; (split; [by eapply selectPause_known|]);
      (split; [by eapply head_known|done]).
  - by intros ?%elem_of_nil.
Qed.

Lemma continue_to_location_sent filePath line column w s c scriptId :
  nodeDebugClient s = Some c →
  findScriptId (scriptIdToUrl s) (toFileUrl filePath) = Some scriptId →
  JsString.truthy scriptId = true →
  ∃ τ, trace (continue_to_location filePath line column w s).1
       = trace s ++ Sent (ContinueToLocation scriptId (line - 1)%Z
                            (default 1%Z column - 1)%Z) :: τ.
Proof.
  intros Hc Hf Ht.
  set (s2 := log (Sent (ContinueToLocation scriptId (line - 1)%Z
                          (default 1%Z column - 1)%Z))
               (addPausedListener MintPause s)).
  assert (F : follows s2 (continue_to_location filePath line column w s).1).
  { unfold continue_to_location. rewrite Hc, Hf, Ht. cbv zeta. cbn [negb].
    fold s2. repeat case_match; cbn [fst]; repeat follow_step. }
  destruct F as (τ & E & _). exists τ. rewrite E. unfold s2, addPausedListener.
  rewrite Hc. simpl. by rewrite <- app_assoc.
Qed.

(** C8, amended. In a session: every [line] parameter is sent to the
    target lowered by one; [set_breakpoint] always sends column 0;
    [set_breakpoint_condition] and [add_logpoint] send their [column] as
    it is given, 0 when it is not given; [continue_to_location] sends its
    [column] lowered by one, 0 when it is not given. Every frame summary
    of a response shows the line and the column of a call frame of the
    target raised by one, a missing column counting as 0. The locations in
    the response of [set_breakpoint_condition] and [add_logpoint] are
    those the target answered, as they are. *)
Theorem line_column_conversion (s : state) (c : Client) :
  nodeDebugClient s = Some c →
  (∀ filePath line w,
     trace (set_breakpoint filePath line w s).1
     = trace s ++ [Sent (SetBreakpointByUrl (Some (toFileUrl filePath)) None
                           (line - 1)%Z 0%Z None)]) ∧
  (∀ (logpoint : bool) filePath urlRegex line column text w,
     JsString.truthy_opt urlRegex || JsString.truthy_opt filePath = true →
     ∃ url re condition,
       trace (if logpoint
              then add_logpoint filePath urlRegex line column text w s
              else set_breakpoint_condition filePath urlRegex line column text w s).1
       = trace s ++ [Sent (SetBreakpointByUrl url re (line - 1)%Z
                             (default 0%Z column) condition)]) ∧
  (∀ filePath line column w scriptId,
     findScriptId (scriptIdToUrl s) (toFileUrl filePath) = Some scriptId →
     JsString.truthy scriptId = true →
     ∃ τ, trace (continue_to_location filePath line column w s).1
          = trace s ++ Sent (ContinueToLocation scriptId (line - 1)%Z
                               (default 1%Z column - 1)%Z) :: τ) ∧
  (∀ call f,
     f ∈ responseFrames (handle call s).2 →
     ∃ ev frame, knownEvent call s ev ∧ frame ∈ callFrames ev ∧
                 oneBasedOf frame f) ∧
  (∀ (logpoint : bool) filePath urlRegex line column text answer id locs kind,
     (if logpoint
      then add_logpoint filePath urlRegex line column text (Fulfilled answer) s
      else set_breakpoint_condition filePath urlRegex line column text
             (Fulfilled answer) s).2
     = Content (BreakpointPayload id locs kind) →
     locs = locations answer).
Proof.
  intros Hc. split; [|split; [|split; [|split]]].
  - intros filePath line w. unfold set_breakpoint. rewrite Hc.
    by destruct w.
  - intros logpoint filePath urlRegex line column text w Hloc.
    assert (Hchoice : ∀ cond kind failed,
              ∃ url re condition,
                trace (setByLocator filePath urlRegex line column cond kind
                         failed w s).1
                = trace s ++ [Sent (SetBreakpointByUrl url re (line - 1)%Z
                                      (default 0%Z column) condition)]).
    { intros cond kind failed.
      pose proof (setByLocator_choice filePath urlRegex line column cond kind
                    failed w s) as H.
      destruct (setByLocator _ _ _ _ _ _ _ _ _) as [s' r]. simpl.
      destruct H as (_ & Hre & Hfp).
      destruct (JsString.truthy_opt urlRegex) eqn:Ere.
      - eexists _, _, _. by apply Hre.
      - simpl in Hloc. eexists _, _, _. by apply Hfp. }
    destruct logpoint; unfold add_logpoint, set_breakpoint_condition;
      rewrite Hc; apply Hchoice.
  - intros filePath line column w scriptId. by apply (continue_to_location_sent _ _ _ _ _ c).
  - intros call f. apply response_frames_one_based.
  - intros logpoint filePath urlRegex line column text answer id locs kind.
    destruct logpoint; unfold add_logpoint, set_breakpoint_condition, setByLocator;
      rewrite Hc; repeat case_match; simpl; congruence.
Qed.

Lemma line_column_conversion_witness :
  trace (set_breakpoint "/app/sample.js" 3%Z (Fulfilled Sample.breakpoint)
           Sample.started).1
  = trace Sample.started
    ++ [Sent (SetBreakpointByUrl (Some "file:///app/sample.js") None 2%Z 0%Z None)].
Proof.
  destruct (line_column_conversion Sample.started
              {| pausedListeners := [RecordPause]; intakeListeners := true |}
              eq_refl) as (H & _).
  exact (H "/app/sample.js" 3%Z (Fulfilled Sample.breakpoint)).
Defined.

(** ** Pause ids and frame indices given by the caller *)

(** A pause id that is a name the catalog object inherits gets past the
    test [!pause] of the four handlers that have it. *)
Example inherited_name_as_pause_id :
  (list_call_stack None (Some "constructor") None Sample.started).2
  = Content (StackPayload [] (Some "constructor")) ∧
  (get_pause_info (Some "toString") Sample.started).2
  = Failure "Error: Failed to get pause info - Cannot read properties of undefined (reading '0')" ∧
  (evaluate_expression "a" (Some "valueOf") None None (Rejected "")
     Sample.started).2
  = Failure "Error: Evaluation failed - Cannot read properties of undefined (reading '0')" ∧
  (restart_frame 3 (Some "__proto__") (Fulfilled ()) (Sample.pauseAt 5)
     Sample.started).2
  = Failure "Error: Failed to restart frame - Cannot read properties of undefined (reading '3')" ∧
  (inspect_scopes None (Some "hasOwnProperty") (Some 1) None (λ _, Fulfilled [])
     Sample.started).2
  = Thrown "Cannot read properties of undefined (reading '1')".
Proof. vm_compute. repeat split. Qed.

Lemma unknown_pause_id_siblings (s : state) (id : string) :
  noPauseState s = false →
  JsString.truthy id = true →
  pauseMap s !! id = None →
  id ∉ objectPrototypeNames →
  (∀ frameIndex commandReply next,
     restart_frame frameIndex (Some id) commandReply next s
     = (s, Failure INVALID_PAUSE)) ∧
  (∀ expr frameIndex returnByValue w,
     evaluate_expression expr (Some id) frameIndex returnByValue w s
     = (s, Failure INVALID_PAUSE)) ∧
  (∀ maxProps frameIndex includeThisPreview getProps,
     inspect_scopes maxProps (Some id) frameIndex includeThisPreview getProps s
     = (s, Failure INVALID_PAUSE)) ∧
  (∀ depth includeThis,
     list_call_stack depth (Some id) includeThis s
     = (s, Failure INVALID_PAUSE)).
Proof.
  intros Hp Ht Hm Hown.
  unfold restart_frame, evaluate_expression, inspect_scopes, list_call_stack,
    selectPause, inheritedMember.
  rewrite Hp, Ht, Hm, bool_decide_false by done. done.
Qed.

Lemma restart_frame_invalid_frame (s : state) (pauseId : option string)
    (pause : PausedEvent) (frameIndex : nat) commandReply next :
  noPauseState s = false →
  selectPause pauseId s = Some pause →
  length (callFrames pause) ≤ frameIndex →
  restart_frame frameIndex pauseId commandReply next s
  = (s, Failure INVALID_FRAME).
Proof.
  intros Hp Hs Hlen. unfold restart_frame. rewrite Hp, Hs.
  by rewrite (lookup_ge_None_2 _ _ Hlen).
Qed.

(** C9. At the state a successful [start_node_debug] leaves, whose pause
    catalog holds [p1] only, [get_pause_info] called with the pause id
    [p9] answers with the message of the [TypeError] it ran into, not with
    the invalid-pause error; [restart_frame], [evaluate_expression],
    [inspect_scopes] and [list_call_stack] called with [p9] answer with the
    invalid-pause error, and [restart_frame] called with the frame index 1
    of [p1], which has one frame, with the invalid-frame error. *)
Theorem get_pause_info_unknown_pause_id :
  pauseMap Sample.started !! "p9" = None ∧
  (get_pause_info (Some "p9") Sample.started).2
  = Failure "Error: Failed to get pause info - Cannot read properties of undefined (reading 'callFrames')" ∧
  (get_pause_info (Some "p9") Sample.started).2 ≠ Failure INVALID_PAUSE ∧
  (restart_frame 0 (Some "p9") (Fulfilled ()) (Sample.pauseAt 5)
     Sample.started).2 = Failure INVALID_PAUSE ∧
  (evaluate_expression "a" (Some "p9") None None (Rejected "")
     Sample.started).2 = Failure INVALID_PAUSE ∧
  (inspect_scopes None (Some "p9") None None (λ _, Fulfilled [])
     Sample.started).2 = Failure INVALID_PAUSE ∧
  (list_call_stack None (Some "p9") None Sample.started).2
  = Failure INVALID_PAUSE ∧
  (restart_frame 1 (Some "p1") (Fulfilled ()) (Sample.pauseAt 5)
     Sample.started).2 = Failure INVALID_FRAME.
Proof. repeat split. discriminate. Qed.

(** * Further properties of the server *)

(** ** The pause catalog *)

Lemma pausesGrow_refl s : pausesGrow s s.
Proof.
  split; [done|]. split; [by intros|]. split; [by left|by left].
Qed.

Lemma pausesGrow_same s s' :
  pauseCounter s' = pauseCounter s → pauseMap s' = pauseMap s →
  currentPauseId s' = currentPauseId s → pausesGrow s s'.
Proof.
  intros Hc Hm Hi. unfold pausesGrow. rewrite Hc, Hm, Hi.
  split; [done|]. split; [by intros|]. split; [by left|by left].
Qed.

Lemma pausesGrow_trans s1 s2 s3 :
  pausesGrow s1 s2 → pausesGrow s2 s3 → pausesGrow s1 s3.
Proof.
  intros (L1 & K1 & N1 & C1) (L2 & K2 & N2 & C2).
  split; [lia|]. split; [|split].
  - intros id ev H Hold. apply K2.
    + by apply K1.
    + intros k Hk. apply Hold. lia.
  - intros id ev H. destruct (N2 id ev H) as [H2|(k & Hk & ->)].
    + destruct (N1 id ev H2) as [H1|(k & Hk & ->)]; [by left|].
      right. exists k. split; [lia|done].
    + right. exists k. split; [lia|done].
  - destruct C2 as [E2|(k & Hk & E2 & Hin)].
    + rewrite E2. destruct C1 as [E1|(k & Hk & E1 & [ev Hin])]; [by left|].
      right. exists k. split; [lia|]. split; [done|].
      exists ev. apply K2; [done|].
      intros k' Hk' Heq. apply pause_id_inj in Heq. lia.
    + right. exists k. split; [lia|]. by split.
Qed.

Lemma pausesGrow_mintPause ev s : pausesGrow s (mintPause ev s).
Proof.
  unfold pausesGrow. simpl. split; [lia|]. split; [|split].
  - intros id e H Hold. rewrite lookup_insert_ne; [done|].
    intros <-. by apply (Hold (S (pauseCounter s))); [lia|].
  - intros id e H.
    destruct (decide (pause_id (S (pauseCounter s)) = id)) as [<-|Hne].
    + right. exists (S (pauseCounter s)). split; [lia|done].
    + left. by rewrite lookup_insert_ne in H.
  - right. exists (S (pauseCounter s)). split; [lia|]. split; [done|].
    rewrite lookup_insert_eq. by eexists.
Qed.

Lemma pausesGrow_runListener ev s l : pausesGrow s (runListener ev s l).
Proof.
  destruct l; simpl.
  - by apply pausesGrow_same.
  - eapply pausesGrow_trans; [|apply pausesGrow_mintPause].
    by apply pausesGrow_same.
Qed.

Lemma pausesGrow_onPaused ev s : pausesGrow s (onPaused ev s).
Proof.
  unfold onPaused. destruct (nodeDebugClient s) as [c|]; [|apply pausesGrow_refl].
  generalize (pausedListeners c). intros ls. revert s.
  induction ls as [|l ls IH]; intros s; simpl; [apply pausesGrow_refl|].
  eapply pausesGrow_trans; [apply pausesGrow_runListener|apply IH].
Qed.

Lemma pausesGrow_foldl_onIntake es s :
  pausesGrow s (foldl (λ s e, onIntake e s) s es).
Proof.
  destruct (foldl_onIntake_frame es s) as (_ & _ & _ & Hm & Hi & Hc).
  by apply pausesGrow_same.
Qed.

Lemma pausesGrow_deliver e s : pausesGrow s (deliver e s).
Proof.
  unfold deliver. destruct (nodeDebugClient s) eqn:E; [|apply pausesGrow_refl].
  destruct e as [i|ev]; [|apply pausesGrow_onPaused].
  case_match; [|apply pausesGrow_refl].
  destruct i; simpl; [unfold onScriptParsed; case_match|];
    by apply pausesGrow_same.
Qed.

Lemma pausesGrow_controlScopes g chain s :
  pausesGrow s (controlScopes g chain s).1.
Proof.
  revert s. induction chain as [|sc rest IH]; intros s; simpl.
  - apply pausesGrow_refl.
  - destruct (object sc ≫= objectId) as [oid|]; [|apply IH].
    destruct (JsString.truthy oid); [|apply IH].
    destruct (g oid) as [props|m]; simpl; [|by apply pausesGrow_same].
    specialize (IH (log (Sent (GetProperties oid)) s)).
    destruct (controlScopes g rest _) as [s' [scopes|m]]; simpl in *;
      (eapply pausesGrow_trans; [|apply IH]); by apply pausesGrow_same.
Qed.

Lemma pausesGrow_inspectScopes n g chain s :
  pausesGrow s (inspectScopes n g chain s).1.
Proof.
  revert s. induction chain as [|sc rest IH]; intros s; simpl.
  - apply pausesGrow_refl.
  - destruct (object sc ≫= objectId) as [oid|]; [|apply IH].
    destruct (JsString.truthy oid); [|apply IH].
    destruct (g oid) as [props|m]; simpl; [|by apply pausesGrow_same].
    specialize (IH (log (Sent (GetProperties oid)) s)).
    destruct (inspectScopes n g rest _) as [s' [scopes|m]]; simpl in *;
      (eapply pausesGrow_trans; [|apply IH]); by apply pausesGrow_same.
Qed.

Lemma pausesGrow_addPausedListener l s : pausesGrow s (addPausedListener l s).
Proof.
  unfold addPausedListener. case_match; [by apply pausesGrow_same|apply pausesGrow_refl].
Qed.

Lemma pausesGrow_installIntake s : pausesGrow s (installIntake s).
Proof.
  unfold installIntake. case_match; [by apply pausesGrow_same|apply pausesGrow_refl].
Qed.

(** Peels the outermost operation off the state on the right. *)
Ltac grow_step :=
  lazymatch goal with
  | |- pausesGrow ?s ?s => apply pausesGrow_refl
  | |- pausesGrow ?s (mintPause ?ev ?x) =>
      apply (pausesGrow_trans s x); [|apply pausesGrow_mintPause]
  | |- pausesGrow ?s (onPaused ?ev ?x) =>
      apply (pausesGrow_trans s x); [|apply pausesGrow_onPaused]
  | |- pausesGrow ?s (addPausedListener ?l ?x) =>
      apply (pausesGrow_trans s x); [|apply pausesGrow_addPausedListener]
  | |- pausesGrow ?s (installIntake ?x) =>
      apply (pausesGrow_trans s x); [|apply pausesGrow_installIntake]
  | |- pausesGrow ?s (foldl (λ a e, onIntake e a) ?x ?es) =>
      apply (pausesGrow_trans s x); [|apply pausesGrow_foldl_onIntake]
  | |- pausesGrow ?s (?op ?v ?x) =>
      apply (pausesGrow_trans s x); [|by apply pausesGrow_same]
  | |- pausesGrow ?s (connect ?x) =>
      apply (pausesGrow_trans s x); [|by apply pausesGrow_same]
  | |- pausesGrow ?s ?y =>
      lazymatch goal with
      | H : controlScopes ?g ?c ?x = (y, _) |- _ =>
          apply (pausesGrow_trans s x);
          [|let F := fresh in
            pose proof (pausesGrow_controlScopes g c x) as F;
            rewrite H in F; exact F]
      | H : inspectScopes ?n ?g ?c ?x = (y, _) |- _ =>
          apply (pausesGrow_trans s x);
          [|let F := fresh in
            pose proof (pausesGrow_inspectScopes n g c x) as F;
            rewrite H in F; exact F]
      end
  end.

Ltac grow := cbv zeta; repeat case_match; cbn [fst]; repeat grow_step.


Lemma pausesGrow_setByLocator fp re line col cond kind failed w s :
  pausesGrow s (setByLocator fp re line col cond kind failed w s).1.
Proof. unfold setByLocator. grow. Qed.

Lemma pauses_control t o w s :
  pausesGrow s (control t o w s).1 ∨
  (pauseMap (control t o w s).1 = ∅ ∧ currentPauseId (control t o w s).1 = None ∧
   nodeDebugClient (control t o w s).1 = None).
Proof.
  unfold control. destruct (nodeDebugClient s) eqn:Ec; [|left; apply pausesGrow_refl].
  cbv zeta. destruct (commandReply w); [|left; cbn [fst]; repeat grow_step].
  destruct (race w) as [ev|code].
  - left. unfold pauseBranch. grow.
  - unfold exitBranch. destruct t; simpl; [by right|..]; left;
      repeat grow_step.
Qed.

(** One input either adds pauses to the catalog or empties it. *)
Lemma pauses_step i s :
  pausesGrow s (step s i) ∨
  (pauseMap (step s i) = ∅ ∧ currentPauseId (step s i) = None ∧
   nodeDebugClient (step s i) = None).
Proof.
  destruct i as [c|e]; [|left; apply pausesGrow_deliver].
  destruct c; simpl.
  - left. unfold start_node_debug. grow.
  - left. unfold set_breakpoint. grow.
  - left. unfold set_breakpoint_condition.
    case_match; [apply pausesGrow_setByLocator|apply pausesGrow_refl].
  - left. unfold add_logpoint.
    case_match; [apply pausesGrow_setByLocator|apply pausesGrow_refl].
  - left. unfold set_exception_breakpoints. grow.
  - left. unfold blackbox_scripts. grow.
  - left. apply pausesGrow_refl.
  - left. unfold get_script_source. grow.
  - left. unfold continue_to_location. grow.
  - left. unfold restart_frame. grow.
  - left. unfold get_object_properties. grow.
  - left. unfold read_console. grow.
  - apply pauses_control.
  - left. unfold evaluate_expression. grow.
  - left. unfold inspect_scopes. grow.
  - left. unfold list_call_stack. grow.
  - left. unfold get_pause_info. grow.
  - right. unfold stop_debug_session. by repeat case_match.
Qed.

Lemma pausesWellFormed_grow s s' :
  pausesWellFormed s → pausesGrow s s' → pausesWellFormed s'.
Proof.
  intros [Hkeys Hcur] (Hle & Hkeep & Hnew & Hid). split.
  - intros id ev H. destruct (Hnew id ev H) as [Hold|(k & Hk & ->)].
    + destruct (Hkeys id ev Hold) as (k & -> & Hk). exists k. split; [done|lia].
    + exists k. split; [done|lia].
  - intros id H. destruct Hid as [E|(k & Hk & E & Hin)].
    + rewrite E in H. destruct (Hcur id H) as [ev Hev].
      exists ev. apply Hkeep; [done|].
      destruct (Hkeys id ev Hev) as (k & -> & Hk).
      intros k' Hk' Heq. apply pause_id_inj in Heq. lia.
    + rewrite E in H. by injection H as <-.
Qed.

Lemma pausesWellFormed_step i s :
  pausesWellFormed s → pausesWellFormed (step s i).
Proof.
  intros Hwf. destruct (pauses_step i s) as [Hg|(Hm & Hc & _)].
  - by eapply pausesWellFormed_grow.
  - split.
    + intros id ev. by rewrite Hm, lookup_empty.
    + intros id. by rewrite Hc.
Qed.

Lemma pausesWellFormed_run tr s :
  pausesWellFormed s → pausesWellFormed (run s tr).
Proof.
  revert s. induction tr as [|i tr IH]; intros s Hwf; simpl; [done|].
  by apply IH, pausesWellFormed_step.
Qed.

Lemma pausesWellFormed_reachable s : reachable s → pausesWellFormed s.
Proof.
  intros [tr ->]. apply pausesWellFormed_run. split.
  - intros id ev. simpl. by rewrite lookup_empty.
  - by intros id.
Qed.

(** X1. In every state the server can reach, the current pause id, when
    there is one, is the id of an entry of the pause catalog. *)
Theorem current_pause_is_catalogued (s : state) (id : string) :
  reachable s →
  currentPauseId s = Some id →
  is_Some (pauseMap s !! id).
Proof. intros Hr. by apply (pausesWellFormed_reachable s Hr). Qed.

Lemma current_pause_is_catalogued_witness :
  is_Some (pauseMap (run initial [Sample.start; Sample.resumeTo 2]) !! "p2").
Proof.
  apply (current_pause_is_catalogued
           (run initial [Sample.start; Sample.resumeTo 2]) "p2");
    [by eexists|reflexivity].
Defined.

(** X2. In every state the server can reach, the ids of the pause catalog
    are ['p' + k] for counter values [k] from 1 to the pause counter: the
    id the next pause gets is not in the catalog yet. *)
Theorem catalog_ids_are_passed_counter_values (s : state) (id : string)
    (ev : PausedEvent) :
  reachable s →
  pauseMap s !! id = Some ev →
  (∃ k, id = pause_id k ∧ 1 ≤ k ≤ pauseCounter s) ∧
  pauseMap s !! pause_id (S (pauseCounter s)) = None.
Proof.
  intros Hr H. destruct (pausesWellFormed_reachable s Hr) as [Hkeys _].
  split; [by eapply Hkeys|].
  destruct (pauseMap s !! pause_id (S (pauseCounter s))) as [ev'|] eqn:E; [|done].
  destruct (Hkeys _ _ E) as (k & Heq & Hk). apply pause_id_inj in Heq. lia.
Qed.

Lemma catalog_ids_are_passed_counter_values_witness :
  (∃ k, "p1" = pause_id k ∧ 1 ≤ k ≤ pauseCounter Sample.started) ∧
  pauseMap Sample.started !! pause_id (S (pauseCounter Sample.started)) = None.
Proof.
  apply (catalog_ids_are_passed_counter_values Sample.started "p1"
           (Sample.pauseAt 0)); [by exists [Sample.start]|reflexivity].
Defined.

(** X3. A pause snapshot stays in the catalog, under its id and as it is,
    over every input after which a client is still there: no later pause
    overwrites it, and it goes only with the session. *)
Theorem pause_snapshot_is_kept (s : state) (i : input) (id : string)
    (ev : PausedEvent) :
  reachable s →
  pauseMap s !! id = Some ev →
  is_Some (nodeDebugClient (step s i)) →
  pauseMap (step s i) !! id = Some ev.
Proof.
  intros Hr H Hc. destruct (pausesWellFormed_reachable s Hr) as [Hkeys _].
  assert (Hg : pausesGrow s (step s i)).
  { destruct (pauses_step i s) as [Hg|(_ & _ & Hnone)]; [done|].
    rewrite Hnone in Hc. by destruct Hc. }
  destruct Hg as (_ & Hkeep & _). apply Hkeep; [done|].
  destruct (Hkeys id ev H) as (k & -> & Hk).
  intros k' Hk' Heq. apply pause_id_inj in Heq. lia.
Qed.

Lemma pause_snapshot_is_kept_witness :
  pauseMap (step Sample.started (Sample.resumeTo 2)) !! "p1"
  = Some (Sample.pauseAt 0).
Proof.
  apply (pause_snapshot_is_kept Sample.started (Sample.resumeTo 2) "p1"
           (Sample.pauseAt 0));
    [by exists [Sample.start]|reflexivity|by eexists].
Defined.

(** ** What the parts of a handler leave alone *)

Lemma controlScopes_frame g chain s :
  let s' := (controlScopes g chain s).1 in
  nodeDebugClient s' = nodeDebugClient s ∧ nodeProcess s' = nodeProcess s ∧
  scriptIdToUrl s' = scriptIdToUrl s ∧ consoleMessages s' = consoleMessages s ∧
  lastPausedParams s' = lastPausedParams s ∧ pauseCounter s' = pauseCounter s ∧
  pauseMap s' = pauseMap s ∧ currentPauseId s' = currentPauseId s.
Proof.
  revert s. induction chain as [|sc rest IH]; intros s; simpl; [done|].
  destruct (object sc ≫= objectId) as [oid|]; [|apply IH].
  destruct (JsString.truthy oid); [|apply IH].
  destruct (g oid) as [props|m]; simpl; [|done].
  specialize (IH (log (Sent (GetProperties oid)) s)).
  by destruct (controlScopes g rest _) as [s' [scopes|m]].
Qed.

Lemma inspectScopes_frame n g chain s :
  let s' := (inspectScopes n g chain s).1 in
  nodeDebugClient s' = nodeDebugClient s ∧ nodeProcess s' = nodeProcess s ∧
  scriptIdToUrl s' = scriptIdToUrl s ∧ consoleMessages s' = consoleMessages s ∧
  lastPausedParams s' = lastPausedParams s ∧ pauseCounter s' = pauseCounter s ∧
  pauseMap s' = pauseMap s ∧ currentPauseId s' = currentPauseId s.
Proof.
  revert s. induction chain as [|sc rest IH]; intros s; simpl; [done|].
  destruct (object sc ≫= objectId) as [oid|]; [|apply IH].
  destruct (JsString.truthy oid); [|apply IH].
  destruct (g oid) as [props|m]; simpl; [|done].
  specialize (IH (log (Sent (GetProperties oid)) s)).
  by destruct (inspectScopes n g rest _) as [s' [scopes|m]].
Qed.

Lemma foldl_runListener_frame ev ls s :
  let s' := foldl (runListener ev) s ls in
  nodeDebugClient s' = nodeDebugClient s ∧ nodeProcess s' = nodeProcess s ∧
  scriptIdToUrl s' = scriptIdToUrl s ∧ consoleMessages s' = consoleMessages s.
Proof.
  revert s. induction ls as [|l ls IH]; intros s; simpl; [done|].
  destruct (IH (runListener ev s l)) as (-> & -> & -> & ->). by destruct l.
Qed.

Lemma onPaused_frame ev s :
  let s' := onPaused ev s in
  nodeDebugClient s' = nodeDebugClient s ∧ nodeProcess s' = nodeProcess s ∧
  scriptIdToUrl s' = scriptIdToUrl s ∧ consoleMessages s' = consoleMessages s.
Proof.
  unfold onPaused. destruct (nodeDebugClient s) eqn:E; [|done].
  destruct (foldl_runListener_frame ev (pausedListeners c) s) as (H1 & H2 & H3 & H4).
  by rewrite H1, H2, H3, H4.
Qed.

Lemma addPausedListener_frame l s :
  let s' := addPausedListener l s in
  (is_Some (nodeDebugClient s') ↔ is_Some (nodeDebugClient s)) ∧
  nodeProcess s' = nodeProcess s ∧
  scriptIdToUrl s' = scriptIdToUrl s ∧ consoleMessages s' = consoleMessages s ∧
  lastPausedParams s' = lastPausedParams s ∧ trace s' = trace s.
Proof.
  unfold addPausedListener. destruct (nodeDebugClient s) eqn:E; simpl; [|by rewrite E].
  repeat split; try done; by eexists.
Qed.

Lemma deliver_frame e s :
  let s' := deliver e s in
  nodeDebugClient s' = nodeDebugClient s ∧ nodeProcess s' = nodeProcess s ∧
  trace s' = trace s ∨ ∃ ev, e = Paused ev.
Proof.
  destruct e as [i|ev]; [left|by right; eexists].
  unfold deliver. destruct (nodeDebugClient s) eqn:E; [|by rewrite E].
  case_match; [|by rewrite E]. rewrite <- E.
  destruct i; simpl; [unfold onScriptParsed; by case_match|done].
Qed.

(** ** Client and child process *)

(** Rewrites the client and the process of a state the parts of a handler
    built back to those of the state they started from. *)
Ltac frame_step :=
  match goal with
  | H : controlScopes ?g ?c ?x = (?y, _) |- _ =>
      let F := fresh in
      pose proof (controlScopes_frame g c x) as F;
      rewrite H in F; cbn [fst] in F;
      destruct F as (-> & -> & _); clear H
  | H : inspectScopes ?n ?g ?c ?x = (?y, _) |- _ =>
      let F := fresh in
      pose proof (inspectScopes_frame n g c x) as F;
      rewrite H in F; cbn [fst] in F;
      destruct F as (-> & -> & _); clear H
  | |- context [nodeDebugClient (onPaused ?ev ?x)] =>
      rewrite (proj1 (onPaused_frame ev x))
  | |- context [nodeProcess (onPaused ?ev ?x)] =>
      rewrite (proj1 (proj2 (onPaused_frame ev x)))
  | |- context [nodeProcess (addPausedListener ?l ?x)] =>
      rewrite (proj1 (proj2 (addPausedListener_frame l x)))
  | |- context [is_Some (nodeDebugClient (addPausedListener ?l ?x))] =>
      rewrite (proj1 (addPausedListener_frame l x))
  | |- _ => progress simpl
  end.

Lemma process_setByLocator fp re line col cond kind failed w s :
  let s' := (setByLocator fp re line col cond kind failed w s).1 in
  nodeDebugClient s' = nodeDebugClient s ∧ nodeProcess s' = nodeProcess s.
Proof. unfold setByLocator. by repeat case_match. Qed.

Ltac close_process Ec :=
  cbn [fst]; repeat frame_step; rewrite ?Ec; simpl;
  first [done | by intros [? ?] | by eexists | by auto].

Lemma client_needs_process_step i s :
  (is_Some (nodeDebugClient s) → is_Some (nodeProcess s)) →
  is_Some (nodeDebugClient (step s i)) → is_Some (nodeProcess (step s i)).
Proof.
  intros Hinv. destruct i as [c|e].
  - destruct c; simpl.
    + unfold start_node_debug. cbv zeta.
      destruct (nodeDebugClient s) eqn:Ec; simpl; [by rewrite Ec|].
      destruct w; simpl; try by eexists.
      intros _.
      destruct (foldl_onIntake_frame intake
                  (installIntake
                     (set_consoleMessages []
                        (set_scriptIdToUrl []
                           (log (Sent RunIfWaitingForDebugger)
                              (log (Sent RuntimeEnable)
                                 (log (Sent DebuggerEnable)
                                    (connect
                                       (log (Spawned scriptPath)
                                          (set_nodeProcess
                                             (Some {| script := scriptPath |})
                                             s)))))))))) as (_ & Hp & _).
      destruct (callFrames pausedEvent); simpl;
        rewrite (proj1 (proj2 (onPaused_frame _ _))), Hp;
        unfold installIntake; simpl; by eexists.
    + unfold set_breakpoint.
      destruct (nodeDebugClient s) eqn:Ec; repeat case_match; close_process Ec.
    + unfold set_breakpoint_condition.
      destruct (nodeDebugClient s) eqn:Ec; [|close_process Ec].
      destruct (process_setByLocator filePath urlRegex line column condition
                  None "Error: Failed to set conditional breakpoint - " w s)
        as [-> ->]. close_process Ec.
    + unfold add_logpoint.
      destruct (nodeDebugClient s) eqn:Ec; [|close_process Ec].
      destruct (process_setByLocator filePath urlRegex line column
                  (Logpoint.toCondition message) (Some "logpoint")
                  "Error: Failed to add logpoint - " w s) as [-> ->].
      close_process Ec.
    + unfold set_exception_breakpoints.
      destruct (nodeDebugClient s) eqn:Ec; repeat case_match; close_process Ec.
    + unfold blackbox_scripts.
      destruct (nodeDebugClient s) eqn:Ec; repeat case_match; close_process Ec.
    + done.
    + unfold get_script_source.
      destruct (nodeDebugClient s) eqn:Ec; repeat case_match; close_process Ec.
    + unfold continue_to_location. cbv zeta.
      destruct (nodeDebugClient s) eqn:Ec; repeat case_match; close_process Ec.
    + unfold restart_frame, noPauseState. cbv zeta.
      destruct (nodeDebugClient s) eqn:Ec; repeat case_match; close_process Ec.
    + unfold get_object_properties.
      destruct (nodeDebugClient s) eqn:Ec; repeat case_match; close_process Ec.
    + done.
    + unfold control, pauseBranch, exitBranch. cbv zeta.
      destruct (nodeDebugClient s) eqn:Ec; repeat case_match; close_process Ec.
    + unfold evaluate_expression, noPauseState.
      destruct (nodeDebugClient s) eqn:Ec; repeat case_match; close_process Ec.
    + unfold inspect_scopes, noPauseState. cbv zeta.
      destruct (nodeDebugClient s) eqn:Ec; repeat case_match; close_process Ec.
    + unfold list_call_stack, noPauseState.
      destruct (nodeDebugClient s) eqn:Ec; repeat case_match; close_process Ec.
    + unfold get_pause_info. repeat case_match; simpl; done.
    + change (is_Some (nodeDebugClient (stop_debug_session s).1)
              → is_Some (nodeProcess (stop_debug_session s).1)).
      destruct (stop_debug_session_clears s) as (Hc & _).
      rewrite Hc. by intros [? ?].
  - simpl. destruct e as [i|ev].
    + destruct (deliver_frame (Intake i) s) as [(-> & -> & _)|[? ?]]; done.
    + unfold deliver. destruct (nodeDebugClient s) eqn:E; [|by rewrite E].
      rewrite (proj1 (onPaused_frame ev s)), (proj1 (proj2 (onPaused_frame ev s))).
      by rewrite E.
Qed.

(** X4. In every state the server can reach, a client is there only while
    the handle of a child process is: the exit branch of the step and
    resume handlers always finds a process to read the exit code of. *)
Theorem client_needs_process (s : state) :
  reachable s →
  is_Some (nodeDebugClient s) →
  is_Some (nodeProcess s).
Proof.
  intros [tr ->]. revert tr. apply (rev_ind (λ tr, _ → _)).
  - by intros [? ?].
  - intros i tr IH. unfold run. rewrite foldl_app. simpl.
    by apply client_needs_process_step.
Qed.

Lemma client_needs_process_witness : is_Some (nodeProcess Sample.started).
Proof.
  apply (client_needs_process Sample.started);
    [by exists [Sample.start]|by eexists].
Defined.

(** ** A pause reported by a tool can be inspected *)

Lemma truthy_pause_id k : JsString.truthy (pause_id k) = true.
Proof. done. Qed.

Lemma summarizeFrame_ext s s' f :
  scriptIdToUrl s = scriptIdToUrl s' → summarizeFrame s f = summarizeFrame s' f.
Proof. intros H. unfold summarizeFrame, frameUrl. by rewrite H. Qed.

Lemma mints_snoc ls : mints (ls ++ [MintPause]) = S (mints ls).
Proof. induction ls as [|[] ls IH]; simpl; [done|done|by rewrite IH]. Qed.

(** The state a paused event leaves when the client holds the minting
    listener a handler has just registered. *)
Lemma registered_pause s c e ev :
  nodeDebugClient s = Some c →
  let s1 := onPaused ev (log e (addPausedListener MintPause s)) in
  lastPausedParams s1 = Some ev ∧
  currentPauseId s1 = Some (pause_id (pauseCounter s1)) ∧
  pauseMap s1 !! pause_id (pauseCounter s1) = Some ev ∧
  scriptIdToUrl s1 = scriptIdToUrl s.
Proof.
  intros Hc. unfold onPaused, addPausedListener. rewrite Hc. simpl.
  set (s0 := log e _).
  destruct (foldl_runListener_spec ev (pausedListeners c ++ [MintPause]) s0)
    as (Hn & Hin & _ & Hcur & Hlast).
  destruct (foldl_runListener_frame ev (pausedListeners c ++ [MintPause]) s0)
    as (_ & _ & Hs & _).
  rewrite mints_snoc in Hn, Hin, Hcur.
  split; [apply Hlast; by destruct (pausedListeners c)|].
  rewrite Hn. split; [apply Hcur; lia|]. split; [apply Hin; lia|].
  by rewrite Hs.
Qed.

Lemma inspect_minted_pause s id ev top rest :
  lastPausedParams s = Some ev →
  pauseMap s !! id = Some ev →
  JsString.truthy id = true →
  callFrames ev = top :: rest →
  get_pause_info (Some id) s
  = (s, Content (PauseInfoPayload (reason ev) (Some id) (summarizeFrame s top)
                   (scope_type <$> scopeChain top))).
Proof.
  intros Hl Hm Ht Hf. unfold get_pause_info, selectPause.
  rewrite Hl, Ht, Hm, Hf. simpl. by rewrite Ht.
Qed.

(** X5. When an execution-control tool answers with a pause, the pause id
    of the answer is the current pause id, the catalog holds under it the
    event of the call, and [get_pause_info] asked for that id right after
    answers with the same frame summary as the tool did. *)
Theorem reported_pause_is_inspectable (c : call) (s s' : state)
    (status : string) (pauseId : option string) (frame : FrameSummary)
    (consoleOutput : option (list string))
    (stack : option (list FrameSummary))
    (scopes : option (list (ScopeEntry ScopeVariable))) :
  handle c s
  = (s', Content (PausePayload status pauseId frame consoleOutput stack scopes)) →
  ∃ ev id top,
    callEvent c = Some ev ∧ head (callFrames ev) = Some top ∧
    pauseId = Some id ∧ currentPauseId s' = Some id ∧
    pauseMap s' !! id = Some ev ∧
    get_pause_info pauseId s'
    = (s', Content (PauseInfoPayload (reason ev) pauseId frame
                      (scope_type <$> scopeChain top))).
Proof.
  intros H. destruct c; simpl in H.
  all: try (unfold start_node_debug, set_breakpoint, set_breakpoint_condition,
              add_logpoint, setByLocator, set_exception_breakpoints,
              blackbox_scripts, list_scripts, get_script_source,
              get_object_properties, read_console, evaluate_expression,
              inspect_scopes, list_call_stack, get_pause_info,
              stop_debug_session in H;
            cbv zeta in H; repeat case_match; simplify_eq; fail).
  - (* continue_to_location *)
    unfold continue_to_location in H. cbv zeta in H.
    destruct (nodeDebugClient s) as [cl|] eqn:Ec; [|done].
    destruct (findScriptId _ _) as [sid|]; [|done].
    destruct (negb _); [done|].
    destruct (commandReply w); [|done].
    destruct (race w) as [ev|code] eqn:Er; [|done].
    destruct (callFrames ev) as [|top rest] eqn:Ef; [done|].
    match type of H with
    | context [onPaused ev (log ?e (addPausedListener MintPause s))] =>
        destruct (registered_pause s cl e ev Ec) as (Hl & Hi & Hm & Hs);
        set (s1 := onPaused ev (log e (addPausedListener MintPause s))) in *;
        clearbody s1
    end.
    rewrite Hi in H. simplify_eq. eexists ev, _, top.
    split; [simpl; by rewrite Er|]. split; [by rewrite Ef|].
    split; [done|]. split; [done|]. split; [done|].
    by apply (inspect_minted_pause _ _ ev top rest).
  - (* restart_frame *)
    unfold restart_frame, noPauseState in H. cbv zeta in H.
    destruct (nodeDebugClient s) as [cl|] eqn:Ec; [|done].
    destruct (lastPausedParams s); [|done].
    destruct (selectPause _ _) as [pause|]; [|by destruct (inheritedMember _)].
    destruct (callFrames pause !! frameIndex) as [fr|]; [|done].
    match type of H with
    | context [match ?r with Fulfilled _ => _ | Rejected _ => _ end] =>
        destruct r; [|done]
    end.
    match type of H with
    | context [onPaused ?n _] => rename n into next'
    end.
    destruct (callFrames next') as [|top rest] eqn:Ef; [done|].
    match type of H with
    | context [onPaused next' (log ?e (addPausedListener MintPause s))] =>
        destruct (registered_pause s cl e next' Ec) as (Hl & Hi & Hm & Hs);
        set (s1 := onPaused next' (log e (addPausedListener MintPause s))) in *;
        clearbody s1
    end.
    rewrite Hi in H. simplify_eq. eexists next', _, top.
    split; [done|]. split; [by rewrite Ef|].
    split; [done|]. split; [done|]. split; [done|].
    by apply (inspect_minted_pause _ _ next' top rest).
  - (* resume_execution, step_over, step_into, step_out *)
    unfold control in H. cbv zeta in H.
    destruct (nodeDebugClient s) as [cl|] eqn:Ec; [|done].
    destruct (commandReply w); [|done].
    destruct (race w) as [ev|code] eqn:Er;
      [|unfold exitBranch in H; by destruct (clearsPauses t)].
    unfold pauseBranch in H. cbv zeta in H.
    destruct (callFrames ev) as [|top rest] eqn:Ef; [done|].
    match type of H with
    | context [onPaused ev (log ?e (addPausedListener MintPause s))] =>
        destruct (registered_pause s cl e ev Ec) as (Hl & Hi & Hm & Hs);
        set (s1 := onPaused ev (log e (addPausedListener MintPause s))) in *;
        clearbody s1
    end.
    rewrite Hi in H.
    match type of H with
    | context [isTrue (includeScopes ?o)] => destruct (isTrue (includeScopes o))
    end.
    + destruct (controlScopes _ _ _) as [s2 [sc|m]] eqn:Esc; [|done].
      pose proof (controlScopes_frame (getProperties w) (scopeChain top)
                    (set_consoleMessages [] s1)) as F.
      rewrite Esc in F. cbn [fst] in F.
      destruct F as (_ & _ & Fs & _ & Fl & Fc & Fm & Fi). simpl in Fs, Fl, Fc, Fm, Fi.
      simplify_eq. eexists ev, _, top.
      split; [simpl; by rewrite Er|]. split; [by rewrite Ef|].
      split; [done|]. split; [congruence|]. split; [congruence|].
      rewrite (inspect_minted_pause s' _ ev top rest); try congruence; [|done].
      do 3 f_equal. by apply summarizeFrame_ext.
    + simplify_eq. eexists ev, _, top.
      split; [simpl; by rewrite Er|]. split; [by rewrite Ef|].
      split; [done|]. split; [done|]. split; [done|].
      by apply (inspect_minted_pause (set_consoleMessages [] s1) _ ev top rest).
Qed.

Lemma reported_pause_is_inspectable_witness :
  ∃ ev id top,
    callEvent (Control ResumeExecution Sample.noOptions
                 (Sample.world (PauseWins (Sample.pauseAt 2)))) = Some ev ∧
    head (callFrames ev) = Some top ∧
    Some "p2" = Some id ∧
    currentPauseId (step Sample.started (Sample.resumeTo 2)) = Some id ∧
    pauseMap (step Sample.started (Sample.resumeTo 2)) !! id = Some ev ∧
    get_pause_info (Some "p2") (step Sample.started (Sample.resumeTo 2))
    = (step Sample.started (Sample.resumeTo 2),
       Content (PauseInfoPayload (reason ev) (Some "p2")
                  (summarizeFrame Sample.started (Sample.frameAt 2))
                  (scope_type <$> scopeChain top))).
Proof.
  apply (reported_pause_is_inspectable
           (Control ResumeExecution Sample.noOptions
              (Sample.world (PauseWins (Sample.pauseAt 2))))
           Sample.started (step Sample.started (Sample.resumeTo 2))
           "Paused at file:///app/sample.js:3 (reason: other)"
           (Some "p2") (summarizeFrame Sample.started (Sample.frameAt 2))
           None None None).
  vm_compute. reflexivity.
Defined.

(** ** The first pause of a session *)

Lemma start_reports_first_pause_core (scriptPath : string) (w : StartWorld)
    (s s' : state) (status : string) (pauseId : option string)
    (frame : FrameSummary) :
  start_node_debug scriptPath w s
  = (s', Content (StartPayload status pauseId frame)) →
  ∃ intake ev top,
    w = Attached intake ev ∧ head (callFrames ev) = Some top ∧
    pauseId = Some (pause_id (S (pauseCounter s))) ∧
    currentPauseId s' = pauseId ∧
    pauseMap s' = <[pause_id (S (pauseCounter s)) := ev]> (pauseMap s) ∧
    consoleMessages s' = [] ∧
    get_pause_info None s'
    = (s', Content (PauseInfoPayload (reason ev) pauseId frame
                      (scope_type <$> scopeChain top))).
Proof.
  intros H. unfold start_node_debug in H. cbv zeta in H.
  destruct (nodeDebugClient s) eqn:Ec; [done|].
  destruct w as [|m|m|m|intake ev]; try done.
  destruct (callFrames ev) as [|top rest] eqn:Ef; [done|].
  match type of H with
  | context [foldl (λ s e, onIntake e s) ?x intake] =>
      destruct (foldl_onIntake_frame intake x) as (Fc & _ & _ & Fm & Fi & Fn);
      set (s1 := foldl (λ s e, onIntake e s) x intake) in *
  end.
  simpl in Fc, Fm, Fi, Fn. unfold installIntake in Fc. simpl in Fc.
  assert (E : onPaused ev s1 = set_lastPausedParams (Some ev) s1).
  { unfold onPaused. by rewrite Fc. }
  rewrite E in H. clearbody s1. simplify_eq.
  exists intake, ev, top. rewrite Ef. simpl. rewrite Fn, Fm.
  repeat split; try done.
  unfold get_pause_info. simpl. rewrite Ef. simpl. by rewrite ?Fn.
Qed.

(** X6. When [start_node_debug] answers with a pause, the pause id of the
    answer is the one after the pause counter, the catalog holds the first
    paused event under it, the console buffer is empty, and
    [get_pause_info] asked without pause id right after answers with the
    same pause id and the same frame summary. *)
Theorem start_reports_first_pause (scriptPath : string) (w : StartWorld)
    (s s' : state) (status : string) (pauseId : option string)
    (frame : FrameSummary) :
  start_node_debug scriptPath w s
  = (s', Content (StartPayload status pauseId frame)) →
  ∃ intake ev top,
    w = Attached intake ev ∧ head (callFrames ev) = Some top ∧
    pauseId = Some (pause_id (S (pauseCounter s))) ∧
    currentPauseId s' = pauseId ∧
    pauseMap s' = <[pause_id (S (pauseCounter s)) := ev]> (pauseMap s) ∧
    consoleMessages s' = [] ∧
    get_pause_info None s'
    = (s', Content (PauseInfoPayload (reason ev) pauseId frame
                      (scope_type <$> scopeChain top))).
Proof. apply start_reports_first_pause_core. Qed.

Lemma start_reports_first_pause_witness :
  ∃ intake ev top,
    Attached [] (Sample.pauseAt 0) = Attached intake ev ∧
    head (callFrames ev) = Some top ∧
    Some "p1" = Some (pause_id (S (pauseCounter initial))) ∧
    currentPauseId Sample.started = Some "p1" ∧
    pauseMap Sample.started
    = <[pause_id (S (pauseCounter initial)) := ev]> (pauseMap initial) ∧
    consoleMessages Sample.started = [] ∧
    get_pause_info None Sample.started
    = (Sample.started,
       Content (PauseInfoPayload (reason ev) (Some "p1")
                  (summarizeFrame initial (Sample.frameAt 0))
                  (scope_type <$> scopeChain top))).
Proof.
  apply (start_reports_first_pause "/app/sample.js"
           (Attached [] (Sample.pauseAt 0)) initial Sample.started
           "Debugger attached. Paused at file:///app/sample.js:1 (reason: other)."
           (Some "p1") (summarizeFrame initial (Sample.frameAt 0))).
  vm_compute. reflexivity.
Defined.

(** ** Stopping *)

(** X7. [stop_debug_session] called again right after itself changes
    nothing, not even the history of effects, and gives the same answer:
    there is nothing left to kill or to close. *)
Theorem stop_twice_is_stable (s : state) :
  stop_debug_session (stop_debug_session s).1
  = ((stop_debug_session s).1, Plain "Debug session terminated.") ∧
  (stop_debug_session s).2 = Plain "Debug session terminated.".
Proof.
  split; [|done].
  destruct (stop_debug_session_clears s)
    as (Hc & Hp & Hs & Hm & Hl & Hmap & Hi & Hn).
  destruct (stop_debug_session s) as [s0 r]. simpl in *.
  unfold stop_debug_session. rewrite Hp, Hc. destruct s0. simpl in *.
  by subst.
Qed.

(** X8. After [stop_debug_session] the next successful [start_node_debug]
    answers with the pause id [p1], and the pause catalog then holds that
    one pause and nothing of the session before. *)
Theorem first_pause_after_stop_is_p1 (scriptPath : string) (w : StartWorld)
    (s s' : state) (status : string) (pauseId : option string)
    (frame : FrameSummary) :
  start_node_debug scriptPath w (stop_debug_session s).1
  = (s', Content (StartPayload status pauseId frame)) →
  pauseId = Some "p1" ∧
  ∃ intake ev, w = Attached intake ev ∧ pauseMap s' = {["p1" := ev]}.
Proof.
  intros H.
  destruct (stop_debug_session_clears s) as (_ & _ & _ & _ & _ & Hmap & _ & Hn).
  apply start_reports_first_pause_core in H
    as (intake & ev & top & -> & _ & -> & _ & Hm & _).
  rewrite Hn, Hmap in *. split; [done|]. by exists intake, ev.
Qed.

Lemma first_pause_after_stop_is_p1_witness :
  Some "p1" = Some "p1" ∧
  ∃ intake ev,
    Attached [] (Sample.pauseAt 4) = Attached intake ev ∧
    pauseMap (start_node_debug "/app/sample.js" (Attached [] (Sample.pauseAt 4))
                (stop_debug_session
                   (run initial [Sample.start; Sample.resumeTo 2])).1).1
    = {["p1" := ev]}.
Proof.
  apply (first_pause_after_stop_is_p1 "/app/sample.js"
           (Attached [] (Sample.pauseAt 4))
           (run initial [Sample.start; Sample.resumeTo 2]) _
           "Debugger attached. Paused at file:///app/sample.js:5 (reason: other)."
           (Some "p1") (summarizeFrame initial (Sample.frameAt 4))).
  vm_compute. reflexivity.
Defined.

(** ** After the exit of the target *)

Lemma startFailed_not_active (cause : string) :
  startFailed cause ≠ Failure SESSION_ACTIVE.
Proof. intros E. cbv in E. discriminate. Qed.

Lemma no_session_responses (s0 : state) (c : call) :
  nodeDebugClient s0 = None → lastPausedParams s0 = None →
  scriptIdToUrl s0 = [] → consoleMessages s0 = [] →
  match c with
  | StartNodeDebug _ _ | StopDebugSession => True
  | ListScripts => (handle c s0).2 = Content (ScriptsPayload [])
  | ReadConsole => (handle c s0).2 = Content (ConsolePayload [])
  | RestartFrameCall _ _ _ _ | EvaluateExpression _ _ _ _ _
  | InspectScopes _ _ _ _ _ | ListCallStack _ _ _ | GetPauseInfo _ =>
      (handle c s0).2 = Failure NO_PAUSE
  | _ => (handle c s0).2 = Failure NO_SESSION
  end.
Proof.
  intros Hc Hl Hs Hm. destruct c; simpl; try done.
  - unfold set_breakpoint. by rewrite Hc.
  - unfold set_breakpoint_condition. by rewrite Hc.
  - unfold add_logpoint. by rewrite Hc.
  - unfold set_exception_breakpoints. by rewrite Hc.
  - unfold blackbox_scripts. by rewrite Hc.
  - unfold list_scripts. simpl. by rewrite Hs.
  - unfold get_script_source. by rewrite Hc.
  - unfold continue_to_location. by rewrite Hc.
  - unfold restart_frame, noPauseState. by rewrite Hc.
  - unfold get_object_properties. by rewrite Hc.
  - unfold read_console. simpl. by rewrite Hm.
  - unfold control. by rewrite Hc.
  - unfold evaluate_expression, noPauseState. by rewrite Hc.
  - unfold inspect_scopes, noPauseState. by rewrite Hc.
  - unfold list_call_stack, noPauseState. by rewrite Hc.
  - unfold get_pause_info. by rewrite Hl.
Qed.

(** X9. Once [resume_execution], [step_over], [step_into] or [step_out]
    has ended with the exit of the target, the session is over for every
    tool: those that talk to the target answer with the no-session error,
    those that need a pause with the no-pause error, [list_scripts] and
    [read_console] with an empty list, and [start_node_debug] is accepted
    again. *)
Theorem session_is_over_after_exit (t : ControlTool) (o : ControlOptions)
    (w : ControlWorld) (s : state) (cl : Client) (code : option Z) (c : call) :
  nodeDebugClient s = Some cl →
  commandReply w = Fulfilled () →
  race w = ExitWins code →
  let s0 := (control t o w s).1 in
  match c with
  | StartNodeDebug _ _ => (handle c s0).2 ≠ Failure SESSION_ACTIVE
  | StopDebugSession => True
  | ListScripts => (handle c s0).2 = Content (ScriptsPayload [])
  | ReadConsole => (handle c s0).2 = Content (ConsolePayload [])
  | RestartFrameCall _ _ _ _ | EvaluateExpression _ _ _ _ _
  | InspectScopes _ _ _ _ _ | ListCallStack _ _ _ | GetPauseInfo _ =>
      (handle c s0).2 = Failure NO_PAUSE
  | _ => (handle c s0).2 = Failure NO_SESSION
  end.
Proof.
  intros Hc Hr Hw s0.
  assert (H0 : nodeDebugClient s0 = None ∧ lastPausedParams s0 = None ∧
               scriptIdToUrl s0 = [] ∧ consoleMessages s0 = []).
  { unfold s0, control, exitBranch. rewrite Hc, Hr, Hw.
    by destruct t. }
  clearbody s0. destruct H0 as (H1 & H2 & H3 & H4).
  pose proof (no_session_responses s0 c H1 H2 H3 H4) as H.
  destruct c; try exact H.
  simpl. unfold start_node_debug. rewrite H1. cbv zeta.
  repeat case_match; simpl; try apply startFailed_not_active; done.
Qed.

Lemma session_is_over_after_exit_witness :
  (handle (SetBreakpoint "/app/sample.js" 3%Z (Fulfilled Sample.breakpoint))
     (control StepOverTool Sample.noOptions (Sample.world (ExitWins (Some 0%Z)))
        Sample.started).1).2
  = Failure NO_SESSION.
Proof.
  exact (session_is_over_after_exit StepOverTool Sample.noOptions
           (Sample.world (ExitWins (Some 0%Z))) Sample.started
           {| pausedListeners := [RecordPause]; intakeListeners := true |}
           (Some 0%Z)
           (SetBreakpoint "/app/sample.js" 3%Z (Fulfilled Sample.breakpoint))
           eq_refl eq_refl eq_refl).
Defined.

(** ** The console buffer *)

(** X10. The console messages the target emits during a session are
    buffered in the order they come, behind those already buffered, and
    [read_console] hands the buffer over once: a second [read_console]
    right after finds it empty. *)
Theorem console_is_read_in_order_and_once (s : state) (cl : Client)
    (es : list (string * list RemoteObject)) :
  nodeDebugClient s = Some cl →
  intakeListeners cl = true →
  let s' := foldl (λ a e, deliver (Intake (ConsoleAPICalled e.1 e.2)) a) s es in
  (read_console s').2
  = Content (ConsolePayload
               (consoleMessages s
                ++ ((λ e, "[" +:+ e.1 +:+ "] "
                            +:+ JsString.join " " (consoleArg <$> e.2)) <$> es))) ∧
  (read_console (read_console s').1).2 = Content (ConsolePayload []).
Proof.
  intros Hc Hi. cbv zeta. split; [|done].
  unfold read_console. cbn [snd]. do 2 f_equal.
  revert s Hc. induction es as [|e es IH]; intros s Hc; simpl.
  - by rewrite app_nil_r.
  - rewrite IH by (by rewrite client_deliver).
    unfold deliver. rewrite Hc, Hi. simpl. by rewrite <- app_assoc.
Qed.

Lemma console_is_read_in_order_and_once_witness :
  (read_console
     (foldl (λ a e, deliver (Intake (ConsoleAPICalled e.1 e.2)) a)
        Sample.started
        [("log", [{| type := "string"; value := Some (JStr "x=1");
                     description := None; className := None;
                     objectId := None |};
                  {| type := "number"; value := Some (JNum 2);
                     description := Some "2"; className := None;
                     objectId := None |}]);
         ("warn", [])])).2
  = Content (ConsolePayload ["[log] x=1 2"; "[warn] "]).
Proof.
  destruct (console_is_read_in_order_and_once Sample.started
              {| pausedListeners := [RecordPause]; intakeListeners := true |}
              [("log", [{| type := "string"; value := Some (JStr "x=1");
                           description := None; className := None;
                           objectId := None |};
                        {| type := "number"; value := Some (JNum 2);
                           description := Some "2"; className := None;
                           objectId := None |}]);
               ("warn", [])] eq_refl eq_refl) as [H _].
  exact H.
Defined.

(** ** The script catalog *)

(** The catalog lists array indices first and in ascending order, the
    other keys after them in the order they came; a key set again keeps
    its place. *)
Example catalog_set_key_order :
  foldl (λ m kv, catalog_set m kv.1 kv.2) []
    [("10", "a"); ("9", "b"); ("x", "c"); ("2", "d"); ("01", "e"); ("9", "z")]
  = [("2", "d"); ("9", "z"); ("10", "a"); ("x", "c"); ("01", "e")].
Proof. reflexivity. Qed.

Lemma catalog_get_None m k : catalog_get m k = None → k ∉ m.*1.
Proof.
  induction m as [|[k0 v0] m IH]; simpl; [intros _; apply not_elem_of_nil|].
  destruct (decide (k0 = k)) as [->|Hne]; [done|].
  intros H [E|Hin]%elem_of_cons; [by apply Hne|by apply IH].
Qed.

Lemma catalog_update_keys m k v : (catalog_update m k v).*1 = m.*1.
Proof.
  induction m as [|[k0 v0] m IH]; simpl; [done|].
  destruct (decide (k0 = k)) as [->|Hne]; simpl; [done|f_equal; exact IH].
Qed.

Lemma catalog_add_keys m k v k' :
  k' ∈ (catalog_add m k v).*1 → k' = k ∨ k' ∈ m.*1.
Proof.
  induction m as [|[k0 v0] m IH]; simpl.
  - intros ->%list_elem_of_singleton. by left.
  - destruct (keyBefore k k0); simpl.
    + intros [->|H]%elem_of_cons; [by left|by right].
    + intros [->|H]%elem_of_cons; [right; by left|].
      destruct (IH H) as [->|H']; [by left|right; by right].
Qed.

Lemma catalog_get_update_eq m k v :
  is_Some (catalog_get m k) → catalog_get (catalog_update m k v) k = Some v.
Proof.
  induction m as [|[k0 v0] m IH]; simpl; [by intros [? ?]|].
  destruct (decide (k0 = k)) as [->|Hne]; simpl.
  - by rewrite decide_True.
  - by rewrite decide_False.
Qed.

Lemma catalog_get_update_ne m k v k' :
  k ≠ k' → catalog_get (catalog_update m k v) k' = catalog_get m k'.
Proof.
  intros Hne. induction m as [|[k0 v0] m IH]; simpl; [done|].
  destruct (decide (k0 = k)) as [->|Hk]; simpl.
  - by rewrite !decide_False.
  - destruct (decide (k0 = k')); [done|apply IH].
Qed.

Lemma catalog_get_add_eq m k v :
  catalog_get m k = None → catalog_get (catalog_add m k v) k = Some v.
Proof.
  induction m as [|[k0 v0] m IH]; simpl.
  - by rewrite decide_True.
  - destruct (decide (k0 = k)) as [->|Hne]; [done|]. intros H.
    destruct (keyBefore k k0); simpl.
    + by rewrite decide_True.
    + rewrite decide_False by done. by apply IH.
Qed.

Lemma catalog_get_add_ne m k v k' :
  k ≠ k' → catalog_get (catalog_add m k v) k' = catalog_get m k'.
Proof.
  intros Hne. induction m as [|[k0 v0] m IH]; simpl.
  - by rewrite decide_False.
  - destruct (keyBefore k k0); simpl.
    + by rewrite decide_False.
    + destruct (decide (k0 = k')); [done|apply IH].
Qed.

Lemma catalog_get_set_eq m k v : catalog_get (catalog_set m k v) k = Some v.
Proof.
  unfold catalog_set. destruct (catalog_get m k) as [u|] eqn:E.
  - apply catalog_get_update_eq. by rewrite E.
  - by apply catalog_get_add_eq.
Qed.

Lemma catalog_get_set_ne m k v k' :
  k ≠ k' → catalog_get (catalog_set m k v) k' = catalog_get m k'.
Proof.
  intros Hne. unfold catalog_set. destruct (catalog_get m k) as [u|].
  - by apply catalog_get_update_ne.
  - by apply catalog_get_add_ne.
Qed.

Lemma catalog_set_keys m k v k' :
  k' ∈ (catalog_set m k v).*1 → k' = k ∨ k' ∈ m.*1.
Proof.
  unfold catalog_set. destruct (catalog_get m k) as [u|].
  - rewrite catalog_update_keys. by right.
  - apply catalog_add_keys.
Qed.

Lemma catalog_update_truthy m k v :
  JsString.truthy v = true →
  Forall (λ kv, JsString.truthy kv.2 = true) m →
  Forall (λ kv, JsString.truthy kv.2 = true) (catalog_update m k v).
Proof.
  intros Hv. induction 1 as [|[k0 v0] m H0 Hall IH]; simpl; [constructor|].
  destruct (decide (k0 = k)); by constructor.
Qed.

Lemma catalog_add_truthy m k v :
  JsString.truthy v = true →
  Forall (λ kv, JsString.truthy kv.2 = true) m →
  Forall (λ kv, JsString.truthy kv.2 = true) (catalog_add m k v).
Proof.
  intros Hv. induction 1 as [|[k0 v0] m H0 Hall IH]; simpl.
  - by repeat constructor.
  - destruct (keyBefore k k0); repeat (constructor; try done).
Qed.

Lemma catalog_add_NoDup m k v :
  k ∉ m.*1 → NoDup m.*1 → NoDup (catalog_add m k v).*1.
Proof.
  induction m as [|[k0 v0] m IH]; simpl; intros Hk Hnd.
  - apply NoDup_singleton.
  - apply NoDup_cons in Hnd as [Hnin Hnd].
    destruct (keyBefore k k0); simpl.
    + apply NoDup_cons. split; [done|]. by apply NoDup_cons.
    + apply NoDup_cons. split.
      * intros [->|H]%catalog_add_keys; [|done]. apply Hk. by left.
      * apply IH; [|done]. intros H. apply Hk. by right.
Qed.

Lemma catalogWellFormed_set m k v :
  JsString.truthy v = true →
  catalogWellFormed m → catalogWellFormed (catalog_set m k v).
Proof.
  intros Hv [Hnd Hall]. unfold catalog_set, catalogWellFormed.
  destruct (catalog_get m k) as [u|] eqn:E.
  - rewrite catalog_update_keys. split; [done|by apply catalog_update_truthy].
  - split; [|by apply catalog_add_truthy].
    apply catalog_add_NoDup; [by apply catalog_get_None|done].
Qed.

Lemma catalogWellFormed_nil : catalogWellFormed [].
Proof. split; constructor. Qed.

Lemma catalogWellFormed_onIntake e s :
  catalogWellFormed (scriptIdToUrl s) →
  catalogWellFormed (scriptIdToUrl (onIntake e s)).
Proof.
  intros H. destruct e as [sid u|level args]; simpl; [|done].
  unfold onScriptParsed.
  destruct (JsString.truthy u) eqn:E; [|done]. simpl.
  by apply catalogWellFormed_set.
Qed.

Lemma catalogWellFormed_foldl_onIntake es s :
  catalogWellFormed (scriptIdToUrl s) →
  catalogWellFormed (scriptIdToUrl (foldl (λ s e, onIntake e s) s es)).
Proof.
  revert s. induction es as [|e es IH]; intros s H; simpl; [done|].
  by apply IH, catalogWellFormed_onIntake.
Qed.

(** Rewrites the script catalog of a state the parts of a handler built
    back to the catalog of the state they started from. *)
Ltac catalog_step :=
  match goal with
  | H : controlScopes ?g ?c ?x = (?y, _) |- context [scriptIdToUrl ?y] =>
      let F := fresh in
      pose proof (controlScopes_frame g c x) as F;
      rewrite H in F; cbn [fst] in F;
      rewrite (proj1 (proj2 (proj2 F))); clear F
  | H : inspectScopes ?n ?g ?c ?x = (?y, _) |- context [scriptIdToUrl ?y] =>
      let F := fresh in
      pose proof (inspectScopes_frame n g c x) as F;
      rewrite H in F; cbn [fst] in F;
      rewrite (proj1 (proj2 (proj2 F))); clear F
  | |- context [scriptIdToUrl (onPaused ?ev ?x)] =>
      rewrite (proj1 (proj2 (proj2 (onPaused_frame ev x))))
  | |- context [scriptIdToUrl (addPausedListener ?l ?x)] =>
      rewrite (proj1 (proj2 (proj2 (addPausedListener_frame l x))))
  | |- _ => progress simpl
  end.

Ltac close_catalog :=
  cbv zeta; repeat case_match; cbn [fst]; repeat catalog_step;
  first [done | apply catalogWellFormed_nil].

Lemma catalogWellFormed_step i s :
  catalogWellFormed (scriptIdToUrl s) →
  catalogWellFormed (scriptIdToUrl (step s i)).
Proof.
  intros H. destruct i as [c|e].
  - destruct c; simpl.
    + unfold start_node_debug. cbv zeta.
      repeat case_match; cbn [fst]; repeat catalog_step; try done.
      all: unfold installIntake, connect; simpl;
        apply catalogWellFormed_foldl_onIntake, catalogWellFormed_nil.
    + unfold set_breakpoint. close_catalog.
    + unfold set_breakpoint_condition, setByLocator. close_catalog.
    + unfold add_logpoint, setByLocator. close_catalog.
    + unfold set_exception_breakpoints. close_catalog.
    + unfold blackbox_scripts. close_catalog.
    + done.
    + unfold get_script_source. close_catalog.
    + unfold continue_to_location. close_catalog.
    + unfold restart_frame. close_catalog.
    + unfold get_object_properties. close_catalog.
    + done.
    + unfold control, pauseBranch, exitBranch. close_catalog.
    + unfold evaluate_expression. close_catalog.
    + unfold inspect_scopes. close_catalog.
    + unfold list_call_stack. close_catalog.
    + unfold get_pause_info. close_catalog.
    + change (catalogWellFormed (scriptIdToUrl (stop_debug_session s).1)).
      destruct (stop_debug_session_clears s) as (_ & _ & -> & _).
      apply catalogWellFormed_nil.
  - simpl. unfold deliver. destruct (nodeDebugClient s); [|done].
    destruct e as [i|ev].
    + case_match; [by apply catalogWellFormed_onIntake|done].
    + by rewrite (proj1 (proj2 (proj2 (onPaused_frame ev s)))).
Qed.

Lemma catalogWellFormed_reachable s :
  reachable s → catalogWellFormed (scriptIdToUrl s).
Proof.
  intros [tr ->]. revert tr. apply rev_ind.
  - apply catalogWellFormed_nil.
  - intros i tr IH. unfold run. rewrite foldl_app. simpl.
    by apply catalogWellFormed_step.
Qed.

Lemma findScriptId_sound m u k :
  catalogWellFormed m → findScriptId m u = Some k → catalog_get m k = Some u.
Proof.
  intros [Hnd _]. unfold findScriptId.
  induction m as [|[k0 v0] m IH]; simpl; [done|].
  simpl in Hnd. apply NoDup_cons in Hnd as [Hnin Hnd].
  destruct (bool_decide (v0 = u)) eqn:E; simpl.
  - intros [= <-]. apply bool_decide_eq_true in E as ->. by rewrite decide_True.
  - intros H. specialize (IH Hnd H).
    destruct (decide (k0 = k)) as [->|Hne]; [|done].
    destruct Hnin. clear -IH. induction m as [|[k1 v1] m IHm]; simpl in *; [done|].
    destruct (decide (k1 = k)) as [->|Hne]; [by left|right; by apply IHm].
Qed.

(** X11. In every state the server can reach, [list_scripts] lists no
    script id twice and no script with an empty URL. *)
Theorem list_scripts_lists_each_script_once (s : state) :
  reachable s →
  ∃ scripts, (list_scripts s).2 = Content (ScriptsPayload scripts) ∧
             NoDup scripts.*1 ∧ Forall (λ kv, kv.2 ≠ "") scripts.
Proof.
  intros Hr. destruct (catalogWellFormed_reachable s Hr) as [Hnd Hall].
  exists (scriptIdToUrl s). split; [done|]. split; [done|].
  eapply Forall_impl; [exact Hall|]. intros [k v] H E. simpl in *. by subst.
Qed.

Lemma list_scripts_lists_each_script_once_witness :
  ∃ scripts,
    (list_scripts
       (run initial
          [Sample.start;
           Event (Intake (ScriptParsed "42" "file:///app/sample.js"));
           Event (Intake (ScriptParsed "42" "file:///app/sample.js"))])).2
    = Content (ScriptsPayload scripts) ∧
    NoDup scripts.*1 ∧ Forall (λ kv, kv.2 ≠ "") scripts.
Proof.
  apply (list_scripts_lists_each_script_once
           (run initial
              [Sample.start;
               Event (Intake (ScriptParsed "42" "file:///app/sample.js"));
               Event (Intake (ScriptParsed "42" "file:///app/sample.js"))])).
  eexists. reflexivity.
Defined.

(** X12. The script id [continue_to_location] sends to the target is the
    id of a script the catalog lists under the file URL of the given
    path. *)
Theorem continue_to_location_sends_a_script_of_the_file (s : state)
    (filePath : string) (line : Z) (column : option Z) (w : ControlWorld)
    (scriptId : string) (l c : Z) (τ : list effect) :
  reachable s →
  trace (continue_to_location filePath line column w s).1
  = trace s ++ Sent (ContinueToLocation scriptId l c) :: τ →
  catalog_get (scriptIdToUrl s) scriptId = Some (toFileUrl filePath).
Proof.
  intros Hr H. pose proof (catalogWellFormed_reachable s Hr) as Hwf.
  assert (Hnil : ∀ x : list effect, ∀ e τ', x = x ++ e :: τ' → False).
  { intros x e τ' E. apply (f_equal length) in E.
    rewrite length_app in E. simpl in E. lia. }
  unfold continue_to_location in H.
  destruct (nodeDebugClient s) as [cl|] eqn:Ec; [|by apply Hnil in H].
  destruct (findScriptId _ _) as [sid|] eqn:Ef; [|by apply Hnil in H].
  destruct (JsString.truthy sid) eqn:Et; simpl in H; [|by apply Hnil in H].
  destruct (continue_to_location_sent filePath line column w s cl sid Ec Ef Et)
    as (τ' & E).
  unfold continue_to_location in E. rewrite Ec, Ef, Et in E. simpl in E.
  rewrite E in H. apply app_inv_head in H. injection H as <- _ _ _.
  by apply findScriptId_sound.
Qed.

Lemma continue_to_location_sends_a_script_of_the_file_witness :
  catalog_get
    (scriptIdToUrl
       (run initial
          [Sample.start;
           Event (Intake (ScriptParsed "42" "file:///app/sample.js"))]))
    "42"
  = Some (toFileUrl "/app/sample.js").
Proof.
  apply (continue_to_location_sends_a_script_of_the_file
           (run initial
              [Sample.start;
               Event (Intake (ScriptParsed "42" "file:///app/sample.js"))])
           "/app/sample.js" 3%Z None
           (Sample.world (PauseWins (Sample.pauseAt 2))) "42" 2%Z 0%Z
           [Minted "p2"]).
  - eexists. reflexivity.
  - vm_compute. reflexivity.
Defined.

(** ** Killing and spawning *)

Section OnlyEffects.

Variable allowed : effect → bool.
Hypothesis allowed_Sent : ∀ c, allowed (Sent c) = true.
Hypothesis allowed_Minted : ∀ id, allowed (Minted id) = true.
Hypothesis allowed_Closed : allowed Closed = true.

Lemma onlyEffects_refl s : onlyEffects allowed s s.
Proof. exists []. by rewrite app_nil_r. Qed.

Lemma onlyEffects_trans s1 s2 s3 :
  onlyEffects allowed s1 s2 → onlyEffects allowed s2 s3 →
  onlyEffects allowed s1 s3.
Proof.
  intros (t1 & E1 & H1) (t2 & E2 & H2). exists (t1 ++ t2).
  split; [by rewrite E2, E1, app_assoc|].
  by rewrite forallb_app, H1, H2.
Qed.

Lemma onlyEffects_same s s' : trace s' = trace s → onlyEffects allowed s s'.
Proof. intros E. exists []. by rewrite E, app_nil_r. Qed.

Lemma onlyEffects_log e s : allowed e = true → onlyEffects allowed s (log e s).
Proof. intros He. exists [e]. simpl. by rewrite He. Qed.

Lemma onlyEffects_mintPause ev s : onlyEffects allowed s (mintPause ev s).
Proof. eexists [_]. simpl. by rewrite allowed_Minted. Qed.

Lemma onlyEffects_onPaused ev s : onlyEffects allowed s (onPaused ev s).
Proof.
  unfold onPaused. destruct (nodeDebugClient s) as [c|]; [|apply onlyEffects_refl].
  generalize (pausedListeners c). intros ls. revert s.
  induction ls as [|l ls IH]; intros s; simpl; [apply onlyEffects_refl|].
  eapply onlyEffects_trans; [|apply IH]. destruct l; simpl.
  - by apply onlyEffects_same.
  - eapply onlyEffects_trans; [|apply onlyEffects_mintPause].
    by apply onlyEffects_same.
Qed.

Lemma onlyEffects_controlScopes g chain s :
  onlyEffects allowed s (controlScopes g chain s).1.
Proof.
  revert s. induction chain as [|sc rest IH]; intros s; simpl.
  - apply onlyEffects_refl.
  - destruct (object sc ≫= objectId) as [oid|]; [|apply IH].
    destruct (JsString.truthy oid); [|apply IH].
    destruct (g oid) as [props|m]; simpl; [|by apply onlyEffects_log].
    specialize (IH (log (Sent (GetProperties oid)) s)).
    destruct (controlScopes g rest _) as [s' [scopes|m]]; simpl in *;
      (eapply onlyEffects_trans; [|apply IH]); by apply onlyEffects_log.
Qed.

Lemma onlyEffects_inspectScopes n g chain s :
  onlyEffects allowed s (inspectScopes n g chain s).1.
Proof.
  revert s. induction chain as [|sc rest IH]; intros s; simpl.
  - apply onlyEffects_refl.
  - destruct (object sc ≫= objectId) as [oid|]; [|apply IH].
    destruct (JsString.truthy oid); [|apply IH].
    destruct (g oid) as [props|m]; simpl; [|by apply onlyEffects_log].
    specialize (IH (log (Sent (GetProperties oid)) s)).
    destruct (inspectScopes n g rest _) as [s' [scopes|m]]; simpl in *;
      (eapply onlyEffects_trans; [|apply IH]); by apply onlyEffects_log.
Qed.

Lemma onlyEffects_addPausedListener l s :
  onlyEffects allowed s (addPausedListener l s).
Proof.
  apply onlyEffects_same. by destruct (addPausedListener_frame l s) as (_ & _ & _ & _ & _ & ->).
Qed.

Lemma onlyEffects_deliver e s : onlyEffects allowed s (deliver e s).
Proof.
  destruct e as [i|ev].
  - destruct (deliver_frame (Intake i) s) as [(_ & _ & E)|[? ?]]; [|done].
    by apply onlyEffects_same.
  - unfold deliver. destruct (nodeDebugClient s); [|apply onlyEffects_refl].
    apply onlyEffects_onPaused.
Qed.

Ltac only_step :=
  lazymatch goal with
  | |- onlyEffects _ ?s ?s => apply onlyEffects_refl
  | |- onlyEffects _ ?s (log ?e ?x) =>
      apply (onlyEffects_trans s x);
      [|apply onlyEffects_log; first [apply allowed_Sent | apply allowed_Closed]]
  | |- onlyEffects _ ?s (onPaused ?ev ?x) =>
      apply (onlyEffects_trans s x); [|apply onlyEffects_onPaused]
  | |- onlyEffects _ ?s (addPausedListener ?l ?x) =>
      apply (onlyEffects_trans s x); [|apply onlyEffects_addPausedListener]
  | |- onlyEffects _ ?s (?op ?v ?x) =>
      apply (onlyEffects_trans s x); [|by apply onlyEffects_same]
  | |- onlyEffects _ ?s ?y =>
      lazymatch goal with
      | H : controlScopes ?g ?c ?x = (y, _) |- _ =>
          apply (onlyEffects_trans s x);
          [|let F := fresh in
            pose proof (onlyEffects_controlScopes g c x) as F;
            rewrite H in F; exact F]
      | H : inspectScopes ?n ?g ?c ?x = (y, _) |- _ =>
          apply (onlyEffects_trans s x);
          [|let F := fresh in
            pose proof (onlyEffects_inspectScopes n g c x) as F;
            rewrite H in F; exact F]
      end
  end.

Ltac only_all := cbv zeta; repeat case_match; cbn [fst]; repeat only_step.

(** An input that is neither a start nor a stop spawns nothing and kills
    nothing. *)
Lemma onlyEffects_step i s :
  isStart i = false → isStop i = false → onlyEffects allowed s (step s i).
Proof.
  intros H1 H2. destruct i as [c|e]; [|apply onlyEffects_deliver].
  destruct c; simpl; try done.
  - unfold set_breakpoint. only_all.
  - unfold set_breakpoint_condition, setByLocator. only_all.
  - unfold add_logpoint, setByLocator. only_all.
  - unfold set_exception_breakpoints. only_all.
  - unfold blackbox_scripts. only_all.
  - apply onlyEffects_refl.
  - unfold get_script_source. only_all.
  - unfold continue_to_location. only_all.
  - unfold restart_frame. only_all.
  - unfold get_object_properties. only_all.
  - unfold read_console. only_all.
  - unfold control, pauseBranch, exitBranch. only_all.
  - unfold evaluate_expression. only_all.
  - unfold inspect_scopes. only_all.
  - unfold list_call_stack. only_all.
  - unfold get_pause_info. only_all.
Qed.

End OnlyEffects.

Lemma onlyEffects_start scriptPath w s :
  onlyEffects notKilled s (start_node_debug scriptPath w s).1.
Proof.
  unfold start_node_debug. cbv zeta.
  assert (Hi : ∀ es x, trace (foldl (λ a e, onIntake e a) x es) = trace x).
  { intros es x. by destruct (foldl_onIntake_frame es x) as (_ & _ & -> & _). }
  repeat case_match; cbn [fst];
    repeat first
      [ apply onlyEffects_refl
      | match goal with
        | |- onlyEffects _ ?s (log ?e ?x) =>
            apply (onlyEffects_trans _ s x); [|by apply onlyEffects_log]
        | |- onlyEffects _ ?s (mintPause ?ev ?x) =>
            apply (onlyEffects_trans _ s x); [|by apply onlyEffects_mintPause]
        | |- onlyEffects _ ?s (onPaused ?ev ?x) =>
            apply (onlyEffects_trans _ s x); [|by apply onlyEffects_onPaused]
        | |- onlyEffects _ ?s (foldl (λ a e, onIntake e a) ?x ?es) =>
            apply (onlyEffects_trans _ s x);
            [|apply onlyEffects_same; apply Hi]
        | |- onlyEffects _ ?s (installIntake ?x) =>
            apply (onlyEffects_trans _ s x);
            [|apply onlyEffects_same; unfold installIntake; by case_match]
        | |- onlyEffects _ ?s (connect ?x) =>
            apply (onlyEffects_trans _ s x); [|by apply onlyEffects_same]
        | |- onlyEffects _ ?s (?op ?v ?x) =>
            apply (onlyEffects_trans _ s x); [|by apply onlyEffects_same]
        end ].
Qed.

Lemma onlyEffects_stop s : onlyEffects notSpawned s (stop_debug_session s).1.
Proof.
  unfold stop_debug_session.
  destruct (nodeProcess s) eqn:Ep; destruct (nodeDebugClient s) eqn:Ec; simpl;
    rewrite ?Ec; simpl.
  - exists [Killed; Closed]. split; [simpl; by rewrite <- app_assoc|done].
  - by exists [Killed].
  - by exists [Closed].
  - exists []. split; [simpl; by rewrite app_nil_r|done].
Qed.

(** X13. Only [stop_debug_session] kills the child process and only
    [start_node_debug] spawns one: no other tool call and no event of the
    target adds a kill or a spawn to the history. *)
Theorem kill_only_by_stop_spawn_only_by_start (s : state) (i : input)
    (e : effect) :
  e ∈ effectsSince s (step s i) →
  (e = Killed → isStop i = true) ∧
  (∀ scriptPath, e = Spawned scriptPath → isStart i = true).
Proof.
  intros Hin.
  assert (Huse : ∀ allowed, onlyEffects allowed s (step s i) → allowed e = true).
  { intros allowed (τ & E & Hall). unfold effectsSince in Hin.
    rewrite E, drop_app_length in Hin.
    rewrite forallb_forall in Hall. apply Hall. by apply list_elem_of_In. }
  split.
  - intros ->. destruct (isStop i) eqn:Hs; [done|].
    assert (onlyEffects notKilled s (step s i)) as H; [|by apply Huse in H].
    destruct (isStart i) eqn:Hst.
    + destruct i as [[]|]; try done. apply onlyEffects_start.
    + by apply onlyEffects_step.
  - intros p ->. destruct (isStart i) eqn:Hst; [done|].
    assert (onlyEffects notSpawned s (step s i)) as H; [|by apply Huse in H].
    destruct (isStop i) eqn:Hs.
    + destruct i as [[]|]; try done. apply onlyEffects_stop.
    + by apply onlyEffects_step.
Qed.

Lemma kill_only_by_stop_spawn_only_by_start_witness :
  (Killed = Killed → isStop (ToolCall StopDebugSession) = true) ∧
  (∀ scriptPath, Killed = Spawned scriptPath →
                 isStart (ToolCall StopDebugSession) = true).
Proof.
  apply (kill_only_by_stop_spawn_only_by_start Sample.started
           (ToolCall StopDebugSession) Killed).
  vm_compute. by left.
Defined.

(** ** File URLs *)



(** ** The two passes of toCondition *)

Section LogpointPasses.
Import Logpoint.

(** X15. The two replacements of [toCondition] do not get in each other's
    way: escaping the backticks first and rewriting the segments after, as
    the code does, gives the same text as rewriting first and escaping
    after. The escaping makes and breaks no segment, and the rewriting
    leaves every backtick escaped. *)
Theorem replace_passes_commute (msg : string) :
  replaceExprs (escapeBackticks msg) = escapeBackticks (replaceExprs msg).
Proof.
  unfold replaceExprs.
  assert (H : ∀ n m, String.length m ≤ n →
            replaceFrom 0 (escapeBackticks m) = escapeBackticks (replaceFrom 0 m)).
  { induction n as [|n IH]; intros m Hlen.
    { destruct m; [done|simpl in Hlen; lia]. }
    destruct m as [|c r]; [done|]. simpl in Hlen.
    destruct (Ascii.eqb_spec c backtick) as [->|Hnb].
    { simpl. rewrite IH by lia. done. }
    assert (Ec : ∀ x, escapeBackticks (String c x) = String c (escapeBackticks x)).
    { intros x. simpl. by destruct (Ascii.eqb_spec c backtick). }
    destruct (segment_or_not c r) as [(e & rest & [Hne Hno] & E)|Hnone].
    - rewrite segment_canonical in E. injection E as -> ->.
      rewrite (replaceFrom_segment e rest Hne Hno).
      rewrite Ec, escapeBackticks_app.
      assert (Er : ∀ x, escapeBackticks (String rbrace x)
                        = String rbrace (escapeBackticks x)) by done.
      rewrite Er, replaceFrom_segment.
      + assert (Ed : ∀ x, escapeBackticks (String dollar x)
                          = String dollar (escapeBackticks x)) by done.
        rewrite Ed, Ec, escapeBackticks_app, Er. rewrite IH; [done|].
        rewrite string_length_app in Hlen. simpl in Hlen. lia.
      + destruct e as [|a e]; [done|]. simpl. by destruct (Ascii.eqb a backtick).
      + intros Hocc. by apply Hno, escapeBackticks_occurs_rbrace.
    - rewrite Ec, (replaceFrom_other c r Hnone), Ec, replaceFrom_other.
      + rewrite IH by lia. done.
      + intros Hseg. by apply Hnone, escapeBackticks_segment. }
  by apply (H (String.length msg)).
Qed.

Lemma escapeBackticks_plain (m : string) :
  ¬ JsString.occurs backtick m → escapeBackticks m = m.
Proof.
  induction m as [|c r IH]; [done|]. simpl. intros Hno.
  destruct (Ascii.eqb_spec c backtick) as [->|Hne]; [destruct Hno; by left|].
  rewrite IH; [done|]. intros H. apply Hno. by right.
Qed.

Lemma replaceFrom_plain (m : string) :
  ¬ JsString.occurs lbrace m → replaceFrom 0 m = m.
Proof.
  induction m as [|c r IH]; [done|]. simpl. intros Hno.
  destruct (Ascii.eqb_spec c lbrace) as [->|Hne]; [destruct Hno; by left|].
  rewrite IH; [done|]. intros H. apply Hno. by right.
Qed.

(** X16. A message that holds no backtick and no opening brace goes into
    the condition as it is. *)
Theorem plain_message_is_logged_verbatim (msg : string) :
  ¬ JsString.occurs backtick msg →
  ¬ JsString.occurs lbrace msg →
  toCondition msg = "console.log(`" +:+ msg +:+ "`); false".
Proof.
  intros Hb Hl. unfold toCondition, replaceExprs.
  rewrite (escapeBackticks_plain msg Hb), (replaceFrom_plain msg Hl).
  by rewrite !string_app_assoc.
Qed.

End LogpointPasses.

Lemma plain_message_is_logged_verbatim_witness :
  Logpoint.toCondition "loop done" = "console.log(`loop done`); false".
Proof.
  apply (plain_message_is_logged_verbatim "loop done"); simpl; intros H;
    repeat (destruct H as [H|H]; [discriminate|]); done.
Defined.

(** ** Bounds of the listing tools *)

(** X17. When [list_call_stack] answers with frames, the state is as it
    was and the frames are those of the chosen pause from the top down,
    cut at [depth], 10 when no depth is given: as many as the pause has
    when it has fewer. The one other answer with frames is the empty list
    under the given pause id, for a pause id that is no key of the catalog
    but a name the catalog object inherits, such as [constructor]. *)
Theorem list_call_stack_lists_top_frames (depth : option nat)
    (pauseId : option string) (includeThis : option bool) (s s' : state)
    (frames : list StackFrame) (shown : option string) :
  list_call_stack depth pauseId includeThis s
  = (s', Content (StackPayload frames shown)) →
  s' = s ∧
  ((∃ pause,
      selectPause pauseId s = Some pause ∧
      sf_frame <$> frames
      = summarizeFrame s <$> take (default 10 depth) (callFrames pause) ∧
      length frames = default 10 depth `min` length (callFrames pause)) ∨
   (selectPause pauseId s = None ∧ inheritedMember pauseId = true ∧
    frames = [] ∧ shown = pauseId)).
Proof.
  unfold list_call_stack. destruct (noPauseState s); [done|].
  destruct (selectPause pauseId s) as [pause|].
  - intros H. simplify_eq. split; [done|]. left. exists pause. split; [done|].
    unfold slice0. split.
    + rewrite <- list_fmap_compose. by apply list_fmap_ext.
    + by rewrite length_fmap, length_take.
  - destruct (inheritedMember pauseId); [|done].
    intros H. simplify_eq. split; [done|]. by right.
Qed.

Lemma list_call_stack_lists_top_frames_witness :
  Sample.started = Sample.started ∧
  ((∃ pause,
      selectPause None Sample.started = Some pause ∧
      sf_frame <$> [{| sf_frame := summarizeFrame Sample.started (Sample.frameAt 0);
                       thisType := None |}]
      = summarizeFrame Sample.started <$> take (default 10 (Some 3)) (callFrames pause) ∧
      length [{| sf_frame := summarizeFrame Sample.started (Sample.frameAt 0);
                 thisType := None |}]
      = default 10 (Some 3) `min` length (callFrames pause)) ∨
   (selectPause None Sample.started = None ∧ inheritedMember None = true ∧
    [{| sf_frame := summarizeFrame Sample.started (Sample.frameAt 0);
        thisType := None |}] = [] ∧ Some "p1" = None)).
Proof.
  apply (list_call_stack_lists_top_frames (Some 3) None None Sample.started
           Sample.started _ (Some "p1")).
  vm_compute. reflexivity.
Defined.

(** X18. [get_object_properties] answers with the properties the target
    listed, in the target's order, cut at [maxProps], 50 when it is not
    given. *)
Theorem get_object_properties_lists_first_properties (objectId : string)
    (maxProps : option nat) (w : reply (list PropertyDescriptor))
    (s s' : state) (items : list ScopeVariable) :
  get_object_properties objectId maxProps w s
  = (s', Content (PropertiesPayload items)) →
  ∃ result,
    w = Fulfilled result ∧
    sv_name <$> items = name <$> take (default 50 maxProps) result ∧
    length items = default 50 maxProps `min` length result ∧
    trace s' = trace s ++ [Sent (GetProperties objectId)].
Proof.
  unfold get_object_properties. destruct (nodeDebugClient s); [|done].
  destruct w as [result|m]; [|done].
  intros H. simplify_eq. exists result. split; [done|]. unfold slice0.
  split; [|split; [|done]].
  - rewrite <- list_fmap_compose. by apply list_fmap_ext.
  - by rewrite length_fmap, length_take.
Qed.

Lemma get_object_properties_lists_first_properties_witness :
  ∃ result,
    Fulfilled (Sample.props 3) = Fulfilled result ∧
    sv_name <$> (scopeVariable <$> Sample.props 2)
    = name <$> take (default 50 (Some 2)) result ∧
    length (scopeVariable <$> Sample.props 2)
    = default 50 (Some 2) `min` length result ∧
    trace (get_object_properties "obj-1" (Some 2) (Fulfilled (Sample.props 3))
             Sample.started).1
    = trace Sample.started ++ [Sent (GetProperties "obj-1")].
Proof.
  apply (get_object_properties_lists_first_properties "obj-1" (Some 2)
           (Fulfilled (Sample.props 3)) Sample.started).
  vm_compute. reflexivity.
Defined.

(** ** The console buffer and the tools that drain it *)

(** X19. [evaluate_expression] hands over and empties the console buffer
    only when it answers with a result: when it answers with an error (no
    pause, unknown pause id or frame, a rejected command, an exception in
    the expression) the buffer is left as it was. *)
Theorem evaluate_expression_drains_console_on_success (expr : string)
    (pauseId : option string) (frameIndex : option nat)
    (returnByValue : option bool) (w : reply EvaluateResponse) (s : state) :
  let s' := (evaluate_expression expr pauseId frameIndex returnByValue w s).1 in
  let r := (evaluate_expression expr pauseId frameIndex returnByValue w s).2 in
  if isError r then consoleMessages s' = consoleMessages s
  else consoleMessages s' = [] ∧
       ∃ output, r = Content (EvalPayload output (consoleMessages s)).
Proof.
  unfold evaluate_expression. cbv zeta.
  repeat case_match; simpl; try done; split; try done; by eexists.
Qed.

(** X20. A [resume_execution], [step_over], [step_into] or [step_out] that
    answers with a pause empties the console buffer whether the caller
    asked for the console output or not: with [includeConsole] the answer
    holds the buffer as it was, without it the buffered messages are
    dropped. *)
Theorem control_pause_empties_console (t : ControlTool) (o : ControlOptions)
    (w : ControlWorld) (s s' : state) (status : string)
    (pauseId : option string) (frame : FrameSummary)
    (consoleOutput : option (list string))
    (stack : option (list FrameSummary))
    (scopes : option (list (ScopeEntry ScopeVariable))) :
  control t o w s
  = (s', Content (PausePayload status pauseId frame consoleOutput stack scopes)) →
  consoleMessages s' = [] ∧
  consoleOutput
  = if isTrue (includeConsole o) then Some (consoleMessages s) else None.
Proof.
  intros H. unfold control in H. cbv zeta in H.
  destruct (nodeDebugClient s) as [cl|] eqn:Ec; [|done].
  destruct (commandReply w); [|done].
  destruct (race w) as [ev|code];
    [|unfold exitBranch in H; by destruct (clearsPauses t)].
  assert (Hm : consoleMessages
                 (onPaused ev (log (Sent (controlCommand t))
                                 (addPausedListener MintPause s)))
               = consoleMessages s).
  { rewrite (proj2 (proj2 (proj2 (onPaused_frame _ _)))). simpl.
    by destruct (addPausedListener_frame MintPause s) as (_ & _ & _ & -> & _). }
  set (s1 := onPaused ev _) in *. clearbody s1.
  unfold pauseBranch in H. cbv zeta in H.
  destruct (callFrames ev) as [|top rest]; [done|].
  destruct (isTrue (includeScopes o)).
  - destruct (controlScopes _ _ _) as [s2 [sc|m]] eqn:Esc; [|done].
    pose proof (controlScopes_frame (getProperties w) (scopeChain top)
                  (set_consoleMessages [] s1)) as F.
    rewrite Esc in F. cbn [fst] in F. destruct F as (_ & _ & _ & Fm & _).
    simplify_eq. split; [done|]. by rewrite Hm.
  - simplify_eq. split; [done|]. by rewrite Hm.
Qed.

Lemma control_pause_empties_console_witness :
  consoleMessages
    (step (deliver (Intake (ConsoleAPICalled "log" [])) Sample.started)
       (Sample.resumeTo 2)) = [] ∧
  None = if isTrue (includeConsole Sample.noOptions)
         then Some (consoleMessages
                      (deliver (Intake (ConsoleAPICalled "log" []))
                         Sample.started))
         else None.
Proof.
  apply (control_pause_empties_console ResumeExecution Sample.noOptions
           (Sample.world (PauseWins (Sample.pauseAt 2)))
           (deliver (Intake (ConsoleAPICalled "log" [])) Sample.started) _
           "Paused at file:///app/sample.js:3 (reason: other)" (Some "p2")
           (summarizeFrame Sample.started (Sample.frameAt 2)) None None None).
  vm_compute. reflexivity.
Defined.

(** ** A frame index out of range *)

(** X21. With a frame index beyond the frames of the chosen pause,
    [evaluate_expression] and [restart_frame] answer with the invalid-frame
    error and [inspect_scopes] throws the [TypeError] of reading the URL of
    a missing frame; none of the three sends anything to the target or
    changes the state. *)
Theorem frame_index_out_of_range (s : state) (pauseId : option string)
    (pause : PausedEvent) (frameIndex : nat) :
  noPauseState s = false →
  selectPause pauseId s = Some pause →
  length (callFrames pause) ≤ frameIndex →
  (∀ expr returnByValue w,
     evaluate_expression expr pauseId (Some frameIndex) returnByValue w s
     = (s, Failure INVALID_FRAME)) ∧
  (∀ commandReply next,
     restart_frame frameIndex pauseId commandReply next s
     = (s, Failure INVALID_FRAME)) ∧
  (∀ maxProps includeThisPreview getProps,
     inspect_scopes maxProps pauseId (Some frameIndex) includeThisPreview
       getProps s
     = (s, Thrown (cannotRead "url"))).
Proof.
  intros Hp Hs Hlen.
  pose proof (lookup_ge_None_2 _ _ Hlen) as Hnone.
  split; [|split].
  - intros expr returnByValue w. unfold evaluate_expression.
    rewrite Hp, Hs. simpl. by rewrite Hnone.
  - intros commandReply next. by apply (restart_frame_invalid_frame s pauseId pause).
  - intros maxProps includeThisPreview getProps. unfold inspect_scopes.
    rewrite Hp, Hs. simpl. by rewrite Hnone.
Qed.

Lemma frame_index_out_of_range_witness :
  inspect_scopes None None (Some 1) None (λ _, Fulfilled []) Sample.started
  = (Sample.started, Thrown (cannotRead "url")).
Proof.
  destruct (frame_index_out_of_range Sample.started None (Sample.pauseAt 0) 1
              eq_refl eq_refl) as (_ & _ & H).
  - simpl. lia.
  - apply H.
Defined.

(** ** continue_to_location and the exit of the target *)

(** X22. When the target exits during [continue_to_location], the handler
    answers that the execution completed and tears nothing down: the
    client is not closed, the handles and the pause state stay, and a
    [start_node_debug] right after is refused as a session being active. *)
Theorem continue_to_location_exit_keeps_session (filePath : string) (line : Z)
    (column : option Z) (w : ControlWorld) (s : state) (cl : Client)
    (scriptId : string) (code : option Z) :
  nodeDebugClient s = Some cl →
  findScriptId (scriptIdToUrl s) (toFileUrl filePath) = Some scriptId →
  JsString.truthy scriptId = true →
  commandReply w = Fulfilled () →
  race w = ExitWins code →
  let s' := (continue_to_location filePath line column w s).1 in
  (continue_to_location filePath line column w s).2
  = Content (StatusPayload "Execution completed.") ∧
  trace s' = trace s ++ [Sent (ContinueToLocation scriptId (line - 1)%Z
                                 (default 1%Z column - 1)%Z)] ∧
  is_Some (nodeDebugClient s') ∧ nodeProcess s' = nodeProcess s ∧
  lastPausedParams s' = lastPausedParams s ∧ pauseMap s' = pauseMap s ∧
  currentPauseId s' = currentPauseId s ∧
  ∀ scriptPath sw,
    start_node_debug scriptPath sw s' = (s', Failure SESSION_ACTIVE).
Proof.
  intros Hc Hf Ht Hr Hw. unfold continue_to_location.
  rewrite Hc, Hf, Ht, Hr, Hw. simpl. unfold addPausedListener. rewrite Hc. simpl.
  repeat split; by eexists.
Qed.

Lemma continue_to_location_exit_keeps_session_witness :
  start_node_debug "/app/other.js" (Attached [] (Sample.pauseAt 0))
    (continue_to_location "/app/sample.js" 3%Z None
       (Sample.world (ExitWins (Some 0%Z)))
       (deliver (Intake (ScriptParsed "42" "file:///app/sample.js"))
          Sample.started)).1
  = ((continue_to_location "/app/sample.js" 3%Z None
        (Sample.world (ExitWins (Some 0%Z)))
        (deliver (Intake (ScriptParsed "42" "file:///app/sample.js"))
           Sample.started)).1,
     Failure SESSION_ACTIVE).
Proof.
  apply (continue_to_location_exit_keeps_session "/app/sample.js" 3%Z None
           (Sample.world (ExitWins (Some 0%Z)))
           (deliver (Intake (ScriptParsed "42" "file:///app/sample.js"))
              Sample.started)
           {| pausedListeners := [RecordPause]; intakeListeners := true |}
           "42" (Some 0%Z)); reflexivity.
Defined.
